(** * Invoice resolvers of [server/graphql/v1/queries.js]

    A shallow embedding of the three invoice resolvers ([allInvoices],
    [Invoice], [TransactionInvoice]) and of the two helpers they share
    ([validateDate], [parseInvoiceSlug]), with the ECMAScript primitives
    they rely on: [substr], [substring], [lastIndexOf], the relational
    operators with their string-to-number coercion, template literals
    and [Array.prototype.sort]. *)

From Stdlib Require Import ZArith QArith List String Ascii Bool Lia.
From Stdlib Require Import Permutation Sorted DecimalString DecimalZ OrderedTypeEx.
Import ListNotations.

Local Open Scope string_scope.
Local Open Scope Z_scope.

(** ** ECMAScript primitives *)

Module Js.

(** Strings are sequences of code units; the embedding keeps the code
    units below 256, which covers every slug, digit and separator the
    resolvers look at. *)

Fixpoint take (n : nat) (s : string) : string :=
  match n, s with
  | S n', String c s' => String c (take n' s')
  | _, _ => ""
  end.

Fixpoint drop (n : nat) (s : string) : string :=
  match n, s with
  | S n', String _ s' => drop n' s'
  | _, _ => s
  end.

(** [Math.min(Math.max(i, 0), len)] *)
Definition clamp (s : string) (i : Z) : nat :=
  Z.to_nat (Z.min (Z.max i 0) (Z.of_nat (length s))).

(** [s.substr(start, len)]; a negative [start] counts from the end. *)
Definition substr (s : string) (start : Z) (len : option Z) : string :=
  let size := Z.of_nat (length s) in
  let from := if start <? 0 then Z.max (size + start) 0 else Z.min start size in
  let rest := drop (Z.to_nat from) s in
  match len with
  | None => rest
  | Some l => take (Z.to_nat (Z.min (Z.max l 0) (size - from))) rest
  end.

(** [s.substring(a, b)]: both ends are clamped to the string, and
    swapped when [a > b]. *)
Definition substring (s : string) (a b : Z) : string :=
  let a' := clamp s a in
  let b' := clamp s b in
  let lo := Nat.min a' b' in
  let hi := Nat.max a' b' in
  take (hi - lo) (drop lo s).

Fixpoint lastIndexOf_from (c : ascii) (s : string) (i found : Z) : Z :=
  match s with
  | "" => found
  | String d s' =>
      lastIndexOf_from c s' (i + 1) (if Ascii.eqb d c then i else found)
  end.

(** [s.lastIndexOf(c)] for a one-character search string; [-1] when
    [c] does not occur. *)
Definition lastIndexOf (s : string) (c : ascii) : Z :=
  lastIndexOf_from c s 0 (-1).

Fixpoint occurs (c : ascii) (s : string) : bool :=
  match s with
  | "" => false
  | String d s' => Ascii.eqb d c || occurs c s'
  end.

(** [s.includes(p)] *)
Fixpoint includes (s p : string) : bool :=
  prefix p s || match s with
                | "" => false
                | String _ s' => includes s' p
                end.

(** *** Numbers

    A Number is NaN, an infinity or a finite value.  Finite values are
    kept as rationals; the sign of zero is not represented.  [num_add]
    is the exact sum, which is the sum of the code on years and months,
    integers far below 2^53; [add] is the sum rounded to binary64, as
    the code adds amounts. *)

Inductive Number :=
| NaN
| PosInfinity
| NegInfinity
| Finite (q : Q).

Definition of_Z (z : Z) : Number := Finite (inject_Z z).

(** [a < b] on Numbers: false as soon as one side is NaN. *)
Definition num_lt (a b : Number) : bool :=
  match a, b with
  | NaN, _ | _, NaN => false
  | _, NegInfinity => false
  | NegInfinity, _ => true
  | PosInfinity, _ => false
  | Finite _, PosInfinity => true
  | Finite p, Finite q =>
      match Qcompare p q with Lt => true | _ => false end
  end.

Definition num_add (a b : Number) : Number :=
  match a, b with
  | NaN, _ | _, NaN => NaN
  | PosInfinity, NegInfinity | NegInfinity, PosInfinity => NaN
  | PosInfinity, _ | _, PosInfinity => PosInfinity
  | NegInfinity, _ | _, NegInfinity => NegInfinity
  | Finite p, Finite q => Finite (Qred (p + q))
  end.

(** *** Rounding to binary64 *)

(** [n / d] rounded to the nearest integer, ties to the even one, for
    [n >= 0] and [d > 0]. *)
Definition round_half_even (n d : Z) : Z :=
  let q := n / d in
  match 2 * (n mod d) ?= d with
  | Lt => q
  | Gt => q + 1
  | Eq => if Z.even q then q else q + 1
  end.

(** [n / (d * 2^k)] as a fraction, for any integer [k]. *)
Definition scaled (n d k : Z) : Z * Z :=
  if 0 <=? k then (n, d * 2 ^ k) else (n * 2 ^ (- k), d).

(** The integer part of the binary logarithm of [n / d], for [n > 0]
    and [d > 0]. *)
Definition floor_log2 (n d : Z) : Z :=
  let e := Z.log2 n - Z.log2 d in
  let '(n', d') := scaled n d e in
  if n' <? d' then e - 1 else e.

(** [m * 2^k] *)
Definition times_pow2 (m k : Z) : Q :=
  if 0 <=? k then inject_Z (m * 2 ^ k) else Qred (m # Z.to_pos (2 ^ (- k))).

(** The binary64 nearest to a rational, ties to the even significand:
    a significand of 53 bits, a spacing of 2^-1074 below 2^-1022, an
    infinity from 2^1024 - 2^970 on. *)
Definition round_binary64 (q : Q) : Number :=
  let n := Z.abs (Qnum q) in
  let d := Zpos (Qden q) in
  if n =? 0 then Finite 0
  else
    let k := Z.max (floor_log2 n d) (-1022) - 52 in
    let '(n', d') := scaled n d k in
    let m := round_half_even n' d' in
    if (0 <=? k) && (2 ^ 1024 <=? m * 2 ^ k)
    then (if Qnum q <? 0 then NegInfinity else PosInfinity)
    else Finite (times_pow2 (Z.sgn (Qnum q) * m) k).

(** [a + b] on Numbers. *)
Definition add (a b : Number) : Number :=
  match num_add a b with
  | Finite q => round_binary64 q
  | n => n
  end.

(** *** StringToNumber (ECMA-262, StringNumericLiteral) *)

Definition is_white_space (c : ascii) : bool :=
  let n := nat_of_ascii c in
  ((9 <=? n) && (n <=? 13) || (n =? 32) || (n =? 160))%nat.

Fixpoint trim_start (s : string) : string :=
  match s with
  | "" => ""
  | String c s' => if is_white_space c then trim_start s' else s
  end.

Fixpoint trim_end (s : string) : string :=
  match s with
  | "" => ""
  | String c s' =>
      match trim_end s' with
      | "" => if is_white_space c then "" else String c ""
      | r => String c r
      end
  end.

Definition digit_value (c : ascii) : option Z :=
  let n := nat_of_ascii c in
  if ((48 <=? n) && (n <=? 57))%nat then Some (Z.of_nat (n - 48))
  else if ((97 <=? n) && (n <=? 102))%nat then Some (Z.of_nat (n - 87))
  else if ((65 <=? n) && (n <=? 70))%nat then Some (Z.of_nat (n - 55))
  else None.

Definition is_decimal_digit (c : ascii) : bool :=
  let n := nat_of_ascii c in ((48 <=? n) && (n <=? 57))%nat.

(** Reads the longest prefix of decimal digits: the value accumulated
    on top of [acc], the number of digits read and the rest. *)
Fixpoint decimal_digits (s : string) (acc : Z) (n : Z) : Z * Z * string :=
  match s with
  | "" => (acc, n, "")
  | String c s' =>
      if is_decimal_digit c
      then decimal_digits s' (10 * acc + Z.of_nat (nat_of_ascii c - 48)) (n + 1)
      else (acc, n, s)
  end.

(** A whole string of digits in [base], at least one. *)
Fixpoint radix_digits (base : Z) (s : string) (acc : Z) : option Z :=
  match s with
  | "" => Some acc
  | String c s' =>
      match digit_value c with
      | Some d => if d <? base then radix_digits base s' (base * acc + d) else None
      | None => None
      end
  end.

Definition non_decimal_literal (s : string) : option (option Z) :=
  match s with
  | String "0" (String p ds) =>
      let base :=
        if Ascii.eqb p "x" || Ascii.eqb p "X" then Some 16
        else if Ascii.eqb p "o" || Ascii.eqb p "O" then Some 8
        else if Ascii.eqb p "b" || Ascii.eqb p "B" then Some 2
        else None in
      match base with
      | Some b => Some (match ds with "" => None | _ => radix_digits b ds 0 end)
      | None => None
      end
  | _ => None
  end.

(** [m * 10^e] *)
Definition scale10 (m e : Z) : Q :=
  if 0 <=? e then inject_Z (m * 10 ^ e)
  else Qred (Qmake m (Z.to_pos (10 ^ (- e)))).

(** ExponentPart, when present, must reach the end of the string. *)
Definition exponent_part (s : string) : option Z :=
  match s with
  | "" => Some 0
  | String e r =>
      if Ascii.eqb e "e" || Ascii.eqb e "E" then
        let '(neg, ds) :=
          match r with
          | String "+" r' => (false, r')
          | String "-" r' => (true, r')
          | _ => (false, r)
          end in
        match decimal_digits ds 0 0 with
        | (v, n, "") => if 0 <? n then Some (if neg then - v else v) else None
        | _ => None
        end
      else None
  end.

(** StrUnsignedDecimalLiteral without the [Infinity] alternative. *)
Definition unsigned_decimal (s : string) : option Q :=
  let '(i, ni, r1) := decimal_digits s 0 0 in
  let '(m, nf, r2) :=
    match r1 with
    | String "." r => decimal_digits r i 0
    | _ => (i, 0, r1)
    end in
  if ni + nf =? 0 then None
  else match exponent_part r2 with
       | Some e => Some (scale10 m (e - nf))
       | None => None
       end.

Definition StringToNumber (s : string) : Number :=
  let t := trim_end (trim_start s) in
  match t with
  | "" => Finite 0
  | _ =>
      match non_decimal_literal t with
      | Some (Some v) => of_Z v
      | Some None => NaN
      | None =>
          let '(neg, u) :=
            match t with
            | String "+" r => (false, r)
            | String "-" r => (true, r)
            | _ => (false, t)
            end in
          if String.eqb u "Infinity"
          then (if neg then NegInfinity else PosInfinity)
          else match unsigned_decimal u with
               | Some q => Finite (if neg then Qred (- q) else q)
               | None => NaN
               end
      end
  end.

(** *** Number::toString *)

(** The decimal digits of an integer, as [String(n)] prints them. *)
Definition integer_toString (z : Z) : string :=
  NilEmpty.string_of_int (Z.to_int z).

(** What the host engine supplies and the source leaves to it: the
    text of a Number that is not an integer below 10^21, the parsing
    of a date string by [new Date(string)] (the time value, or [None]
    for an Invalid Date), and the local calendar fields of a time
    value. *)
Record Engine := {
  Number_toString_other : Q -> string;
  Date_parse : string -> option Z;
  Date_getFullYear : Z -> Z;
  Date_getMonth : Z -> Z;
  Date_getDate : Z -> Z
}.

Definition Number_toString (eng : Engine) (n : Number) : string :=
  match n with
  | NaN => "NaN"
  | PosInfinity => "Infinity"
  | NegInfinity => "-Infinity"
  | Finite q =>
      let r := Qred q in
      if (Pos.eqb (Qden r) 1 && (Z.abs (Qnum r) <? 10 ^ 21))%bool
      then integer_toString (Qnum r)
      else Number_toString_other eng r
  end.

(** *** Values *)

Inductive Value :=
| Undefined
| Null
| Num (n : Number)
| Str (s : string).

Definition ToNumber (v : Value) : Number :=
  match v with
  | Undefined => NaN
  | Null => Finite 0
  | Num n => n
  | Str s => StringToNumber s
  end.

Definition ToString (eng : Engine) (v : Value) : string :=
  match v with
  | Undefined => "undefined"
  | Null => "null"
  | Num n => Number_toString eng n
  | Str s => s
  end.

(** [a < b]: code-unit order when both sides are strings, numeric
    order after ToNumber otherwise. *)
Definition lt (a b : Value) : bool :=
  match a, b with
  | Str s, Str t => String.ltb s t
  | _, _ => num_lt (ToNumber a) (ToNumber b)
  end.

(** [a > b] *)
Definition gt (a b : Value) : bool := lt b a.

(** [a >= b]: not [a < b], unless a side is NaN. *)
Definition ge (a b : Value) : bool :=
  match a, b with
  | Str s, Str t => negb (String.ltb s t)
  | _, _ =>
      match ToNumber a, ToNumber b with
      | NaN, _ | _, NaN => false
      | x, y => negb (num_lt x y)
      end
  end.

(** [!s] on a string *)
Definition falsy (s : string) : bool := String.eqb s "".

(** [a.sort(cmp)].  ECMA-262 leaves the algorithm to the engine and
    fixes the result for a consistent comparator only; on elements that
    the comparator tells apart, as the distinct slugs of [allInvoices],
    every correct algorithm gives the same list.  This one inserts the
    elements from the right, moving one past those it must follow
    ([cmp x y > 0]), which keeps equal elements in their order, as the
    engines do. *)
Section Sort.
Context {A : Type} (cmp : A -> A -> Z).

Fixpoint sort_insert (x : A) (l : list A) : list A :=
  match l with
  | [] => [x]
  | y :: l' => if 0 <? cmp x y then y :: sort_insert x l' else x :: l
  end.

Definition sort (l : list A) : list A :=
  fold_right sort_insert [] l.
End Sort.

(** An insertion-ordered object used as a dictionary: [o[k]] and
    [o[k] = v].  A key that is not an array index keeps the place of
    its first assignment, which is the order [Object.keys] reports. *)
Section Dict.
Context {V : Type}.

Fixpoint get (o : list (string * V)) (k : string) : option V :=
  match o with
  | [] => None
  | (k', v) :: o' => if String.eqb k' k then Some v else get o' k
  end.

Fixpoint set (o : list (string * V)) (k : string) (v : V) : list (string * V) :=
  match o with
  | [] => [(k, v)]
  | (k', v') :: o' =>
      if String.eqb k' k then (k, v) :: o' else (k', v') :: set o' k v
  end.

Definition keys (o : list (string * V)) : list string := map fst o.
End Dict.

End Js.

(** ** Errors ([lib/errors]) *)

(** The error classes the resolvers throw, with the arguments they are
    constructed with; [TypeError] is the engine's own, thrown when a
    property of [null] or [undefined] is read. *)
Inductive Error :=
| NotFound (msg : string)
| Unauthorized (msg : string)
| ValidationFailed (type : string) (fields : option (list string)) (msg : option string)
| TypeError.

Inductive Outcome (A : Type) :=
| Returned (a : A)
| Thrown (e : Error).
Arguments Returned {A} a.
Arguments Thrown {A} e.

(** ** Data model *)

Module Collective.
Record t := {
  id : Z;
  slug : string;
  currency : string;
  settings_invoiceTitle : option string
}.
End Collective.

Inductive TransactionType := CREDIT | DEBIT.

Definition TransactionType_eqb (a b : TransactionType) : bool :=
  match a, b with
  | CREDIT, CREDIT | DEBIT, DEBIT => true
  | _, _ => false
  end.

Module Transaction.
(** A row of Transactions; [createdAt] is the time value of the Date,
    [host] is the property [TransactionInvoice] attaches to the
    instance (unset on a row as fetched).  The amounts are integer
    columns: the Number a row holds is that integer. *)
Record t := {
  id : Z;
  uuid : string;
  createdAt : Z;
  type : TransactionType;
  amount : Z;
  amountInHostCurrency : Z;
  netAmountInCollectiveCurrency : Z;
  hostCurrency : string;
  HostCollectiveId : Z;
  FromCollectiveId : Z;
  UsingVirtualCardFromCollectiveId : option Z;
  host : option Collective.t
}.

Definition with_host (tr : t) (h : option Collective.t) : t :=
  {| id := id tr; uuid := uuid tr; createdAt := createdAt tr; type := type tr;
     amount := amount tr; amountInHostCurrency := amountInHostCurrency tr;
     netAmountInCollectiveCurrency := netAmountInCollectiveCurrency tr;
     hostCurrency := hostCurrency tr; HostCollectiveId := HostCollectiveId tr;
     FromCollectiveId := FromCollectiveId tr;
     UsingVirtualCardFromCollectiveId := UsingVirtualCardFromCollectiveId tr;
     host := h |}.
End Transaction.

(** [req.remoteUser]: [None] for an unauthenticated request. *)
Record User := { isAdmin : Z -> bool }.

(** The [where] object handed to [models.Transaction.findAll]. *)
Record Where := {
  where_type : TransactionType;
  where_or_collective : Z;
  where_HostCollectiveId : option Z;
  where_createdAt : option (option Z * option Z)
}.

Definition option_Z_eqb (a b : option Z) : bool :=
  match a, b with
  | Some x, Some y => x =? y
  | None, None => true
  | _, _ => false
  end.

(** [{ FromCollectiveId: id, UsingVirtualCardFromCollectiveId: null }]
    or [{ UsingVirtualCardFromCollectiveId: id }] *)
Definition billed_to (id : Z) (tr : Transaction.t) : bool :=
  (Transaction.FromCollectiveId tr =? id)
    && option_Z_eqb (Transaction.UsingVirtualCardFromCollectiveId tr) None
  || option_Z_eqb (Transaction.UsingVirtualCardFromCollectiveId tr) (Some id).

(** Whether a row satisfies a [where] object.  A bound of the
    [createdAt] range that is an Invalid Date selects no row. *)
Definition where_matches (w : Where) (tr : Transaction.t) : bool :=
  TransactionType_eqb (Transaction.type tr) (where_type w)
  && billed_to (where_or_collective w) tr
  && match where_HostCollectiveId w with
     | Some h => Transaction.HostCollectiveId tr =? h
     | None => true
     end
  && match where_createdAt w with
     | Some (Some gte, Some lt) =>
         (gte <=? Transaction.createdAt tr) && (Transaction.createdAt tr <? lt)
     | Some _ => false
     | None => true
     end.

(** The store behind [models], as one request sees it: the lookups of
    collectives, the rows of Transactions, the two methods of a
    transaction that are not part of this source, and [arrival], the
    order in which the mappers of [Promise.map] are resumed once their
    lookups have answered (each of them once). *)
Record Database := {
  Collective_findOne_slug : string -> option Collective.t;
  Collective_findBySlug : string -> option Collective.t;
  Collective_findByPk : Z -> option Collective.t;
  Transactions : list Transaction.t;
  getHostCollective : Transaction.t -> option Collective.t;
  paymentMethodProviderCollectiveId : Transaction.t -> Z;
  arrival : list Transaction.t -> list Transaction.t;
  arrival_permutes : forall l, Permutation (arrival l) l
}.

(** The queries a resolver sends to the store, in order. *)
Inductive Query :=
| Q_Collective_findOne (slug : string)
| Q_Collective_findBySlug (slug : string)
| Q_Collective_findByPk (id : Z)
| Q_Transaction_findAll (w : Where)
| Q_Transaction_findOne (uuid : string)
| Q_getHostCollective (transaction : Z).

Definition is_transaction_fetch (q : Query) : bool :=
  match q with
  | Q_Transaction_findAll _ | Q_Transaction_findOne _ => true
  | _ => false
  end.

(** ** Resolver monad: exceptions over a log of the queries sent *)

Definition M (A : Type) : Type := list Query -> list Query * Outcome A.

Definition ret {A} (a : A) : M A := fun log => (log, Returned a).

Definition throw {A} (e : Error) : M A := fun log => (log, Thrown e).

Definition bind {A B} (m : M A) (k : A -> M B) : M B :=
  fun log =>
    match m log with
    | (log', Returned a) => k a log'
    | (log', Thrown e) => (log', Thrown e)
    end.

Definition lift {A} (o : Outcome A) : M A := fun log => (log, o).

(** [await] of a query whose answer is [r]. *)
Definition await {A} (q : Query) (r : A) : M A :=
  fun log => ((log ++ [q])%list, Returned r).

Declare Scope resolver_scope.
Delimit Scope resolver_scope with resolver.
Notation "x <- m ;; k" := (bind m (fun x => k))
  (at level 100, m at next level, right associativity) : resolver_scope.
Notation "m ;;; k" := (bind m (fun _ => k))
  (at level 100, right associativity) : resolver_scope.

Definition run {A} (m : M A) : list Query * Outcome A := m [].
Definition outcome {A} (m : M A) : Outcome A := snd (run m).
Definition queries_sent {A} (m : M A) : list Query := fst (run m).

(** ** Invoice shapes *)

Module DateObj.
Record t := { year : Js.Value; month : Js.Value }.
End DateObj.

(** [InvoiceInputType], and what [parseInvoiceSlug] returns. *)
Module InvoiceInput.
Record t := {
  dateFrom : DateObj.t;
  dateTo : DateObj.t;
  collectiveSlug : string;
  fromCollectiveSlug : string
}.
End InvoiceInput.

(** An entry of the list [allInvoices] returns. *)
Module MonthInvoice.
Record t := {
  HostCollectiveId : Z;
  FromCollectiveId : Z;
  slug : string;
  year : Z;
  month : Z;
  totalAmount : Js.Number;
  currency : string
}.
End MonthInvoice.

(** What [Invoice] returns. *)
Module RangeInvoice.
Record t := {
  title : string;
  HostCollectiveId : Z;
  slug : option string;
  yearFrom : Js.Value;
  monthFrom : Js.Value;
  yearTo : Js.Value;
  monthTo : Js.Value;
  FromCollectiveId : Z;
  totalAmount : Js.Number;
  currency : string;
  transactions : list Transaction.t
}.
End RangeInvoice.

(** What [TransactionInvoice] returns. *)
Module SingleInvoice.
Record t := {
  title : string;
  HostCollectiveId : option Z;
  slug : string;
  currency : string;
  FromCollectiveId : Z;
  totalAmount : Z;
  transactions : list Transaction.t;
  yearFrom : Z;
  monthFrom : Z;
  day : Z
}.
End SingleInvoice.

Record InvoiceArgs := {
  invoiceInputType : option InvoiceInput.t;
  invoiceSlug : option string
}.

(** ** The resolvers *)

Module Queries.

Local Open Scope resolver_scope.

Definition validateDate (dateObj : DateObj.t) : Outcome unit :=
  if Js.lt (DateObj.year dateObj) (Js.Num (Js.of_Z 2015))
     || (Js.lt (DateObj.month dateObj) (Js.Num (Js.of_Z 1))
         || Js.gt (DateObj.month dateObj) (Js.Num (Js.of_Z 12)))
  then Thrown (ValidationFailed
                 "validation_failed"
                 (Some ["InvoiceDateType"])
                 (Some "Invalid date object. Must have a valid month, where 1 == January, and be after 2014"))
  else Returned tt.

(** [get(host, 'settings.invoiceTitle') || 'Donation Receipt'] *)
Definition invoice_title (host : option Collective.t) : string :=
  match host with
  | Some h =>
      match Collective.settings_invoiceTitle h with
      | Some title => if Js.falsy title then "Donation Receipt" else title
      | None => "Donation Receipt"
      end
  | None => "Donation Receipt"
  end.

(** [!req.remoteUser || !req.remoteUser.isAdmin(id)] *)
Definition not_admin (remoteUser : option User) (id : Z) : bool :=
  match remoteUser with
  | None => true
  | Some u => negb (isAdmin u id)
  end.

(** [endsAt < startsAt] on two Dates: their time values are compared,
    and an Invalid Date is NaN. *)
Definition Date_lt (a b : option Z) : bool :=
  match a, b with
  | Some x, Some y => x <? y
  | _, _ => false
  end.

Definition month2digit (month : Z) : string :=
  if month <? 10 then "0" ++ Js.integer_toString month
  else Js.integer_toString month.

Section WithEngine.
Variable eng : Js.Engine.

Definition parseInvoiceSlug (invoiceSlug : string) : Outcome InvoiceInput.t :=
  let year := Js.substr invoiceSlug 0 (Some 4) in
  let month := Js.substr invoiceSlug 4 (Some 2) in
  let collectiveSlug :=
    Js.substring invoiceSlug 7 (Js.lastIndexOf invoiceSlug ".") in
  let fromCollectiveSlug :=
    Js.substr invoiceSlug (Js.lastIndexOf invoiceSlug "." + 1) None in
  if Js.falsy collectiveSlug
     || Js.lt (Js.Str year) (Js.Num (Js.of_Z 2015))
     || (Js.lt (Js.Str month) (Js.Num (Js.of_Z 1))
         || Js.gt (Js.Str month) (Js.Num (Js.of_Z 12)))
  then Thrown (ValidationFailed
                 "Invalid invoiceSlug format. Should be :year:2digitMonth.:hostSlug.:fromCollectiveSlug"
                 None None)
  else Returned
         {| InvoiceInput.dateFrom :=
              {| DateObj.year := Js.Str year; DateObj.month := Js.Str month |};
            InvoiceInput.dateTo :=
              {| DateObj.year := Js.Str year;
                 DateObj.month :=
                   Js.Str (Js.Number_toString eng
                             (Js.num_add (Js.StringToNumber month) (Js.of_Z 1))) |};
            InvoiceInput.collectiveSlug := collectiveSlug;
            InvoiceInput.fromCollectiveSlug := fromCollectiveSlug |}.

(** [args.invoiceSlug ? parseInvoiceSlug(args.invoiceSlug) : args.invoiceInputType],
    destructured: an absent [invoiceInputType] cannot be. *)
Definition invoice_input (args : InvoiceArgs) : Outcome InvoiceInput.t :=
  let given :=
    match invoiceInputType args with
    | Some input => Returned input
    | None => Thrown TypeError
    end in
  match invoiceSlug args with
  | Some s => if Js.falsy s then given else parseInvoiceSlug s
  | None => given
  end.

(** [new Date(`${year}-${month}-01`)] *)
Definition first_of_month (date : DateObj.t) : option Z :=
  Js.Date_parse eng (Js.ToString eng (DateObj.year date) ++ "-"
                       ++ Js.ToString eng (DateObj.month date) ++ "-01").

Section WithDatabase.
Variable db : Database.

Definition findAll (w : Where) : M (list Transaction.t) :=
  await (Q_Transaction_findAll w) (filter (where_matches w) (Transactions db)).

(** *** allInvoices *)

(** The slug under which a transaction is accumulated. *)
Definition month_slug (fromCollective host : Collective.t)
           (transaction : Transaction.t) : string :=
  let createdAt := Transaction.createdAt transaction in
  let year := Js.Date_getFullYear eng createdAt in
  let month := Js.Date_getMonth eng createdAt + 1 in
  Js.integer_toString year ++ month2digit month ++ "."
    ++ Collective.slug host ++ "." ++ Collective.slug fromCollective.

(** The part of the mapper that runs once its host lookup has
    answered: it reads [invoicesByKey[slug]] and writes it back in
    one step. *)
Definition accumulate (fromCollective : Collective.t)
           (invoicesByKey : list (string * MonthInvoice.t))
           (transaction : Transaction.t)
  : Outcome (list (string * MonthInvoice.t)) :=
  let HostCollectiveId := Transaction.HostCollectiveId transaction in
  match Collective_findByPk db HostCollectiveId with
  | None => Thrown TypeError
  | Some host =>
      let createdAt := Transaction.createdAt transaction in
      let year := Js.Date_getFullYear eng createdAt in
      let month := Js.Date_getMonth eng createdAt + 1 in
      let slug := month_slug fromCollective host transaction in
      let totalAmount :=
        match Js.get invoicesByKey slug with
        | Some invoice =>
            Js.add (MonthInvoice.totalAmount invoice)
                   (Js.of_Z (Transaction.amountInHostCurrency transaction))
        | None => Js.of_Z (Transaction.amountInHostCurrency transaction)
        end in
      Returned
        (Js.set invoicesByKey slug
           {| MonthInvoice.HostCollectiveId := HostCollectiveId;
              MonthInvoice.FromCollectiveId := Collective.id fromCollective;
              MonthInvoice.slug := slug;
              MonthInvoice.year := year;
              MonthInvoice.month := month;
              MonthInvoice.totalAmount := totalAmount;
              MonthInvoice.currency := Transaction.hostCurrency transaction |})
  end.

Fixpoint accumulate_all (fromCollective : Collective.t)
         (invoicesByKey : list (string * MonthInvoice.t))
         (transactions : list Transaction.t)
  : Outcome (list (string * MonthInvoice.t)) :=
  match transactions with
  | [] => Returned invoicesByKey
  | transaction :: rest =>
      match accumulate fromCollective invoicesByKey transaction with
      | Returned invoicesByKey' => accumulate_all fromCollective invoicesByKey' rest
      | Thrown e => Thrown e
      end
  end.

(** Every mapper is started in turn and sends its host lookup
    before any of them is resumed. *)
Fixpoint lookup_hosts (transactions : list Transaction.t) : M unit :=
  match transactions with
  | [] => ret tt
  | transaction :: rest =>
      _ <- await (Q_Collective_findByPk (Transaction.HostCollectiveId transaction)) tt ;;
      lookup_hosts rest
  end.

(** [(a, b) => a.slug > b.slug ? -1 : 1] *)
Definition by_slug_descending (a b : MonthInvoice.t) : Z :=
  if Js.gt (Js.Str (MonthInvoice.slug a)) (Js.Str (MonthInvoice.slug b))
  then -1 else 1.

Definition allInvoices (fromCollectiveSlug : string) (remoteUser : option User)
  : M (list MonthInvoice.t) :=
  fromCollective <- await (Q_Collective_findOne fromCollectiveSlug)
                          (Collective_findOne_slug db fromCollectiveSlug) ;;
  match fromCollective with
  | None => throw (NotFound "User or organization not found")
  | Some fromCollective =>
      if not_admin remoteUser (Collective.id fromCollective)
      then throw (Unauthorized "You don't have permission to access invoices for this user")
      else
        transactions <- findAll {| where_type := CREDIT;
                                   where_or_collective := Collective.id fromCollective;
                                   where_HostCollectiveId := None;
                                   where_createdAt := None |} ;;
        _ <- lookup_hosts transactions ;;
        invoicesByKey <- lift (accumulate_all fromCollective [] (arrival db transactions)) ;;
        let invoices := map snd invoicesByKey in
        ret (Js.sort by_slug_descending invoices)
  end.

(** *** Invoice *)

(** The [where] of the range query. *)
Definition invoice_where (fromCollective host : Collective.t)
           (startsAt endsAt : option Z) : Where :=
  {| where_type := CREDIT;
     where_or_collective := Collective.id fromCollective;
     where_HostCollectiveId := Some (Collective.id host);
     where_createdAt := Some (startsAt, endsAt) |}.

(** [transactions.reduce(...)]: the reducer adds up [total] and
    overwrites [invoice.currency] on its way; the pair is the
    total and the currency it leaves ([None] while unset). *)
Definition reduce_transactions (transactions : list Transaction.t)
  : Js.Number * option string :=
  fold_left
    (fun '(total, _) transaction =>
       (Js.add total (Js.of_Z (Transaction.amountInHostCurrency transaction)),
        Some (Transaction.hostCurrency transaction)))
    transactions (Js.of_Z 0, None).

Definition Invoice (args : InvoiceArgs) (remoteUser : option User)
  : M RangeInvoice.t :=
  input <- lift (invoice_input args) ;;
  let dateFrom := InvoiceInput.dateFrom input in
  let dateTo := InvoiceInput.dateTo input in
  let fromCollectiveSlug := InvoiceInput.fromCollectiveSlug input in
  let collectiveSlug := InvoiceInput.collectiveSlug input in
  _ <- lift (validateDate dateFrom) ;;
  _ <- lift (validateDate dateTo) ;;
  fromCollective <- await (Q_Collective_findOne fromCollectiveSlug)
                          (Collective_findOne_slug db fromCollectiveSlug) ;;
  match fromCollective with
  | None => throw (NotFound "User or organization not found for slug undefined")
  | Some fromCollective =>
      host <- await (Q_Collective_findBySlug collectiveSlug)
                    (Collective_findBySlug db collectiveSlug) ;;
      match host with
      | None => throw (NotFound "Host not found")
      | Some host =>
          if not_admin remoteUser (Collective.id fromCollective)
          then throw (Unauthorized "You don't have permission to access invoices for this user")
          else
            let fromYear := DateObj.year dateFrom in
            let fromMonth := DateObj.month dateFrom in
            let toYear := DateObj.year dateTo in
            let toMonth := DateObj.month dateTo in
            let startsAt := first_of_month dateFrom in
            let endsAt := first_of_month dateTo in
            if Date_lt endsAt startsAt
            then throw (ValidationFailed
                          "validation_failed"
                          (Some ["InvoiceDateType"])
                          (Some "Invalid date object. dateFrom must be before dateTo"))
            else
              transactions <- findAll (invoice_where fromCollective host startsAt endsAt) ;;
              if (List.length transactions =? 0)%nat
              then throw (NotFound "No transactions found")
              else
                let '(totalAmount, currency) := reduce_transactions transactions in
                ret {| RangeInvoice.title := invoice_title (Some host);
                       RangeInvoice.HostCollectiveId := Collective.id host;
                       RangeInvoice.slug := invoiceSlug args;
                       RangeInvoice.yearFrom := fromYear;
                       RangeInvoice.monthFrom := fromMonth;
                       RangeInvoice.yearTo := toYear;
                       RangeInvoice.monthTo := toMonth;
                       RangeInvoice.FromCollectiveId := Collective.id fromCollective;
                       RangeInvoice.totalAmount := totalAmount;
                       RangeInvoice.currency :=
                         match currency with
                         | Some c => if Js.falsy c then Collective.currency host else c
                         | None => Collective.currency host
                         end;
                       RangeInvoice.transactions := transactions |}
      end
  end.

(** *** TransactionInvoice *)

Definition TransactionInvoice (transactionUuid : string) : M SingleInvoice.t :=
  transaction <- await (Q_Transaction_findOne transactionUuid)
                       (find (fun tr => String.eqb (Transaction.uuid tr) transactionUuid)
                             (Transactions db)) ;;
  match transaction with
  | None => throw (NotFound ("Transaction " ++ transactionUuid ++ " doesn't exists"))
  | Some transaction =>
      let fromCollectiveId := paymentMethodProviderCollectiveId db transaction in
      host <- await (Q_getHostCollective (Transaction.id transaction))
                    (getHostCollective db transaction) ;;
      let transaction := Transaction.with_host transaction host in
      let totalAmountInHostCurrency :=
        match Transaction.type transaction with
        | CREDIT => Transaction.amount transaction
        | _ => Transaction.netAmountInCollectiveCurrency transaction * -1
        end in
      ret {| SingleInvoice.title := invoice_title (Transaction.host transaction);
             SingleInvoice.HostCollectiveId :=
               option_map Collective.id (Transaction.host transaction);
             SingleInvoice.slug := "transaction-" ++ transactionUuid;
             SingleInvoice.currency := Transaction.hostCurrency transaction;
             SingleInvoice.FromCollectiveId := fromCollectiveId;
             SingleInvoice.totalAmount := totalAmountInHostCurrency;
             SingleInvoice.transactions := [transaction];
             SingleInvoice.yearFrom :=
               Js.Date_getFullYear eng (Transaction.createdAt transaction);
             SingleInvoice.monthFrom :=
               Js.Date_getMonth eng (Transaction.createdAt transaction) + 1;
             SingleInvoice.day :=
               Js.Date_getDate eng (Transaction.createdAt transaction) |}
  end.

End WithDatabase.
End WithEngine.

End Queries.

(** ** A concrete engine and the fixture of [graphql.invoices.test.js] *)

Module Fixture.

(** Days between 1970-01-01 and a date of the proleptic Gregorian
    calendar, and back. *)
Definition days_from_civil (y m d : Z) : Z :=
  let y' := if m <=? 2 then y - 1 else y in
  let era := y' / 400 in
  let yoe := y' - era * 400 in
  let doy := (153 * (if 2 <? m then m - 3 else m + 9) + 2) / 5 + d - 1 in
  let doe := yoe * 365 + yoe / 4 - yoe / 100 + doy in
  era * 146097 + doe - 719468.

Definition civil_from_days (days : Z) : Z * Z * Z :=
  let z := days + 719468 in
  let era := z / 146097 in
  let doe := z - era * 146097 in
  let yoe := (doe - doe / 1460 + doe / 36524 - doe / 146096) / 365 in
  let doy := doe - (365 * yoe + yoe / 4 - yoe / 100) in
  let mp := (5 * doy + 2) / 153 in
  let d := doy - (153 * mp + 2) / 5 + 1 in
  let m := if mp <? 10 then mp + 3 else mp - 9 in
  ((if m <=? 2 then yoe + era * 400 + 1 else yoe + era * 400), m, d).

Definition ms_per_day : Z := 86400000.

Fixpoint split_dash (s : string) (current : string) : list string :=
  match s with
  | "" => [current]
  | String c s' =>
      if Ascii.eqb c "-" then current :: split_dash s' ""
      else split_dash s' (current ++ String c "")
  end.

Definition natural (s : string) : option Z :=
  match s with
  | "" => None
  | _ => Js.radix_digits 10 s 0
  end.

(** [year-month-day], read as midnight UTC. *)
Definition parse_date (s : string) : option Z :=
  match map natural (split_dash s "") with
  | [Some y; Some m; Some d] =>
      if (1 <=? m) && (m <=? 12) && (1 <=? d) && (d <=? 31)
      then Some (days_from_civil y m d * ms_per_day)
      else None
  | _ => None
  end.

(** An engine whose local time is UTC.  A Number that is not an
    integer is printed as a fraction. *)
Definition utc : Js.Engine :=
  {| Js.Number_toString_other :=
       fun q => Js.integer_toString (Qnum q) ++ "/" ++ Js.integer_toString (Zpos (Qden q));
     Js.Date_parse := parse_date;
     Js.Date_getFullYear := fun t => fst (fst (civil_from_days (t / ms_per_day)));
     Js.Date_getMonth := fun t => snd (fst (civil_from_days (t / ms_per_day))) - 1;
     Js.Date_getDate := fun t => snd (civil_from_days (t / ms_per_day)) |}.

Definition xdamman : Collective.t :=
  {| Collective.id := 1; Collective.slug := "xdamman";
     Collective.currency := "USD"; Collective.settings_invoiceTitle := None |}.

Definition host : Collective.t :=
  {| Collective.id := 2; Collective.slug := "brusselstogether-host";
     Collective.currency := "EUR"; Collective.settings_invoiceTitle := None |}.

Definition brusselstogether : Collective.t :=
  {| Collective.id := 3; Collective.slug := "brusselstogether";
     Collective.currency := "EUR"; Collective.settings_invoiceTitle := None |}.

Definition collectives : list Collective.t := [xdamman; host; brusselstogether].

(** The CREDIT row of a donation by [xdamman], and its DEBIT twin. *)
Definition credit (id y m d amount : Z) (uuid : string) : Transaction.t :=
  {| Transaction.id := id; Transaction.uuid := uuid;
     Transaction.createdAt := days_from_civil y m d * ms_per_day;
     Transaction.type := CREDIT;
     Transaction.amount := amount;
     Transaction.amountInHostCurrency := amount;
     Transaction.netAmountInCollectiveCurrency := amount * 85 / 100;
     Transaction.hostCurrency := "EUR";
     Transaction.HostCollectiveId := 2;
     Transaction.FromCollectiveId := 1;
     Transaction.UsingVirtualCardFromCollectiveId := None;
     Transaction.host := None |}.

Definition debit (id y m d amount : Z) (uuid : string) : Transaction.t :=
  {| Transaction.id := id; Transaction.uuid := uuid;
     Transaction.createdAt := days_from_civil y m d * ms_per_day;
     Transaction.type := DEBIT;
     Transaction.amount := - (amount * 85 / 100);
     Transaction.amountInHostCurrency := - (amount * 85 / 100);
     Transaction.netAmountInCollectiveCurrency := - amount;
     Transaction.hostCurrency := "EUR";
     Transaction.HostCollectiveId := 2;
     Transaction.FromCollectiveId := 3;
     Transaction.UsingVirtualCardFromCollectiveId := None;
     Transaction.host := None |}.

Definition rows : list Transaction.t :=
  [ credit 1 2017 9 3 1000 "c-0903";  debit 2 2017 9 3 1000 "d-0903";
    credit 3 2017 10 5 1000 "c-1005"; debit 4 2017 10 5 1000 "d-1005";
    credit 5 2017 10 25 500 "c-1025"; debit 6 2017 10 25 500 "d-1025";
    credit 7 2017 11 5 500 "c-1105";  debit 8 2017 11 5 500 "d-1105";
    credit 9 2017 11 25 500 "c-1125"; debit 10 2017 11 25 500 "d-1125" ].

Definition by_slug (s : string) : option Collective.t :=
  find (fun c => String.eqb (Collective.slug c) s) collectives.

Definition by_pk (id : Z) : option Collective.t :=
  find (fun c => Collective.id c =? id) collectives.

(** The store of the test; lookups answer in the reverse of the order
    they were sent in. *)
Definition db : Database :=
  {| Collective_findOne_slug := by_slug;
     Collective_findBySlug := by_slug;
     Collective_findByPk := by_pk;
     Transactions := rows;
     getHostCollective := fun tr => by_pk (Transaction.HostCollectiveId tr);
     paymentMethodProviderCollectiveId :=
       fun tr => match Transaction.UsingVirtualCardFromCollectiveId tr with
                 | Some id => id
                 | None => Transaction.FromCollectiveId tr
                 end;
     arrival := @rev Transaction.t;
     arrival_permutes := fun l => Permutation_sym (Permutation_rev l) |}.

Definition admin_of_xdamman : User := {| isAdmin := fun id => id =? 1 |}.
Definition stranger : User := {| isAdmin := fun _ => false |}.

(** The arguments of the range queries of the test. *)
Definition range (fromYear fromMonth toYear toMonth hostSlug : string) : InvoiceArgs :=
  {| invoiceInputType :=
       Some {| InvoiceInput.dateFrom :=
                 {| DateObj.year := Js.Str fromYear; DateObj.month := Js.Str fromMonth |};
               InvoiceInput.dateTo :=
                 {| DateObj.year := Js.Str toYear; DateObj.month := Js.Str toMonth |};
               InvoiceInput.collectiveSlug := hostSlug;
               InvoiceInput.fromCollectiveSlug := "xdamman" |};
     invoiceSlug := None |}.

Definition by_invoice_slug (s : string) : InvoiceArgs :=
  {| invoiceInputType := None; invoiceSlug := Some s |}.

Definition input_of (args : InvoiceArgs) : InvoiceInput.t :=
  match Queries.invoice_input utc args with
  | Returned input => input
  | Thrown _ =>
      {| InvoiceInput.dateFrom := {| DateObj.year := Js.Undefined; DateObj.month := Js.Undefined |};
         InvoiceInput.dateTo := {| DateObj.year := Js.Undefined; DateObj.month := Js.Undefined |};
         InvoiceInput.collectiveSlug := "";
         InvoiceInput.fromCollectiveSlug := "" |}
  end.

(** A store whose only row carries no host currency. *)
Definition without_currency : Database :=
  {| Collective_findOne_slug := by_slug;
     Collective_findBySlug := by_slug;
     Collective_findByPk := by_pk;
     Transactions :=
       [ {| Transaction.id := 21; Transaction.uuid := "c-1007";
            Transaction.createdAt := days_from_civil 2017 10 7 * ms_per_day;
            Transaction.type := CREDIT;
            Transaction.amount := 700;
            Transaction.amountInHostCurrency := 700;
            Transaction.netAmountInCollectiveCurrency := 595;
            Transaction.hostCurrency := "";
            Transaction.HostCollectiveId := 2;
            Transaction.FromCollectiveId := 1;
            Transaction.UsingVirtualCardFromCollectiveId := None;
            Transaction.host := None |} ];
     getHostCollective := fun tr => by_pk (Transaction.HostCollectiveId tr);
     paymentMethodProviderCollectiveId := Transaction.FromCollectiveId;
     arrival := fun l => l;
     arrival_permutes := @Permutation_refl Transaction.t |}.

(** A transaction whose host is not in the store, and a store that
    holds it. *)
Definition orphan : Transaction.t :=
  {| Transaction.id := 41; Transaction.uuid := "c-0101";
     Transaction.createdAt := days_from_civil 2018 1 1 * ms_per_day;
     Transaction.type := CREDIT;
     Transaction.amount := 300;
     Transaction.amountInHostCurrency := 300;
     Transaction.netAmountInCollectiveCurrency := 255;
     Transaction.hostCurrency := "EUR";
     Transaction.HostCollectiveId := 99;
     Transaction.FromCollectiveId := 1;
     Transaction.UsingVirtualCardFromCollectiveId := None;
     Transaction.host := None |}.

Definition orphaned : Database :=
  {| Collective_findOne_slug := by_slug;
     Collective_findBySlug := by_slug;
     Collective_findByPk := by_pk;
     Transactions := [credit 1 2017 9 3 1000 "c-0903"; orphan];
     getHostCollective := fun tr => by_pk (Transaction.HostCollectiveId tr);
     paymentMethodProviderCollectiveId := Transaction.FromCollectiveId;
     arrival := fun l => l;
     arrival_permutes := @Permutation_refl Transaction.t |}.

(** A store with two donations of one month to one host whose amounts
    do not add up to a safe integer. *)
Definition large : Database :=
  {| Collective_findOne_slug := by_slug;
     Collective_findBySlug := by_slug;
     Collective_findByPk := by_pk;
     Transactions := [credit 51 2017 10 5 (2 ^ 53) "c-1005"; credit 52 2017 10 6 1 "c-1006"];
     getHostCollective := fun tr => by_pk (Transaction.HostCollectiveId tr);
     paymentMethodProviderCollectiveId := Transaction.FromCollectiveId;
     arrival := fun l => l;
     arrival_permutes := @Permutation_refl Transaction.t |}.

(** A second host under the slug of the first, and a store with a
    donation to each of them in one month. *)
Definition namesake : Collective.t :=
  {| Collective.id := 4; Collective.slug := "brusselstogether-host";
     Collective.currency := "EUR"; Collective.settings_invoiceTitle := None |}.

Definition to_namesake : Transaction.t :=
  {| Transaction.id := 61; Transaction.uuid := "c-0910";
     Transaction.createdAt := days_from_civil 2017 9 10 * ms_per_day;
     Transaction.type := CREDIT;
     Transaction.amount := 200;
     Transaction.amountInHostCurrency := 200;
     Transaction.netAmountInCollectiveCurrency := 170;
     Transaction.hostCurrency := "EUR";
     Transaction.HostCollectiveId := 4;
     Transaction.FromCollectiveId := 1;
     Transaction.UsingVirtualCardFromCollectiveId := None;
     Transaction.host := None |}.

Definition namesakes : Database :=
  {| Collective_findOne_slug := by_slug;
     Collective_findBySlug := by_slug;
     Collective_findByPk := fun id => if id =? 4 then Some namesake else by_pk id;
     Transactions := [credit 1 2017 9 3 1000 "c-0903"; to_namesake];
     getHostCollective := fun tr => by_pk (Transaction.HostCollectiveId tr);
     paymentMethodProviderCollectiveId := Transaction.FromCollectiveId;
     arrival := fun l => l;
     arrival_permutes := @Permutation_refl Transaction.t |}.

(** A store with one expense paid out: a DEBIT of 800. *)
Definition with_expense : Database :=
  {| Collective_findOne_slug := by_slug;
     Collective_findBySlug := by_slug;
     Collective_findByPk := by_pk;
     Transactions := rows ++ [debit 31 2017 12 1 800 "d-1201"];
     getHostCollective := fun tr => by_pk (Transaction.HostCollectiveId tr);
     paymentMethodProviderCollectiveId := Transaction.FromCollectiveId;
     arrival := fun l => l;
     arrival_permutes := @Permutation_refl Transaction.t |}.

End Fixture.

(** ** More of the file: the search resolver, the list of updates and
    the pagination middleware *)

(** *** The primitives they add *)

Module JsOps.

(** ToBoolean: [undefined], [null], [NaN], zero and the empty string
    are falsy. *)
Definition ToBoolean (v : Js.Value) : bool :=
  match v with
  | Js.Undefined | Js.Null => false
  | Js.Num Js.NaN => false
  | Js.Num (Js.Finite q) => negb (Qeq_bool q 0)
  | Js.Num _ => true
  | Js.Str s => negb (Js.falsy s)
  end.

(** [a || b] *)
Definition or (a b : Js.Value) : Js.Value := if ToBoolean a then a else b.

Definition is_zero (n : Js.Number) : bool :=
  match n with
  | Js.Finite q => Qeq_bool q 0
  | _ => false
  end.

Definition is_negative (n : Js.Number) : bool := Js.num_lt n (Js.of_Z 0).

(** [a * b] on Numbers (the sign of a zero is not kept). *)
Definition num_mul (a b : Js.Number) : Js.Number :=
  match a, b with
  | Js.NaN, _ | _, Js.NaN => Js.NaN
  | Js.Finite p, Js.Finite q => Js.Finite (Qred (p * q))
  | _, _ =>
      if is_zero a || is_zero b then Js.NaN
      else if Bool.eqb (is_negative a) (is_negative b) then Js.PosInfinity
           else Js.NegInfinity
  end.

(** [s.trim()] *)
Definition trim (s : string) : string := Js.trim_end (Js.trim_start s).

End JsOps.

(** *** search *)

Module Search.

(** What [index.search] answers: the ids of the hits, in its order, and
    the number of hits it knows of. *)
Record Hits := { hits : list Z; nbHits : Z }.

(** [index.search({ query, length, offset })] *)
Definition Index := string -> Z -> Z -> Hits.

(** The search index of [lib/algolia], when one is configured, and the
    rows of Collectives. *)
Record World := {
  getIndex : option Index;
  Collectives : list Collective.t
}.

Record Args := { term : option string; limit : Z; offset : Z }.

Record Results := {
  collectives : list Collective.t;
  results_limit : Z;
  results_offset : Z;
  total : Z
}.

Inductive Call :=
| Index_search (query : string) (length offset : Z)
| Collective_findAll (ids : list Z).

(** [models.Collective.findAll({ where: { id: { [Op.in]: ids } } })] *)
Definition findAll_in (w : World) (ids : list Z) : list Collective.t :=
  filter (fun c => existsb (Z.eqb (Collective.id c)) ids) (Collectives w).

(** [find(collectives, { id })] *)
Definition find_id (collectives : list Collective.t) (id : Z) : option Collective.t :=
  find (fun c => Collective.id c =? id) collectives.

(** [ids.map(id => find(collectives, { id })).filter(Boolean)] *)
Definition in_order_of (collectiveIds : list Z) (collectives : list Collective.t)
  : list Collective.t :=
  flat_map (fun id => match find_id collectives id with
                      | Some c => [c]
                      | None => []
                      end) collectiveIds.

Definition nothing (args : Args) : Results :=
  {| collectives := []; results_limit := limit args;
     results_offset := offset args; total := 0 |}.

Definition search (w : World) (args : Args) : list Call * Outcome Results :=
  match term args with
  | None => ([], Thrown TypeError)
  | Some term =>
      if String.eqb (JsOps.trim term) "" then ([], Returned (nothing args))
      else
        match getIndex w with
        | None => ([], Returned (nothing args))
        | Some index =>
            let found := index term (limit args) (offset args) in
            let collectiveIds := hits found in
            let collectives := findAll_in w collectiveIds in
            ([Index_search term (limit args) (offset args);
              Collective_findAll collectiveIds],
             Returned {| collectives := in_order_of collectiveIds collectives;
                         results_limit := limit args;
                         results_offset := offset args;
                         total := nbHits found |})
        end
  end.

End Search.

(** *** allUpdates *)

Module Update.
Record t := {
  id : Z;
  CollectiveId : Z;
  publishedAt : option Z;
  createdAt : Z
}.
End Update.

Module Member.
Record t := {
  CollectiveId : Z;
  MemberCollectiveId : Z;
  role : string
}.
End Member.

Module Updates.

(** What a resolver of this group fails with: [new Error(msg)], or the
    error of the database on a negative LIMIT or OFFSET. *)
Inductive Failure :=
| JsError (msg : string)
| DatabaseError.

Inductive Result (A : Type) :=
| Resolved (a : A)
| Rejected (e : Failure).
Arguments Resolved {A} a.
Arguments Rejected {A} e.

(** The rows of Updates and Members, the loader of collectives by id,
    and the order the database puts rows in for
    [ORDER BY publishedAt DESC, createdAt DESC] (where it places rows
    without a date, and rows of equal dates, is its own). *)
Record Store := {
  Updates : list Update.t;
  Members : list Member.t;
  load : Z -> option Collective.t;
  ordered : list Update.t -> list Update.t;
  ordered_permutes : forall l, Permutation (ordered l) l
}.

Record Args := {
  CollectiveId : Z;
  includeHostedCollectives : option bool;
  limit : option Z;
  offset : option Z
}.

(** The [query] handed to [models.Update.findAll]. *)
Record Query := {
  where_publishedAt_ne_null : bool;
  where_CollectiveId_in : list Z;
  query_limit : option Z;
  query_offset : option Z
}.

(** [if (args.limit) query.limit = args.limit]: zero is left out like
    an absent one. *)
Definition when_truthy (n : option Z) : option Z :=
  match n with
  | Some z => if z =? 0 then None else Some z
  | None => None
  end.

Definition matches (q : Query) (u : Update.t) : bool :=
  (if where_publishedAt_ne_null q
   then match Update.publishedAt u with Some _ => true | None => false end
   else true)
  && existsb (Z.eqb (Update.CollectiveId u)) (where_CollectiveId_in q).

(** [OFFSET] then [LIMIT] over the ordered rows. *)
Definition page_of {A} (limit offset : option Z) (rows : list A) : Result (list A) :=
  match offset, limit with
  | Some o, _ => if o <? 0 then Rejected DatabaseError
                 else match limit with
                      | Some l => if l <? 0 then Rejected DatabaseError
                                  else Resolved (firstn (Z.to_nat l) (skipn (Z.to_nat o) rows))
                      | None => Resolved (skipn (Z.to_nat o) rows)
                      end
  | None, Some l => if l <? 0 then Rejected DatabaseError
                    else Resolved (firstn (Z.to_nat l) rows)
  | None, None => Resolved rows
  end.

Definition findAll (s : Store) (q : Query) : Result (list Update.t) :=
  page_of (query_limit q) (query_offset q) (ordered s (filter (matches q) (Updates s))).

(** [models.Member.findAll({ where: { MemberCollectiveId, role: 'HOST' } })
      .map(member => member.CollectiveId)] *)
Definition hosted_by (s : Store) (id : Z) : list Z :=
  map Member.CollectiveId
      (filter (fun m => (Member.MemberCollectiveId m =? id)
                        && String.eqb (Member.role m) "HOST")
              (Members s)).

Definition truthy (b : option bool) : bool :=
  match b with Some true => true | _ => false end.

Definition allUpdates (s : Store) (args : Args) (remoteUser : option User)
  : Result (list Update.t) :=
  let published_only := Queries.not_admin remoteUser (CollectiveId args) in
  match load s (CollectiveId args) with
  | None => Rejected (JsError "Collective not found")
  | Some collective =>
      let collectiveIds :=
        if truthy (includeHostedCollectives args)
        then hosted_by s (Collective.id collective)
        else [CollectiveId args] in
      findAll s {| where_publishedAt_ne_null := published_only;
                   where_CollectiveId_in := collectiveIds;
                   query_limit := when_truthy (limit args);
                   query_offset := when_truthy (offset args) |}
  end.

End Updates.

(** *** paginate *)

Module Paginate.

(** The options of [paginate]; [maxTotal] is set and never read, and is
    left out.  A field that is not given is [undefined]. *)
Record Options := {
  default : Js.Value;
  min : Js.Value;
  max : Js.Value
}.

(** What the middleware reads of [req.body] and of [req.query]. *)
Record Params := {
  since_id : Js.Value;
  per_page : Js.Value;
  page : Js.Value
}.

(** [req.pagination]: [{ where: { id: { [Op.gt]: sinceId } } }], or
    what [paginateOffset] of [lib/utils] makes of page and perPage. *)
Inductive Pagination (A : Type) :=
| Since (sinceId : Js.Value)
| Offset (a : A).
Arguments Since {A} sinceId.
Arguments Offset {A} a.

(** [options = options || {}], then the defaults. *)
Definition normalize (options : option Options) : Options :=
  let options :=
    match options with
    | Some o => o
    | None => {| default := Js.Undefined; min := Js.Undefined; max := Js.Undefined |}
    end in
  {| default := JsOps.or (default options) (Js.Num (Js.of_Z 100));
     min := JsOps.or (min options) (Js.Num (Js.of_Z 1));
     max := JsOps.or (max options) (Js.Num (Js.of_Z 100)) |}.

(** [v * 1] *)
Definition times_one (v : Js.Value) : Js.Value :=
  Js.Num (JsOps.num_mul (Js.ToNumber v) (Js.of_Z 1)).

Definition perPage_of (options : Options) (body query : Params) : Js.Value :=
  let perPage := JsOps.or (per_page body) (per_page query) in
  let perPage := JsOps.or (times_one perPage) (default options) in
  let perPage := if Js.lt perPage (min options) then min options else perPage in
  if Js.gt perPage (max options) then max options else perPage.

Definition page_of (body query : Params) : Js.Value :=
  let page := JsOps.or (times_one (JsOps.or (page body) (page query)))
                       (Js.Num (Js.of_Z 1)) in
  if Js.lt page (Js.Num (Js.of_Z 1)) then Js.Num (Js.of_Z 1) else page.

Definition paginate {A} (paginateOffset : Js.Value -> Js.Value -> A)
           (options : option Options) (body query : Params) : Pagination A :=
  let options := normalize options in
  let sinceId := JsOps.or (since_id body) (since_id query) in
  if JsOps.ToBoolean sinceId then Since sinceId
  else Offset (paginateOffset (page_of body query) (perPage_of options body query)).

End Paginate.

(** *** Inputs to try them on *)

Module Sample.

(** An index that knows of three hits, one of them gone from the
    store. *)
Definition world : Search.World :=
  {| Search.getIndex := Some (fun _ _ _ => {| Search.hits := [3; 7; 1]; Search.nbHits := 3 |});
     Search.Collectives := Fixture.collectives |}.

Definition searching (term : string) : Search.Args :=
  {| Search.term := Some term; Search.limit := 20; Search.offset := 0 |}.

Definition update (id CollectiveId : Z) (publishedAt : option Z) : Update.t :=
  {| Update.id := id; Update.CollectiveId := CollectiveId;
     Update.publishedAt := publishedAt; Update.createdAt := id |}.

(** Collective 2 hosts collective 3, which has a draft and two
    published updates; the host has one update of its own. *)
Definition store : Updates.Store :=
  {| Updates.Updates := [update 1 3 (Some 10); update 2 3 None;
                         update 3 3 (Some 30); update 4 2 (Some 40)];
     Updates.Members := [{| Member.CollectiveId := 3; Member.MemberCollectiveId := 2;
                            Member.role := "HOST" |};
                         {| Member.CollectiveId := 3; Member.MemberCollectiveId := 1;
                            Member.role := "BACKER" |}];
     Updates.load := Fixture.by_pk;
     Updates.ordered := @rev Update.t;
     Updates.ordered_permutes := fun l => Permutation_sym (Permutation_rev l) |}.

Definition updates_of (id : Z) (hosted : bool) (limit : option Z) : Updates.Args :=
  {| Updates.CollectiveId := id;
     Updates.includeHostedCollectives := Some hosted;
     Updates.limit := limit;
     Updates.offset := None |}.

Definition asking (per_page page : Js.Value) : Paginate.Params :=
  {| Paginate.since_id := Js.Undefined;
     Paginate.per_page := per_page;
     Paginate.page := page |}.

Definition nothing_asked : Paginate.Params := asking Js.Undefined Js.Undefined.

End Sample.

(** ** Vocabulary of the properties *)

(** The text of an invoice slug, [`${year}${month}.${host}.${from}`]. *)
Definition make_slug (yyyy mm host from : string) : string :=
  yyyy ++ mm ++ "." ++ host ++ "." ++ from.

(** [P] holds of the [n] integers from [lo] on. *)
Fixpoint all_from (P : Z -> bool) (lo : Z) (n : nat) : bool :=
  match n with
  | O => true
  | S n' => P lo && all_from P (lo + 1) n'
  end.

Definition four_digit_year (y : Z) : bool :=
  (String.length (Js.integer_toString y) =? 4)%nat
  && negb (Js.lt (Js.Str (Js.integer_toString y)) (Js.Num (Js.of_Z 2015))).

(** The errors the resolvers throw. *)
Definition invalid_date : Error :=
  ValidationFailed
    "validation_failed" (Some ["InvoiceDateType"])
    (Some "Invalid date object. Must have a valid month, where 1 == January, and be after 2014").

Definition dates_out_of_order : Error :=
  ValidationFailed
    "validation_failed" (Some ["InvoiceDateType"])
    (Some "Invalid date object. dateFrom must be before dateTo").

Definition no_permission : Error :=
  Unauthorized "You don't have permission to access invoices for this user".

(** The message an error carries; the text [lib/errors] supplies when
    [ValidationFailed] is given none is not part of this source. *)
Definition message (e : Error) : option string :=
  match e with
  | NotFound msg | Unauthorized msg => Some msg
  | ValidationFailed _ _ msg => msg
  | TypeError => None
  end.

Definition date_of (year month : Z) : DateObj.t :=
  {| DateObj.year := Js.Num (Js.of_Z year); DateObj.month := Js.Num (Js.of_Z month) |}.

(** What parsing the slug of year [y], month [m], [host] and [from]
    gives when it gives back what the slug was made of. *)
Definition round_trip (eng : Js.Engine) (y m : Z) (host from : string) : Prop :=
  Queries.parseInvoiceSlug eng
    (make_slug (Js.integer_toString y) (Queries.month2digit m) host from)
  = Returned
      {| InvoiceInput.dateFrom :=
           {| DateObj.year := Js.Str (Js.integer_toString y);
              DateObj.month := Js.Str (Queries.month2digit m) |};
         InvoiceInput.dateTo :=
           {| DateObj.year := Js.Str (Js.integer_toString y);
              DateObj.month := Js.Str (Js.integer_toString (m + 1)) |};
         InvoiceInput.collectiveSlug := host;
         InvoiceInput.fromCollectiveSlug := from |}.

(** The sum of [amountInHostCurrency] over a list of transactions. *)
Definition sum_amountInHostCurrency (transactions : list Transaction.t) : Z :=
  fold_right (fun tr acc => Transaction.amountInHostCurrency tr + acc) 0 transactions.

(** What [total] becomes once the amounts of [transactions] have been
    added to it one after the other, each addition rounding as the
    code's does. *)
Definition added_up (total : Js.Number) (transactions : list Transaction.t) : Js.Number :=
  fold_left (fun total tr => Js.add total (Js.of_Z (Transaction.amountInHostCurrency tr)))
            transactions total.

(** The [totalAmount] of a monthly invoice once [transactions] have
    been filed under it, in this order: the first amount as it is, the
    others added to it. *)
Definition filed (transactions : list Transaction.t) : option Js.Number :=
  match transactions with
  | [] => None
  | tr :: rest => Some (added_up (Js.of_Z (Transaction.amountInHostCurrency tr)) rest)
  end.

(** [Number.MAX_SAFE_INTEGER] *)
Definition MAX_SAFE_INTEGER : Z := 2 ^ 53 - 1.

(** The amounts of a list of transactions are safe to add up in any
    order: their absolute values add up to a safe integer. *)
Definition magnitude (transactions : list Transaction.t) : Z :=
  fold_right (fun tr acc => Z.abs (Transaction.amountInHostCurrency tr) + acc)
             0 transactions.

Definition safe_amounts (transactions : list Transaction.t) : Prop :=
  magnitude transactions <= MAX_SAFE_INTEGER.

(** The [Invoice] query reaches its authorization check: its input is
    there, both dates pass [validateDate], and the payer and the host
    are found. *)
Definition reaches_authorization (eng : Js.Engine) (db : Database) (args : InvoiceArgs)
           (input : InvoiceInput.t) (fromCollective host : Collective.t) : Prop :=
  Queries.invoice_input eng args = Returned input
  /\ Queries.validateDate (InvoiceInput.dateFrom input) = Returned tt
  /\ Queries.validateDate (InvoiceInput.dateTo input) = Returned tt
  /\ Collective_findOne_slug db (InvoiceInput.fromCollectiveSlug input) = Some fromCollective
  /\ Collective_findBySlug db (InvoiceInput.collectiveSlug input) = Some host.

(** The two lookups [Invoice] has sent by then. *)
Definition invoice_lookups (input : InvoiceInput.t) : list Query :=
  [Q_Collective_findOne (InvoiceInput.fromCollectiveSlug input);
   Q_Collective_findBySlug (InvoiceInput.collectiveSlug input)].

(** The transactions the range query of [Invoice] fetches. *)
Definition invoice_transactions (eng : Js.Engine) (db : Database)
           (input : InvoiceInput.t) (fromCollective host : Collective.t)
  : list Transaction.t :=
  filter (where_matches
            (Queries.invoice_where fromCollective host
               (Queries.first_of_month eng (InvoiceInput.dateFrom input))
               (Queries.first_of_month eng (InvoiceInput.dateTo input))))
         (Transactions db).

Definition is_ValidationFailed (e : Error) : bool :=
  match e with ValidationFailed _ _ _ => true | _ => false end.

Definition is_Unauthorized (e : Error) : bool :=
  match e with Unauthorized _ => true | _ => false end.

(** The message of [e] contains [text]. *)
Definition mentions (e : Error) (text : string) : bool :=
  match message e with
  | Some msg => Js.includes msg text
  | None => false
  end.

(** No query of a log fetches transactions. *)
Definition fetches_no_transaction (log : list Query) : bool :=
  forallb (fun q => negb (is_transaction_fetch q)) log.

(** *** Monthly invoices *)

(** The transactions [allInvoices] fetches for a payer: the CREDIT rows
    billed to it. *)
Definition payer_transactions (db : Database) (fromCollective : Collective.t)
  : list Transaction.t :=
  filter (where_matches {| where_type := CREDIT;
                           where_or_collective := Collective.id fromCollective;
                           where_HostCollectiveId := None;
                           where_createdAt := None |})
         (Transactions db).

(** Year, month (1 for January) and host of a transaction, and of an
    invoice. *)
Definition group_of (eng : Js.Engine) (tr : Transaction.t) : Z * Z * Z :=
  (Js.Date_getFullYear eng (Transaction.createdAt tr),
   Js.Date_getMonth eng (Transaction.createdAt tr) + 1,
   Transaction.HostCollectiveId tr).

Definition invoice_group (invoice : MonthInvoice.t) : Z * Z * Z :=
  (MonthInvoice.year invoice, MonthInvoice.month invoice,
   MonthInvoice.HostCollectiveId invoice).

Definition group_eqb (g g' : Z * Z * Z) : bool :=
  let '(y, m, h) := g in
  let '(y', m', h') := g' in
  (y =? y') && (m =? m') && (h =? h').

(** The transactions of a list that fall in a group. *)
Definition in_group (eng : Js.Engine) (g : Z * Z * Z) (transactions : list Transaction.t)
  : list Transaction.t :=
  filter (fun tr => group_eqb (group_of eng tr) g) transactions.

(** The key under which [allInvoices] files a transaction. *)
Definition key_of (eng : Js.Engine) (db : Database) (fromCollective : Collective.t)
           (tr : Transaction.t) : string :=
  match Collective_findByPk db (Transaction.HostCollectiveId tr) with
  | Some host => Queries.month_slug eng fromCollective host tr
  | None => ""
  end.

(** What [invoicesByKey] holds once the transactions [seen] have been
    accumulated. *)
Definition accumulated (eng : Js.Engine) (db : Database) (fromCollective : Collective.t)
           (seen : list Transaction.t) (invoicesByKey : list (string * MonthInvoice.t))
  : Prop :=
  NoDup (Js.keys invoicesByKey)
  /\ (forall k invoice,
         In (k, invoice) invoicesByKey ->
         MonthInvoice.slug invoice = k
         /\ MonthInvoice.FromCollectiveId invoice = Collective.id fromCollective
         /\ Some (MonthInvoice.totalAmount invoice)
            = filed (filter (fun tr => String.eqb (key_of eng db fromCollective tr) k) seen)
         /\ exists tr, In tr seen /\ key_of eng db fromCollective tr = k
                       /\ invoice_group invoice = group_of eng tr)
  /\ (forall tr, In tr seen -> In (key_of eng db fromCollective tr) (Js.keys invoicesByKey))
  /\ (forall tr, In tr seen ->
                 Collective_findByPk db (Transaction.HostCollectiveId tr) <> None).

(** The store is consistent on a list of transactions: every host id
    names a collective, and two hosts with one slug are one host. *)
Definition hosts_resolve (db : Database) (transactions : list Transaction.t) : Prop :=
  forall tr, In tr transactions ->
             Collective_findByPk db (Transaction.HostCollectiveId tr) <> None.

Definition slugs_identify_hosts (db : Database) (transactions : list Transaction.t) : Prop :=
  forall tr tr' host host',
    In tr transactions -> In tr' transactions ->
    Collective_findByPk db (Transaction.HostCollectiveId tr) = Some host ->
    Collective_findByPk db (Transaction.HostCollectiveId tr') = Some host' ->
    Collective.slug host = Collective.slug host' ->
    Transaction.HostCollectiveId tr = Transaction.HostCollectiveId tr'.

(** [getMonth] answers 0..11 on the dates of a list of transactions. *)
Definition months_in_calendar (eng : Js.Engine) (transactions : list Transaction.t) : Prop :=
  forall tr, In tr transactions ->
             0 <= Js.Date_getMonth eng (Transaction.createdAt tr) <= 11.

(** *** Months in order *)

(** Months counted from year 0: [12 * year + month - 1]. *)
Definition month_index (year month : Z) : Z := 12 * year + month - 1.

(** The text of year [y] has four characters and comes before the text
    of the year after it (up to 9999). *)
Definition year_text_step (y : Z) : bool :=
  (String.length (Js.integer_toString y) =? 4)%nat
  && ((y =? 9999) || String.ltb (Js.integer_toString y) (Js.integer_toString (y + 1))).

(** [a] is an invoice of a later month than [b], when both are of one
    host, of years of four digits and of months 1..12. *)
Definition later_month_of_host (a b : MonthInvoice.t) : Prop :=
  MonthInvoice.HostCollectiveId a = MonthInvoice.HostCollectiveId b ->
  1000 <= MonthInvoice.year a <= 9999 -> 1 <= MonthInvoice.month a <= 12 ->
  1000 <= MonthInvoice.year b <= 9999 -> 1 <= MonthInvoice.month b <= 12 ->
  month_index (MonthInvoice.year b) (MonthInvoice.month b)
  < month_index (MonthInvoice.year a) (MonthInvoice.month a).

Definition slug_ge (a b : MonthInvoice.t) : Prop :=
  Js.ge (Js.Str (MonthInvoice.slug a)) (Js.Str (MonthInvoice.slug b)) = true.

Definition slug_gt (a b : MonthInvoice.t) : Prop :=
  Js.gt (Js.Str (MonthInvoice.slug a)) (Js.Str (MonthInvoice.slug b)) = true.

(** *** Month texts of a slug *)

(** Every code unit, and every text of at most two of them: what
    [substr(4, 2)] can return. *)
Definition all_ascii : list ascii := map ascii_of_nat (seq 0 256).

Definition short_texts : list string :=
  "" :: map (fun c => String c "") all_ascii
     ++ flat_map (fun c => map (fun d => String c (String d "")) all_ascii) all_ascii.

(** The text of a Number when it does not depend on the engine. *)
Definition Number_toString_integer (n : Js.Number) : option string :=
  match n with
  | Js.NaN => Some "NaN"
  | Js.PosInfinity => Some "Infinity"
  | Js.NegInfinity => Some "-Infinity"
  | Js.Finite q =>
      let r := Qred q in
      if (Pos.eqb (Qden r) 1 && (Z.abs (Qnum r) <? 10 ^ 21))%bool
      then Some (Js.integer_toString (Qnum r))
      else None
  end.

(** [month < 1 || month > 12], the test both [parseInvoiceSlug] and
    [validateDate] apply to a month. *)
Definition month_out_of_bounds (month : Js.Value) : bool :=
  Js.lt month (Js.Num (Js.of_Z 1)) || Js.gt month (Js.Num (Js.of_Z 12)).

(** For a month text the parser lets through: the month after it has a
    text of its own, which is out of bounds exactly for ["12"]. *)
Definition month_after_verdict (mm : string) : bool :=
  if month_out_of_bounds (Js.Str mm) then true
  else match Number_toString_integer
               (Js.num_add (Js.StringToNumber mm) (Js.of_Z 1)) with
       | Some next => Bool.eqb (month_out_of_bounds (Js.Str next)) (String.eqb mm "12")
       | None => false
       end.

(** The error [parseInvoiceSlug] throws. *)
Definition invalid_slug : Error :=
  ValidationFailed
    "Invalid invoiceSlug format. Should be :year:2digitMonth.:hostSlug.:fromCollectiveSlug"
    None None.

(** The [where] of [allInvoices]. *)
Definition payer_where (fromCollective : Collective.t) : Where :=
  {| where_type := CREDIT;
     where_or_collective := Collective.id fromCollective;
     where_HostCollectiveId := None;
     where_createdAt := None |}.

(** An invoice of [allInvoices] is made of a transaction of [seen]:
    it bills the payer, carries the year, month, host and currency of
    the transaction and the slug made of them. *)
Definition made_of (eng : Js.Engine) (db : Database) (fromCollective : Collective.t)
           (seen : list Transaction.t) (invoice : MonthInvoice.t) : Prop :=
  exists tr host,
    In tr seen
    /\ Collective_findByPk db (Transaction.HostCollectiveId tr) = Some host
    /\ MonthInvoice.FromCollectiveId invoice = Collective.id fromCollective
    /\ invoice_group invoice = group_of eng tr
    /\ MonthInvoice.currency invoice = Transaction.hostCurrency tr
    /\ MonthInvoice.slug invoice = Queries.month_slug eng fromCollective host tr.

(** *** Search, updates and pagination *)

Fixpoint all_white_space (s : string) : bool :=
  match s with
  | "" => true
  | String c s' => Js.is_white_space c && all_white_space s'
  end.

(** The store has a collective of this id. *)
Definition known (w : Search.World) (id : Z) : bool :=
  existsb (fun c => Collective.id c =? id) (Search.Collectives w).

(** The collectives whose updates [allUpdates] is asked for. *)
Definition update_scope (s : Updates.Store) (args : Updates.Args)
           (collective : Collective.t) : list Z :=
  if Updates.truthy (Updates.includeHostedCollectives args)
  then Updates.hosted_by s (Collective.id collective)
  else [Updates.CollectiveId args].

(** The updates of the store that [allUpdates] may show a caller: of
    the collectives in scope, and published unless the caller is an
    admin of the collective asked for. *)
Definition visible_updates (s : Updates.Store) (args : Updates.Args)
           (remoteUser : option User) (collective : Collective.t) : list Update.t :=
  filter (fun u =>
            (if Queries.not_admin remoteUser (Updates.CollectiveId args)
             then match Update.publishedAt u with Some _ => true | None => false end
             else true)
            && existsb (Z.eqb (Update.CollectiveId u)) (update_scope s args collective))
         (Updates.Updates s).

(** An option of [paginate] given as an integer, and what it is once
    the defaults are in: zero counts as not given. *)
Definition integer_options (default min max : Z) : option Paginate.Options :=
  Some {| Paginate.default := Js.Num (Js.of_Z default);
          Paginate.min := Js.Num (Js.of_Z min);
          Paginate.max := Js.Num (Js.of_Z max) |}.

Definition or_else (z fallback : Z) : Z := if z =? 0 then fallback else z.

(** * Properties *)

(** ** The primitives on a few inputs *)

Example substr_year : Js.substr "201710.host.from" 0 (Some 4) = "2017".
Proof. reflexivity. Qed.

Example substring_swaps : Js.substring "201710.host" 7 6 = ".".
Proof. reflexivity. Qed.

Example number_of_padded : Js.StringToNumber "09" = Js.of_Z 9.
Proof. reflexivity. Qed.

Example number_of_word : Js.StringToNumber "abcd" = Js.NaN.
Proof. reflexivity. Qed.

Example number_of_exp : Js.StringToNumber "3e3 " = Js.of_Z 3000.
Proof. reflexivity. Qed.

Example number_of_hex : Js.StringToNumber "0x1f" = Js.of_Z 31.
Proof. reflexivity. Qed.

(** ** Additions of amounts *)

Example add_small : Js.add (Js.of_Z 1000) (Js.of_Z 500) = Js.of_Z 1500.
Proof. reflexivity. Qed.

Example add_rounds : Js.add (Js.of_Z (2 ^ 53)) (Js.of_Z 1) = Js.of_Z (2 ^ 53).
Proof. vm_compute. reflexivity. Qed.

Example add_ties_to_even :
  Js.add (Js.of_Z (2 ^ 53)) (Js.of_Z 3) = Js.of_Z (2 ^ 53 + 4).
Proof. vm_compute. reflexivity. Qed.

Example add_overflows :
  Js.add (Js.of_Z (2 ^ 1023)) (Js.of_Z (2 ^ 1023)) = Js.PosInfinity.
Proof. vm_compute. reflexivity. Qed.

Example round_largest :
  Js.round_binary64 (inject_Z (2 ^ 1024 - 2 ^ 970 - 1))
  = Js.of_Z (2 ^ 1024 - 2 ^ 971).
Proof. vm_compute. reflexivity. Qed.

Example round_tenth :
  Js.round_binary64 (1 # 10) = Js.Finite (3602879701896397 # 36028797018963968).
Proof. vm_compute. reflexivity. Qed.

Section AdditionFacts.

Lemma Qred_integer (z : Z) : Qred (z # 1) = z # 1.
Proof.
  unfold Qred.
  generalize (Z.ggcd_gcd z 1) (Z.ggcd_correct_divisors z 1).
  destruct (Z.ggcd z 1) as (g, (aa, bb)). simpl.
  intros Hg [Ha Hb]. rewrite Z.gcd_1_r in Hg. subst g.
  rewrite Z.mul_1_l in Ha, Hb. now subst.
Qed.

Lemma round_half_even_1 (x : Z) : Js.round_half_even x 1 = x.
Proof.
  unfold Js.round_half_even. now rewrite Z.mod_1_r, Z.div_1_r.
Qed.

Lemma floor_log2_integer (n : Z) : 0 < n -> Js.floor_log2 n 1 = Z.log2 n.
Proof.
  intros Hn. unfold Js.floor_log2, Js.scaled.
  change (Z.log2 1) with 0. rewrite Z.sub_0_r.
  pose proof (Z.log2_nonneg n) as He. pose proof (Z.log2_spec n Hn) as [Hlow _].
  destruct (Z.leb_spec 0 (Z.log2 n)); [|lia].
  destruct (Z.ltb_spec n (1 * 2 ^ Z.log2 n)); [lia | reflexivity].
Qed.

Lemma times_pow2_exact (z j : Z) :
  0 <= j -> Js.times_pow2 (z * 2 ^ j) (- j) = inject_Z z.
Proof.
  intros Hj. unfold Js.times_pow2.
  destruct (Z.leb_spec 0 (- j)) as [H | H].
  - replace j with 0 by lia. cbn [Z.opp]. now rewrite Z.pow_0_r, !Z.mul_1_r.
  - rewrite Z.opp_involutive. unfold inject_Z. rewrite <- (Qred_integer z).
    apply Qred_complete. unfold Qeq. cbn [Qnum Qden].
    rewrite Z2Pos.id by (apply Z.pow_pos_nonneg; lia). lia.
Qed.

(** A safe integer is a binary64. *)
Lemma round_binary64_integer (z : Z) :
  Z.abs z <= MAX_SAFE_INTEGER -> Js.round_binary64 (inject_Z z) = Js.of_Z z.
Proof.
  unfold MAX_SAFE_INTEGER. intros Hsafe.
  unfold Js.round_binary64, inject_Z. cbn [Qnum Qden].
  destruct (Z.eqb_spec (Z.abs z) 0) as [H0 | H0].
  - replace z with 0 by lia. reflexivity.
  - assert (Hn : 0 < Z.abs z) by lia.
    rewrite (floor_log2_integer _ Hn).
    pose proof (Z.log2_nonneg (Z.abs z)) as He.
    assert (He' : Z.log2 (Z.abs z) < 53) by (apply Z.log2_lt_pow2; lia).
    rewrite Z.max_l by lia.
    set (j := 52 - Z.log2 (Z.abs z)).
    replace (Z.log2 (Z.abs z) - 52) with (- j) by (unfold j; lia).
    assert (Hj : 0 <= j) by (unfold j; lia).
    assert (Hscaled : Js.scaled (Z.abs z) 1 (- j) = (Z.abs z * 2 ^ j, 1)).
    { unfold Js.scaled. destruct (Z.leb_spec 0 (- j)).
      - replace j with 0 by lia. cbn [Z.opp]. now rewrite Z.pow_0_r, !Z.mul_1_r.
      - now rewrite Z.opp_involutive. }
    rewrite Hscaled, round_half_even_1.
    replace ((0 <=? - j) && (2 ^ 1024 <=? Z.abs z * 2 ^ j * 2 ^ (- j))) with false.
    + assert (Hsgn : Z.sgn z * Z.abs z = z) by (destruct z; reflexivity).
      rewrite Z.mul_assoc, Hsgn. unfold Js.of_Z. f_equal.
      now apply times_pow2_exact.
    + symmetry. destruct (Z.leb_spec 0 (- j)); [|reflexivity].
      replace j with 0 by lia. cbn [Z.opp andb].
      rewrite Z.pow_0_r, !Z.mul_1_r. apply Z.leb_gt.
      apply Z.le_lt_trans with (2 ^ 53 - 1); [assumption|].
      apply Z.lt_trans with (2 ^ 53); [lia|].
      apply Z.pow_lt_mono_r; lia.
Qed.

(** Integers add up exactly as long as their sum is a safe integer. *)
Lemma add_integers (a b : Z) :
  Z.abs (a + b) <= MAX_SAFE_INTEGER -> Js.add (Js.of_Z a) (Js.of_Z b) = Js.of_Z (a + b).
Proof.
  intros Hsafe. unfold Js.add, Js.of_Z, Js.num_add, inject_Z, Qplus.
  cbn [Qnum Qden Pos.mul]. rewrite !Z.mul_1_r, Qred_integer.
  now apply round_binary64_integer.
Qed.

Lemma magnitude_nonneg (l : list Transaction.t) : 0 <= magnitude l.
Proof. induction l as [|tr l IH]; simpl; lia. Qed.

Lemma sum_le_magnitude (l : list Transaction.t) :
  Z.abs (sum_amountInHostCurrency l) <= magnitude l.
Proof. induction l as [|tr l IH]; simpl; lia. Qed.

Lemma added_up_exact (l : list Transaction.t) (total : Z) :
  Z.abs total + magnitude l <= MAX_SAFE_INTEGER ->
  added_up (Js.of_Z total) l = Js.of_Z (total + sum_amountInHostCurrency l).
Proof.
  revert total. induction l as [|tr l IH]; intros total Hsafe.
  - simpl. now rewrite Z.add_0_r.
  - cbn [added_up fold_left]. cbn [magnitude fold_right] in Hsafe.
    fold (magnitude l) in Hsafe. pose proof (magnitude_nonneg l).
    rewrite add_integers by lia. fold (added_up (Js.of_Z (total + Transaction.amountInHostCurrency tr)) l).
    rewrite IH by lia. cbn [sum_amountInHostCurrency fold_right].
    f_equal. unfold sum_amountInHostCurrency. lia.
Qed.

(** The total of a month is the sum of its amounts when these are safe
    to add up. *)
Lemma filed_exact (tr : Transaction.t) (rest : list Transaction.t) :
  safe_amounts (tr :: rest) ->
  filed (tr :: rest) = Some (Js.of_Z (sum_amountInHostCurrency (tr :: rest))).
Proof.
  unfold safe_amounts. cbn [filed magnitude fold_right]. intros Hsafe.
  now rewrite added_up_exact.
Qed.

Lemma added_up_app (l l' : list Transaction.t) (total : Js.Number) :
  added_up total (l ++ l') = added_up (added_up total l) l'.
Proof. apply fold_left_app. Qed.

Lemma filed_app (l : list Transaction.t) (tr : Transaction.t) :
  filed (l ++ [tr])
  = Some match filed l with
         | Some total => Js.add total (Js.of_Z (Transaction.amountInHostCurrency tr))
         | None => Js.of_Z (Transaction.amountInHostCurrency tr)
         end.
Proof.
  destruct l as [|tr0 l]; [reflexivity|].
  cbn [app filed]. now rewrite added_up_app.
Qed.

Lemma magnitude_filter_perm (p : Transaction.t -> bool) (l l' : list Transaction.t) :
  Permutation l l' -> magnitude (filter p l) = magnitude (filter p l').
Proof.
  induction 1 as [|x l l' _ IH|x y l|l l' l'' _ IH1 _ IH2]; simpl.
  - reflexivity.
  - destruct (p x); simpl; now rewrite IH.
  - destruct (p x), (p y); simpl; lia.
  - now rewrite IH1.
Qed.

Lemma magnitude_filter_le (p : Transaction.t -> bool) (l : list Transaction.t) :
  magnitude (filter p l) <= magnitude l.
Proof.
  induction l as [|tr l IH]; simpl; [lia|]. destruct (p tr); simpl; lia.
Qed.

Lemma safe_amounts_in_group (eng : Js.Engine) (g : Z * Z * Z) (l : list Transaction.t) :
  safe_amounts l -> safe_amounts (in_group eng g l).
Proof.
  unfold safe_amounts, in_group. pose proof (magnitude_filter_le
    (fun tr => group_eqb (group_of eng tr) g) l). lia.
Qed.

End AdditionFacts.

(** ** Strings *)

Section StringFacts.

Lemma length_app (s t : string) :
  String.length (s ++ t) = (String.length s + String.length t)%nat.
Proof. induction s as [|c s IH]; simpl; [reflexivity | now rewrite IH]. Qed.

Lemma app_assoc_string (s t u : string) : (s ++ t) ++ u = s ++ t ++ u.
Proof. induction s as [|c s IH]; simpl; [reflexivity | now rewrite IH]. Qed.

Lemma app_empty_r (s : string) : s ++ "" = s.
Proof. induction s as [|c s IH]; simpl; [reflexivity | now rewrite IH]. Qed.

Lemma drop_app (p s : string) : Js.drop (String.length p) (p ++ s) = s.
Proof. induction p as [|c p IH]; simpl; [now destruct s | exact IH]. Qed.

Lemma take_app (p s : string) : Js.take (String.length p) (p ++ s) = p.
Proof.
  induction p as [|c p IH]; simpl; [now destruct s | now rewrite IH].
Qed.

Lemma take_all (n : nat) (s : string) :
  (String.length s <= n)%nat -> Js.take n s = s.
Proof.
  revert n; induction s as [|c s IH]; intros [|n] H; simpl in *;
    try reflexivity; try lia.
  rewrite IH by lia. reflexivity.
Qed.

Lemma take_nonempty (n : nat) (c : ascii) (s : string) :
  (0 < n)%nat -> Js.take n (String c s) <> "".
Proof. destruct n; [lia | discriminate]. Qed.

Lemma app_inv_length (a b a' b' : string) :
  String.length a = String.length a' -> a ++ b = a' ++ b' -> a = a' /\ b = b'.
Proof.
  revert a'; induction a as [|c a IH]; intros [|c' a'] Hl H; simpl in *;
    try discriminate.
  - now split.
  - injection H as -> H. destruct (IH a') as [-> ->]; [lia | assumption |].
    now split.
Qed.

Lemma app_inv_tail_length (a b a' b' : string) :
  String.length b = String.length b' -> a ++ b = a' ++ b' -> a = a' /\ b = b'.
Proof.
  intros Hl H. apply app_inv_length; [|assumption].
  apply (f_equal String.length) in H. rewrite !length_app in H. lia.
Qed.

(** A separator that occurs in neither head decides where two equal
    strings split. *)
Lemma app_inv_separator (c : ascii) (a b a' b' : string) :
  Js.occurs c a = false -> Js.occurs c a' = false ->
  a ++ String c b = a' ++ String c b' -> a = a' /\ b = b'.
Proof.
  revert a'; induction a as [|d a IH]; intros [|d' a'] Ha Ha' H; simpl in *.
  - injection H as ->. now split.
  - injection H as <- _. now rewrite Ascii.eqb_refl in Ha'.
  - injection H as -> _. now rewrite Ascii.eqb_refl in Ha.
  - injection H as -> H.
    apply orb_false_iff in Ha as [_ Ha]. apply orb_false_iff in Ha' as [_ Ha'].
    destruct (IH a' Ha Ha' H) as [-> ->]. now split.
Qed.

Lemma occurs_app (c : ascii) (s t : string) :
  Js.occurs c (s ++ t) = Js.occurs c s || Js.occurs c t.
Proof.
  induction s as [|d s IH]; simpl; [reflexivity|].
  now rewrite IH, orb_assoc.
Qed.

Lemma lastIndexOf_from_app (c : ascii) (p s : string) (i found : Z) :
  Js.lastIndexOf_from c (p ++ s) i found
  = Js.lastIndexOf_from c s (i + Z.of_nat (String.length p))
                        (Js.lastIndexOf_from c p i found).
Proof.
  revert i found; induction p as [|d p IH]; intros i found; simpl String.length; simpl.
  - f_equal. lia.
  - rewrite IH. f_equal. lia.
Qed.

Lemma lastIndexOf_from_absent (c : ascii) (s : string) (i found : Z) :
  Js.occurs c s = false -> Js.lastIndexOf_from c s i found = found.
Proof.
  revert i found; induction s as [|d s IH]; intros i found H; simpl in *.
  - reflexivity.
  - apply orb_false_iff in H as [Hd Hs]. rewrite Hd. now apply IH.
Qed.

Lemma lastIndexOf_from_range (c : ascii) (s : string) (i found : Z) :
  let r := Js.lastIndexOf_from c s i found in
  r = found \/ i <= r < i + Z.of_nat (String.length s).
Proof.
  revert i found; induction s as [|d s IH]; intros i found; simpl.
  - now left.
  - destruct (IH (i + 1) (if Ascii.eqb d c then i else found)) as [-> | H].
    + destruct (Ascii.eqb d c); [right; lia | now left].
    + right. lia.
Qed.

(** The last occurrence lies at or after any occurrence. *)
Lemma lastIndexOf_after (c : ascii) (p q : string) :
  let r := Js.lastIndexOf (p ++ String c q) c in
  Z.of_nat (String.length p) <= r
  /\ r < Z.of_nat (String.length (p ++ String c q)).
Proof.
  unfold Js.lastIndexOf. rewrite lastIndexOf_from_app. simpl.
  rewrite Ascii.eqb_refl, length_app. simpl String.length.
  destruct (lastIndexOf_from_range c q (Z.of_nat (String.length p) + 1)
                                   (Z.of_nat (String.length p))) as [-> | H]; lia.
Qed.

Lemma lastIndexOf_last (c : ascii) (p q : string) :
  Js.occurs c q = false ->
  Js.lastIndexOf (p ++ String c q) c = Z.of_nat (String.length p).
Proof.
  intros H. unfold Js.lastIndexOf. rewrite lastIndexOf_from_app. simpl.
  rewrite Ascii.eqb_refl. now apply lastIndexOf_from_absent.
Qed.

Lemma substr_take_drop (s : string) (start len : nat) :
  (start + len <= String.length s)%nat ->
  Js.substr s (Z.of_nat start) (Some (Z.of_nat len)) = Js.take len (Js.drop start s).
Proof.
  intros H. unfold Js.substr.
  destruct (Z.ltb_spec (Z.of_nat start) 0) as [Hn | _]; [lia|].
  replace (Z.min (Z.of_nat start) (Z.of_nat (String.length s)))
    with (Z.of_nat start) by lia.
  replace (Z.min (Z.max (Z.of_nat len) 0) (Z.of_nat (String.length s) - Z.of_nat start))
    with (Z.of_nat len) by lia.
  now rewrite !Nat2Z.id.
Qed.

Lemma substr_rest (s : string) (start : nat) :
  (start <= String.length s)%nat ->
  Js.substr s (Z.of_nat start) None = Js.drop start s.
Proof.
  intros H. unfold Js.substr.
  destruct (Z.ltb_spec (Z.of_nat start) 0) as [Hn | _]; [lia|].
  replace (Z.min (Z.of_nat start) (Z.of_nat (String.length s)))
    with (Z.of_nat start) by lia.
  now rewrite Nat2Z.id.
Qed.

Lemma substring_take_drop (s : string) (a b : nat) :
  (a <= b <= String.length s)%nat ->
  Js.substring s (Z.of_nat a) (Z.of_nat b) = Js.take (b - a) (Js.drop a s).
Proof.
  intros H. unfold Js.substring, Js.clamp.
  replace (Z.min (Z.max (Z.of_nat a) 0) (Z.of_nat (String.length s)))
    with (Z.of_nat a) by lia.
  replace (Z.min (Z.max (Z.of_nat b) 0) (Z.of_nat (String.length s)))
    with (Z.of_nat b) by lia.
  rewrite !Nat2Z.id, Nat.min_l, Nat.max_r by lia. reflexivity.
Qed.

End StringFacts.

(** ** Decimal text of years and months *)

Section DecimalFacts.

Lemma all_from_spec (P : Z -> bool) (n : nat) (lo : Z) :
  all_from P lo n = true ->
  forall z, lo <= z < lo + Z.of_nat n -> P z = true.
Proof.
  revert lo; induction n as [|n IH]; intros lo H z Hz; [lia|].
  cbn [all_from] in H. apply andb_true_iff in H as [Hlo Hrest].
  destruct (Z.eq_dec z lo) as [-> | Hne]; [assumption|].
  apply (IH (lo + 1)); [assumption | lia].
Qed.

Lemma four_digit_year_ok (y : Z) :
  2015 <= y <= 9999 -> four_digit_year y = true.
Proof.
  intros H. apply (all_from_spec four_digit_year (Z.to_nat 7985) 2015); [|lia].
  vm_compute. reflexivity.
Qed.

Lemma year_length (y : Z) :
  2015 <= y <= 9999 -> String.length (Js.integer_toString y) = 4%nat.
Proof.
  intros H. apply four_digit_year_ok in H. unfold four_digit_year in H.
  apply andb_true_iff in H as [H _]. now apply Nat.eqb_eq.
Qed.

Lemma year_not_before_2015 (y : Z) :
  2015 <= y <= 9999 ->
  Js.lt (Js.Str (Js.integer_toString y)) (Js.Num (Js.of_Z 2015)) = false.
Proof.
  intros H. apply four_digit_year_ok in H. unfold four_digit_year in H.
  apply andb_true_iff in H as [_ H]. now apply negb_true_iff.
Qed.

Lemma month_cases (m : Z) :
  1 <= m <= 12 ->
  m = 1 \/ m = 2 \/ m = 3 \/ m = 4 \/ m = 5 \/ m = 6 \/ m = 7 \/ m = 8
  \/ m = 9 \/ m = 10 \/ m = 11 \/ m = 12.
Proof. lia. Qed.

Ltac each_month H :=
  apply month_cases in H;
  repeat (destruct H as [-> | H]); [..| subst].

Lemma month_length (m : Z) :
  1 <= m <= 12 -> String.length (Queries.month2digit m) = 2%nat.
Proof. intros H. each_month H; reflexivity. Qed.

Lemma month_in_bounds (m : Z) :
  1 <= m <= 12 ->
  Js.lt (Js.Str (Queries.month2digit m)) (Js.Num (Js.of_Z 1)) = false
  /\ Js.gt (Js.Str (Queries.month2digit m)) (Js.Num (Js.of_Z 12)) = false.
Proof. intros H. each_month H; split; reflexivity. Qed.

Lemma month_successor (eng : Js.Engine) (m : Z) :
  1 <= m <= 12 ->
  Js.Number_toString eng
    (Js.num_add (Js.StringToNumber (Queries.month2digit m)) (Js.of_Z 1))
  = Js.integer_toString (m + 1).
Proof. intros H. each_month H; reflexivity. Qed.

Lemma month2digit_inj (m m' : Z) :
  1 <= m <= 12 -> 1 <= m' <= 12 ->
  Queries.month2digit m = Queries.month2digit m' -> m = m'.
Proof.
  intros H H'. each_month H; each_month H'; intros E;
    try reflexivity; discriminate E.
Qed.

End DecimalFacts.

(** ** parseInvoiceSlug and validateDate *)

Section SlugFacts.

Variables yyyy mm host from : string.
Hypothesis year_width : String.length yyyy = 4%nat.
Hypothesis month_width : String.length mm = 2%nat.

Let slug := make_slug yyyy mm host from.

Lemma slug_split_host : slug = (yyyy ++ mm ++ ".") ++ host ++ String "." from.
Proof. unfold slug, make_slug. now rewrite !app_assoc_string. Qed.

Lemma slug_split_from : slug = (yyyy ++ mm ++ "." ++ host) ++ String "." from.
Proof. unfold slug, make_slug. now rewrite !app_assoc_string. Qed.

Lemma slug_prefix_length : String.length (yyyy ++ mm ++ ".") = 7%nat.
Proof. rewrite !length_app, year_width, month_width. reflexivity. Qed.

Lemma slug_length :
  String.length slug = (8 + String.length host + String.length from)%nat.
Proof.
  rewrite slug_split_host, length_app, slug_prefix_length, length_app.
  simpl String.length. lia.
Qed.

Lemma slug_year : Js.substr slug 0 (Some 4) = yyyy.
Proof.
  change 0 with (Z.of_nat 0); change 4 with (Z.of_nat 4).
  rewrite substr_take_drop by (rewrite slug_length; lia).
  simpl Js.drop. rewrite <- year_width.
  replace (Js.drop 0 slug) with slug by now destruct slug.
  apply take_app.
Qed.

Lemma slug_month : Js.substr slug 4 (Some 2) = mm.
Proof.
  change 4 with (Z.of_nat 4); change 2 with (Z.of_nat 2).
  rewrite substr_take_drop by (rewrite slug_length; lia).
  rewrite <- year_width. unfold slug, make_slug. rewrite drop_app.
  rewrite <- month_width. apply take_app.
Qed.

Lemma slug_last_dot :
  7 + Z.of_nat (String.length host) <= Js.lastIndexOf slug "."
  /\ Js.lastIndexOf slug "." < Z.of_nat (String.length slug).
Proof.
  pose proof (lastIndexOf_after "." (yyyy ++ mm ++ "." ++ host) from) as H.
  cbv zeta in H. rewrite <- slug_split_from in H.
  replace (yyyy ++ mm ++ "." ++ host) with ((yyyy ++ mm ++ ".") ++ host) in H
    by now rewrite !app_assoc_string.
  rewrite length_app, slug_prefix_length in H. lia.
Qed.

(** Whatever follows it, a host that is not empty is seen as such. *)
Lemma slug_host_not_empty :
  host <> "" ->
  Js.falsy (Js.substring slug 7 (Js.lastIndexOf slug ".")) = false.
Proof.
  intros Hhost. destruct slug_last_dot as [Hlo Hhi].
  set (last := Js.lastIndexOf slug ".") in *.
  replace last with (Z.of_nat (Z.to_nat last)) by lia.
  change 7 with (Z.of_nat 7).
  rewrite substring_take_drop by lia.
  rewrite slug_split_host, <- slug_prefix_length, drop_app.
  destruct host as [|c h]; [congruence|]. simpl String.length in Hlo.
  apply String.eqb_neq. apply take_nonempty.
  rewrite slug_prefix_length. lia.
Qed.

Hypothesis from_has_no_dot : Js.occurs "." from = false.

Lemma slug_last_dot_exact :
  Js.lastIndexOf slug "." = Z.of_nat (7 + String.length host).
Proof.
  rewrite slug_split_from, lastIndexOf_last by assumption.
  replace (yyyy ++ mm ++ "." ++ host) with ((yyyy ++ mm ++ ".") ++ host)
    by now rewrite !app_assoc_string.
  now rewrite length_app, slug_prefix_length.
Qed.

Lemma slug_host : Js.substring slug 7 (Js.lastIndexOf slug ".") = host.
Proof.
  rewrite slug_last_dot_exact. change 7 with (Z.of_nat 7).
  rewrite substring_take_drop by (rewrite slug_length; lia).
  rewrite slug_split_host, <- slug_prefix_length, drop_app.
  replace (String.length (yyyy ++ mm ++ ".") + String.length host
           - String.length (yyyy ++ mm ++ "."))%nat
    with (String.length host) by lia.
  apply take_app.
Qed.

Lemma slug_from : Js.substr slug (Js.lastIndexOf slug "." + 1) None = from.
Proof.
  rewrite slug_last_dot_exact.
  replace (Z.of_nat (7 + String.length host) + 1)
    with (Z.of_nat (String.length ((yyyy ++ mm ++ "." ++ host) ++ ".")))
    by (rewrite !length_app, year_width, month_width; simpl String.length; lia).
  rewrite substr_rest.
  - replace slug with (((yyyy ++ mm ++ "." ++ host) ++ ".") ++ from)
      by (unfold slug, make_slug; now rewrite !app_assoc_string).
    apply drop_app.
  - rewrite slug_length, !length_app, year_width, month_width.
    simpl String.length. lia.
Qed.

End SlugFacts.

Section ParseFacts.
Variable eng : Js.Engine.

Lemma make_slug_not_empty (yyyy mm host from : string) :
  Js.falsy (make_slug yyyy mm host from) = false.
Proof.
  apply String.eqb_neq. intros H. apply (f_equal String.length) in H.
  unfold make_slug in H. rewrite !length_app in H. simpl in H. lia.
Qed.

(** On a slug with a four-character year and a two-character month
    that pass the bounds, the parser returns these two and cuts the
    rest at the last dot. *)
Lemma parseInvoiceSlug_make_slug (yyyy mm host from : string) :
  String.length yyyy = 4%nat -> String.length mm = 2%nat -> host <> "" ->
  Js.lt (Js.Str yyyy) (Js.Num (Js.of_Z 2015)) = false ->
  Js.lt (Js.Str mm) (Js.Num (Js.of_Z 1)) = false ->
  Js.gt (Js.Str mm) (Js.Num (Js.of_Z 12)) = false ->
  let slug := make_slug yyyy mm host from in
  Queries.parseInvoiceSlug eng slug
  = Returned
      {| InvoiceInput.dateFrom :=
           {| DateObj.year := Js.Str yyyy; DateObj.month := Js.Str mm |};
         InvoiceInput.dateTo :=
           {| DateObj.year := Js.Str yyyy;
              DateObj.month :=
                Js.Str (Js.Number_toString eng
                          (Js.num_add (Js.StringToNumber mm) (Js.of_Z 1))) |};
         InvoiceInput.collectiveSlug :=
           Js.substring slug 7 (Js.lastIndexOf slug ".");
         InvoiceInput.fromCollectiveSlug :=
           Js.substr slug (Js.lastIndexOf slug "." + 1) None |}.
Proof.
  intros Hy Hm Hhost Hyear Hlow Hhigh slug. subst slug.
  unfold Queries.parseInvoiceSlug. cbv zeta.
  rewrite !slug_year, !slug_month by assumption.
  rewrite slug_host_not_empty by assumption.
  rewrite Hyear, Hlow, Hhigh. reflexivity.
Qed.

End ParseFacts.

Section DateFacts.

Lemma num_lt_of_Z (a b : Z) : Js.num_lt (Js.of_Z a) (Js.of_Z b) = (a <? b).
Proof.
  unfold Js.num_lt, Js.of_Z, Qcompare, inject_Z, Z.ltb. simpl.
  now rewrite !Z.mul_1_r.
Qed.

Lemma lt_number (a : Js.Value) (n : Js.Number) :
  Js.lt a (Js.Num n) = Js.num_lt (Js.ToNumber a) n.
Proof. now destruct a. Qed.

Lemma gt_number (a : Js.Value) (n : Js.Number) :
  Js.gt a (Js.Num n) = Js.num_lt n (Js.ToNumber a).
Proof. now destruct a. Qed.

Lemma validateDate_cases (d : DateObj.t) :
  Queries.validateDate d
  = if Js.num_lt (Js.ToNumber (DateObj.year d)) (Js.of_Z 2015)
       || (Js.num_lt (Js.ToNumber (DateObj.month d)) (Js.of_Z 1)
           || Js.num_lt (Js.of_Z 12) (Js.ToNumber (DateObj.month d)))
    then Thrown invalid_date else Returned tt.
Proof.
  unfold Queries.validateDate. now rewrite !lt_number, gt_number.
Qed.

End DateFacts.

(** C6: [validateDate] throws the ValidationFailed error "Invalid date
    object. Must have a valid month, where 1 == January, and be after
    2014" exactly when [year < 2015], [month < 1] or [month > 12], the
    comparisons being those of Numbers after ToNumber; on integer years
    and months these are the comparisons of integers.  Otherwise it
    returns.  [{2014, 6}], [{2017, 0}] and [{2017, 13}] are rejected,
    [{2015, 1}] is accepted. *)
Theorem validateDate_rejects_exactly :
  (forall d,
      Queries.validateDate d = Thrown invalid_date
      <-> (Js.num_lt (Js.ToNumber (DateObj.year d)) (Js.of_Z 2015) = true
           \/ Js.num_lt (Js.ToNumber (DateObj.month d)) (Js.of_Z 1) = true
           \/ Js.num_lt (Js.of_Z 12) (Js.ToNumber (DateObj.month d)) = true))
  /\ (forall d,
         Queries.validateDate d = Thrown invalid_date
         \/ Queries.validateDate d = Returned tt)
  /\ (forall y m : Z,
         Queries.validateDate (date_of y m) = Thrown invalid_date
         <-> (y < 2015 \/ m < 1 \/ m > 12))
  /\ Queries.validateDate (date_of 2014 6) = Thrown invalid_date
  /\ Queries.validateDate (date_of 2017 0) = Thrown invalid_date
  /\ Queries.validateDate (date_of 2017 13) = Thrown invalid_date
  /\ Queries.validateDate (date_of 2015 1) = Returned tt
  /\ message invalid_date
     = Some "Invalid date object. Must have a valid month, where 1 == January, and be after 2014".
Proof.
  assert (general : forall d,
             Queries.validateDate d = Thrown invalid_date
             <-> (Js.num_lt (Js.ToNumber (DateObj.year d)) (Js.of_Z 2015) = true
                  \/ Js.num_lt (Js.ToNumber (DateObj.month d)) (Js.of_Z 1) = true
                  \/ Js.num_lt (Js.of_Z 12) (Js.ToNumber (DateObj.month d)) = true)).
  { intros d. rewrite validateDate_cases.
    destruct (Js.num_lt (Js.ToNumber (DateObj.year d)) (Js.of_Z 2015));
      destruct (Js.num_lt (Js.ToNumber (DateObj.month d)) (Js.of_Z 1));
      destruct (Js.num_lt (Js.of_Z 12) (Js.ToNumber (DateObj.month d)));
      simpl; split; intros H; auto; try discriminate;
      destruct H as [H | [H | H]]; discriminate. }
  split; [exact general|]. split.
  { intros d. rewrite validateDate_cases.
    destruct (_ || _); [now left | now right]. }
  split.
  { intros y m. rewrite general. unfold date_of.
    cbn [DateObj.year DateObj.month Js.ToNumber].
    rewrite !num_lt_of_Z, !Z.ltb_lt. lia. }
  repeat split; reflexivity.
Qed.

(** C2 (amended): for every year 2015..9999, every month 1..12, every
    host slug that is not empty and every payer slug that contains no
    dot, [parseInvoiceSlug] accepts the slug [YYYYMM.host.from] and
    returns the texts [YYYY] and [MM] as year and month, [host] as
    [collectiveSlug] and [from] as [fromCollectiveSlug]. *)
Theorem parseInvoiceSlug_round_trip (eng : Js.Engine) (y m : Z) (host from : string) :
  2015 <= y <= 9999 -> 1 <= m <= 12 ->
  Js.falsy host = false -> Js.occurs "." from = false ->
  round_trip eng y m host from.
Proof.
  intros Hy Hm Hhost Hfrom. unfold round_trip.
  apply String.eqb_neq in Hhost.
  destruct (month_in_bounds m Hm) as [Hlow Hhigh].
  rewrite parseInvoiceSlug_make_slug;
    auto using year_length, month_length, year_not_before_2015.
  cbv zeta.
  rewrite slug_host, slug_from, month_successor;
    auto using year_length, month_length.
Qed.

Lemma parseInvoiceSlug_round_trip_witness :
  round_trip Fixture.utc 2017 10 "brusselstogether-host" "xdamman".
Proof.
  apply parseInvoiceSlug_round_trip; [lia | lia | reflexivity | reflexivity].
Defined.

(** C2 as stated fails when the payer slug has a dot in it: the parser
    cuts at the last dot, so the host comes back as [host.a] and the
    payer as [b]. *)
Lemma round_trip_fails_for_dotted_payer :
  (2015 <= 2017 <= 9999 /\ 1 <= 10 <= 12 /\ Js.falsy "host" = false)
  /\ Queries.parseInvoiceSlug Fixture.utc "201710.host.a.b"
     = Returned
         {| InvoiceInput.dateFrom :=
              {| DateObj.year := Js.Str "2017"; DateObj.month := Js.Str "10" |};
            InvoiceInput.dateTo :=
              {| DateObj.year := Js.Str "2017"; DateObj.month := Js.Str "11" |};
            InvoiceInput.collectiveSlug := "host.a";
            InvoiceInput.fromCollectiveSlug := "b" |}
  /\ ~ round_trip Fixture.utc 2017 10 "host" "a.b".
Proof.
  split; [repeat split; lia|]. split; [reflexivity|].
  unfold round_trip. vm_compute. discriminate.
Qed.

(** C3: on every slug [YYYY12.host.from] with a year 2015..9999 and a
    host that is not empty, [parseInvoiceSlug] returns [dateTo] with the
    same year and month ["13"], and the [Invoice] query throws the
    ValidationFailed error of [validateDate] before it reads anything
    from the store. *)
Theorem december_slug_is_rejected
        (eng : Js.Engine) (db : Database) (y : Z) (host from : string)
        (input : option InvoiceInput.t) (remoteUser : option User) :
  2015 <= y <= 9999 -> Js.falsy host = false ->
  let slug := make_slug (Js.integer_toString y) "12" host from in
  (exists parsed,
      Queries.parseInvoiceSlug eng slug = Returned parsed
      /\ InvoiceInput.dateFrom parsed
         = {| DateObj.year := Js.Str (Js.integer_toString y);
              DateObj.month := Js.Str "12" |}
      /\ InvoiceInput.dateTo parsed
         = {| DateObj.year := Js.Str (Js.integer_toString y);
              DateObj.month := Js.Str "13" |})
  /\ Queries.validateDate
       {| DateObj.year := Js.Str (Js.integer_toString y);
          DateObj.month := Js.Str "13" |} = Thrown invalid_date
  /\ run (Queries.Invoice eng db
            {| invoiceInputType := input; invoiceSlug := Some slug |} remoteUser)
     = ([], Thrown invalid_date).
Proof.
  intros Hy Hhost slug. apply String.eqb_neq in Hhost.
  pose proof (year_not_before_2015 y Hy) as Hyear.
  assert (Hparse := parseInvoiceSlug_make_slug eng (Js.integer_toString y) "12"
                      host from (year_length y Hy) eq_refl Hhost Hyear eq_refl eq_refl).
  cbv zeta in Hparse. fold slug in Hparse.
  assert (Hto : Queries.validateDate
                  {| DateObj.year := Js.Str (Js.integer_toString y);
                     DateObj.month := Js.Str "13" |} = Thrown invalid_date).
  { rewrite validateDate_cases. simpl DateObj.year. simpl DateObj.month.
    rewrite <- lt_number, Hyear. reflexivity. }
  assert (Hfrom : Queries.validateDate
                  {| DateObj.year := Js.Str (Js.integer_toString y);
                     DateObj.month := Js.Str "12" |} = Returned tt).
  { rewrite validateDate_cases. simpl DateObj.year. simpl DateObj.month.
    rewrite <- lt_number, Hyear. reflexivity. }
  split; [|split; [exact Hto|]].
  - eexists. split; [exact Hparse|]. split; reflexivity.
  - unfold run, Queries.Invoice, Queries.invoice_input, bind, lift.
    cbn [invoiceSlug invoiceInputType].
    unfold slug at 1. rewrite make_slug_not_empty. rewrite Hparse.
    cbn [InvoiceInput.dateFrom InvoiceInput.dateTo]. rewrite Hfrom.
    change (Js.Number_toString eng (Js.num_add (Js.StringToNumber "12") (Js.of_Z 1)))
      with "13".
    rewrite Hto. reflexivity.
Qed.

Lemma december_slug_is_rejected_witness :
  run (Queries.Invoice Fixture.utc Fixture.db
         {| invoiceInputType := None;
            invoiceSlug := Some "201712.brusselstogether-host.xdamman" |}
         (Some Fixture.admin_of_xdamman))
  = ([], Thrown invalid_date).
Proof.
  apply (december_slug_is_rejected
           Fixture.utc Fixture.db 2017 "brusselstogether-host" "xdamman");
    [lia | reflexivity].
Defined.

(** C10: the slug [abcd12.host.from] is accepted by [parseInvoiceSlug],
    which returns ["abcd"] as the year: ToNumber of it is NaN, and no
    comparison with NaN holds.  [validateDate] accepts that year as
    well, and for [abcd11.host.from] both of the dates the parser
    returns pass it. *)
Theorem non_numeric_year_is_accepted (eng : Js.Engine) :
  Queries.parseInvoiceSlug eng "abcd12.host.from"
  = Returned
      {| InvoiceInput.dateFrom :=
           {| DateObj.year := Js.Str "abcd"; DateObj.month := Js.Str "12" |};
         InvoiceInput.dateTo :=
           {| DateObj.year := Js.Str "abcd"; DateObj.month := Js.Str "13" |};
         InvoiceInput.collectiveSlug := "host";
         InvoiceInput.fromCollectiveSlug := "from" |}
  /\ Js.StringToNumber "abcd" = Js.NaN
  /\ (forall n, Js.num_lt Js.NaN n = false)
  /\ (forall month,
         Js.lt (Js.Str "abcd") (Js.Num (Js.of_Z 2015)) = false
         /\ Queries.validateDate {| DateObj.year := Js.Str "abcd"; DateObj.month := month |}
            = Queries.validateDate {| DateObj.year := Js.Num (Js.of_Z 2015); DateObj.month := month |})
  /\ Queries.validateDate {| DateObj.year := Js.Str "abcd"; DateObj.month := Js.Str "12" |}
     = Returned tt
  /\ (exists parsed,
         Queries.parseInvoiceSlug eng "abcd11.host.from" = Returned parsed
         /\ DateObj.year (InvoiceInput.dateFrom parsed) = Js.Str "abcd"
         /\ Queries.validateDate (InvoiceInput.dateFrom parsed) = Returned tt
         /\ Queries.validateDate (InvoiceInput.dateTo parsed) = Returned tt).
Proof.
  split; [reflexivity|]. split; [reflexivity|]. split; [now intros []|].
  split; [intros month; split; reflexivity|]. split; [reflexivity|].
  eexists. split; [reflexivity|]. repeat split.
Qed.

(** ** The Invoice query *)

Section InvoiceFacts.
Variable eng : Js.Engine.
Variable db : Database.

Lemma last_default {A} (x : A) (l : list A) (d d' : A) :
  last (x :: l) d = last (x :: l) d'.
Proof.
  revert x; induction l as [|y l IH]; intros x; [reflexivity|].
  change (last (y :: l) d = last (y :: l) d'). apply IH.
Qed.

Lemma reduce_transactions_from (transactions : list Transaction.t)
      (total : Js.Number) (currency : option string) :
  fold_left
    (fun '(total, _) transaction =>
       (Js.add total (Js.of_Z (Transaction.amountInHostCurrency transaction)),
        Some (Transaction.hostCurrency transaction)))
    transactions (total, currency)
  = (added_up total transactions,
     match transactions with
     | [] => currency
     | tr :: _ => Some (Transaction.hostCurrency (last transactions tr))
     end).
Proof.
  revert total currency.
  induction transactions as [|tr rest IH]; intros total currency.
  - reflexivity.
  - cbn [fold_left]. rewrite IH. f_equal.
    destruct rest as [|tr' rest']; [reflexivity|].
    change (last (tr :: tr' :: rest') tr) with (last (tr' :: rest') tr).
    now rewrite (last_default tr' rest' tr tr').
Qed.

Lemma reduce_transactions_spec (tr : Transaction.t) (rest : list Transaction.t) :
  Queries.reduce_transactions (tr :: rest)
  = (added_up (Js.of_Z 0) (tr :: rest),
     Some (Transaction.hostCurrency (last (tr :: rest) tr))).
Proof. unfold Queries.reduce_transactions. now rewrite reduce_transactions_from. Qed.

Variable args : InvoiceArgs.
Variable remoteUser : option User.
Variable input : InvoiceInput.t.
Variables fromCollective host : Collective.t.
Hypothesis reached : reaches_authorization eng db args input fromCollective host.

Let startsAt := Queries.first_of_month eng (InvoiceInput.dateFrom input).
Let endsAt := Queries.first_of_month eng (InvoiceInput.dateTo input).
Let transactions := invoice_transactions eng db input fromCollective host.

(** The rest of the resolver, from the authorization check on. *)
Lemma Invoice_from_authorization :
  run (Queries.Invoice eng db args remoteUser)
  = if Queries.not_admin remoteUser (Collective.id fromCollective)
    then (invoice_lookups input, Thrown no_permission)
    else if Queries.Date_lt endsAt startsAt
         then (invoice_lookups input, Thrown dates_out_of_order)
         else
           ((invoice_lookups input
               ++ [Q_Transaction_findAll
                     (Queries.invoice_where fromCollective host startsAt endsAt)])%list,
            match transactions with
            | [] => Thrown (NotFound "No transactions found")
            | tr :: _ =>
                Returned
                  {| RangeInvoice.title := Queries.invoice_title (Some host);
                     RangeInvoice.HostCollectiveId := Collective.id host;
                     RangeInvoice.slug := invoiceSlug args;
                     RangeInvoice.yearFrom := DateObj.year (InvoiceInput.dateFrom input);
                     RangeInvoice.monthFrom := DateObj.month (InvoiceInput.dateFrom input);
                     RangeInvoice.yearTo := DateObj.year (InvoiceInput.dateTo input);
                     RangeInvoice.monthTo := DateObj.month (InvoiceInput.dateTo input);
                     RangeInvoice.FromCollectiveId := Collective.id fromCollective;
                     RangeInvoice.totalAmount := added_up (Js.of_Z 0) transactions;
                     RangeInvoice.currency :=
                       (let c := Transaction.hostCurrency (last transactions tr) in
                        if Js.falsy c then Collective.currency host else c);
                     RangeInvoice.transactions := transactions |}
            end).
Proof.
  destruct reached as (Hinput & Hfrom & Hto & Hpayer & Hhost).
  unfold transactions, invoice_transactions, startsAt, endsAt.
  unfold run, Queries.Invoice, Queries.findAll, bind, lift, await, throw, ret.
  rewrite Hinput, Hfrom, Hto. cbn [app]. rewrite Hpayer, Hhost.
  destruct (Queries.not_admin remoteUser (Collective.id fromCollective));
    [reflexivity|].
  destruct (Queries.Date_lt _ _); [reflexivity|].
  destruct (filter _ (Transactions db)) as [|tr rest]; [reflexivity|].
  cbn [List.length Nat.eqb]. rewrite reduce_transactions_spec. reflexivity.
Qed.

End InvoiceFacts.

Lemma Date_lt_spec (a b : option Z) :
  Queries.Date_lt a b = true <-> exists x y, a = Some x /\ b = Some y /\ x < y.
Proof.
  destruct a as [x|], b as [y|]; simpl; split;
    try discriminate; try (intros (x' & y' & H1 & H2 & _); discriminate).
  - intros H. exists x, y. repeat split. now apply Z.ltb_lt.
  - intros (x' & y' & [= <-] & [= <-] & H). now apply Z.ltb_lt.
Qed.

Lemma Date_lt_irrefl (a : option Z) : Queries.Date_lt a a = false.
Proof. destruct a; simpl; [apply Z.ltb_irrefl | reflexivity]. Qed.

(** C5: once the [Invoice] query has come to compare its two dates (the
    input is there, both dates pass [validateDate], payer and host are
    found, the caller is an admin of the payer), it throws a
    ValidationFailed error whose message contains "dateFrom must be
    before dateTo" exactly when [endsAt < startsAt], that is when both
    are valid dates and the time value of [endsAt] is strictly smaller;
    the error is then the one built in the source.  With [dateFrom]
    equal to [dateTo] it never does. *)
Theorem dates_out_of_order_iff
        (eng : Js.Engine) (db : Database) (args : InvoiceArgs)
        (remoteUser : option User) (input : InvoiceInput.t)
        (fromCollective host : Collective.t) :
  reaches_authorization eng db args input fromCollective host ->
  Queries.not_admin remoteUser (Collective.id fromCollective) = false ->
  let startsAt := Queries.first_of_month eng (InvoiceInput.dateFrom input) in
  let endsAt := Queries.first_of_month eng (InvoiceInput.dateTo input) in
  let result := outcome (Queries.Invoice eng db args remoteUser) in
  ((exists e, result = Thrown e /\ is_ValidationFailed e = true
              /\ mentions e "dateFrom must be before dateTo" = true)
   <-> Queries.Date_lt endsAt startsAt = true)
  /\ (Queries.Date_lt endsAt startsAt = true
      <-> exists e s, endsAt = Some e /\ startsAt = Some s /\ e < s)
  /\ (Queries.Date_lt endsAt startsAt = true -> result = Thrown dates_out_of_order)
  /\ (InvoiceInput.dateFrom input = InvoiceInput.dateTo input ->
      forall e, result = Thrown e -> is_ValidationFailed e = false).
Proof.
  intros Hreach Hadmin startsAt endsAt result.
  assert (Hrun := Invoice_from_authorization eng db args remoteUser input
                    fromCollective host Hreach).
  rewrite Hadmin in Hrun. fold startsAt endsAt in Hrun.
  assert (Hres : result
                 = if Queries.Date_lt endsAt startsAt
                   then Thrown dates_out_of_order
                   else snd (run (Queries.Invoice eng db args remoteUser))).
  { unfold result, outcome. rewrite Hrun.
    destruct (Queries.Date_lt endsAt startsAt); reflexivity. }
  assert (Hother : Queries.Date_lt endsAt startsAt = false ->
                   forall e, result = Thrown e -> is_ValidationFailed e = false).
  { intros Hlt e. unfold result, outcome. rewrite Hrun, Hlt. cbn [snd].
    destruct (invoice_transactions eng db input fromCollective host);
      [intros [= <-]; reflexivity | discriminate]. }
  split; [|split; [apply Date_lt_spec | split]].
  - split.
    + intros (e & He & Hval & _).
      destruct (Queries.Date_lt endsAt startsAt) eqn:Hlt; [reflexivity|].
      rewrite (Hother eq_refl e He) in Hval. discriminate.
    + intros Hlt. exists dates_out_of_order. rewrite Hres, Hlt.
      repeat split.
  - intros Hlt. now rewrite Hres, Hlt.
  - intros Heq. apply Hother. unfold endsAt, startsAt. rewrite Heq.
    apply Date_lt_irrefl.
Qed.

(** C4 (amended): once the [Invoice] query has passed its checks up to
    and including the order of the dates, both of which are valid
    dates, it throws NotFound ("No transactions found") when the fetch
    returns no transaction; otherwise it returns one invoice holding
    the fetched transactions, whose [totalAmount] is the sum of their
    [amountInHostCurrency] as long as the absolute values of these add
    up to a safe integer (the additions round to binary64), whose title
    is the host's [settings.invoiceTitle] when that is set and not
    empty and "Donation Receipt" otherwise, and whose currency is the
    [hostCurrency] of the last fetched transaction when that is not
    empty and the host's currency otherwise. *)
Theorem Invoice_totals
        (eng : Js.Engine) (db : Database) (args : InvoiceArgs)
        (remoteUser : option User) (input : InvoiceInput.t)
        (fromCollective host : Collective.t) (startsAt endsAt : Z) :
  reaches_authorization eng db args input fromCollective host ->
  Queries.not_admin remoteUser (Collective.id fromCollective) = false ->
  Queries.first_of_month eng (InvoiceInput.dateFrom input) = Some startsAt ->
  Queries.first_of_month eng (InvoiceInput.dateTo input) = Some endsAt ->
  startsAt <= endsAt ->
  let transactions := invoice_transactions eng db input fromCollective host in
  let result := outcome (Queries.Invoice eng db args remoteUser) in
  (transactions = [] -> result = Thrown (NotFound "No transactions found"))
  /\ (transactions <> [] ->
      exists invoice,
        result = Returned invoice
        /\ RangeInvoice.transactions invoice = transactions
        /\ (safe_amounts transactions ->
            RangeInvoice.totalAmount invoice
            = Js.of_Z (sum_amountInHostCurrency transactions))
        /\ RangeInvoice.title invoice
           = match Collective.settings_invoiceTitle host with
             | Some title => if Js.falsy title then "Donation Receipt" else title
             | None => "Donation Receipt"
             end
        /\ forall tr,
            RangeInvoice.currency invoice
            = if Js.falsy (Transaction.hostCurrency (last transactions tr))
              then Collective.currency host
              else Transaction.hostCurrency (last transactions tr)).
Proof.
  intros Hreach Hadmin Hfrom Hto Hdates transactions result.
  assert (Hrun := Invoice_from_authorization eng db args remoteUser input
                    fromCollective host Hreach).
  rewrite Hadmin, Hfrom, Hto in Hrun. cbn [Queries.Date_lt] in Hrun.
  rewrite (proj2 (Z.ltb_ge endsAt startsAt) Hdates) in Hrun.
  rewrite <- Hfrom, <- Hto in Hrun. fold transactions in Hrun.
  unfold result, outcome. rewrite Hrun. cbn [snd]. split.
  - intros ->. reflexivity.
  - intros Hne. destruct transactions as [|tr rest]; [congruence|].
    eexists. split; [reflexivity|]. split; [reflexivity|]. split; [|split].
    + intros Hsafe. cbn [RangeInvoice.totalAmount].
      rewrite added_up_exact; [reflexivity | exact Hsafe].
    + reflexivity.
    + intros tr'. cbn [RangeInvoice.currency].
      now rewrite (last_default tr rest tr' tr).
Qed.

Lemma dates_out_of_order_iff_witness :
  outcome (Queries.Invoice Fixture.utc Fixture.db
             (Fixture.range "2017" "10" "2016" "11" "brusselstogether-host")
             (Some Fixture.admin_of_xdamman))
  = Thrown dates_out_of_order.
Proof.
  refine (proj1 (proj2 (proj2
            (dates_out_of_order_iff
               Fixture.utc Fixture.db
               (Fixture.range "2017" "10" "2016" "11" "brusselstogether-host")
               (Some Fixture.admin_of_xdamman)
               (Fixture.input_of (Fixture.range "2017" "10" "2016" "11" "brusselstogether-host"))
               Fixture.xdamman Fixture.host _ _))) _).
  - repeat split; reflexivity.
  - reflexivity.
  - reflexivity.
Defined.

Lemma Invoice_totals_witness :
  exists invoice,
    outcome (Queries.Invoice Fixture.utc Fixture.db
               (Fixture.by_invoice_slug "201710.brusselstogether-host.xdamman")
               (Some Fixture.admin_of_xdamman))
    = Returned invoice
    /\ RangeInvoice.totalAmount invoice = Js.of_Z 1500
    /\ RangeInvoice.currency invoice = "EUR"
    /\ List.length (RangeInvoice.transactions invoice) = 2%nat.
Proof.
  destruct (proj2 (Invoice_totals
                     Fixture.utc Fixture.db
                     (Fixture.by_invoice_slug "201710.brusselstogether-host.xdamman")
                     (Some Fixture.admin_of_xdamman)
                     (Fixture.input_of
                        (Fixture.by_invoice_slug "201710.brusselstogether-host.xdamman"))
                     Fixture.xdamman Fixture.host
                     (Fixture.days_from_civil 2017 10 1 * Fixture.ms_per_day)
                     (Fixture.days_from_civil 2017 11 1 * Fixture.ms_per_day)
                     (conj eq_refl (conj eq_refl (conj eq_refl (conj eq_refl eq_refl))))
                     eq_refl eq_refl eq_refl ltac:(vm_compute; discriminate)))
    as (invoice & Hres & Htx & Htotal & _ & Hcur).
  - vm_compute. discriminate.
  - exists invoice. split; [exact Hres|]. split; [|split].
    + rewrite Htotal; [reflexivity | vm_compute; discriminate].
    + rewrite (Hcur (Fixture.credit 0 0 0 0 0 "")). reflexivity.
    + rewrite Htx. reflexivity.
Defined.

(** C4 as stated fails on a transaction without a host currency: the
    invoice of October 2017 then carries the currency of the host, the
    fallback the claim calls unreachable. *)
Lemma Invoice_falls_back_to_host_currency :
  exists invoice,
    outcome (Queries.Invoice Fixture.utc Fixture.without_currency
               (Fixture.by_invoice_slug "201710.brusselstogether-host.xdamman")
               (Some Fixture.admin_of_xdamman))
    = Returned invoice
    /\ map Transaction.hostCurrency (RangeInvoice.transactions invoice) = [""]
    /\ RangeInvoice.currency invoice = Collective.currency Fixture.host
    /\ RangeInvoice.currency invoice = "EUR".
Proof. eexists. split; [reflexivity|]. repeat split. Qed.

(** The total of the range invoice is the rounded one as well. *)
Example Invoice_total_is_rounded :
  exists invoice,
    outcome (Queries.Invoice Fixture.utc Fixture.large
               (Fixture.by_invoice_slug "201710.brusselstogether-host.xdamman")
               (Some Fixture.admin_of_xdamman))
    = Returned invoice
    /\ sum_amountInHostCurrency (RangeInvoice.transactions invoice) = 2 ^ 53 + 1
    /\ RangeInvoice.totalAmount invoice = Js.of_Z (2 ^ 53).
Proof.
  eexists. split; [vm_compute; reflexivity|]. split; vm_compute; reflexivity.
Qed.

(** C7 (amended): a caller who is not authenticated or is not an admin
    of the payer gets the Unauthorized error "You don't have permission
    to access invoices for this user", and no transaction has been
    fetched by then: from [allInvoices] as soon as the payer is found,
    from [Invoice] when in addition its input is there, both dates pass
    [validateDate] and the host is found. *)
Theorem not_admin_is_refused (eng : Js.Engine) (db : Database) (remoteUser : option User) :
  (forall fromCollectiveSlug fromCollective,
      Collective_findOne_slug db fromCollectiveSlug = Some fromCollective ->
      Queries.not_admin remoteUser (Collective.id fromCollective) = true ->
      let m := Queries.allInvoices eng db fromCollectiveSlug remoteUser in
      outcome m = Thrown no_permission
      /\ queries_sent m = [Q_Collective_findOne fromCollectiveSlug]
      /\ fetches_no_transaction (queries_sent m) = true)
  /\ (forall args input fromCollective host,
         reaches_authorization eng db args input fromCollective host ->
         Queries.not_admin remoteUser (Collective.id fromCollective) = true ->
         let m := Queries.Invoice eng db args remoteUser in
         outcome m = Thrown no_permission
         /\ queries_sent m = invoice_lookups input
         /\ fetches_no_transaction (queries_sent m) = true)
  /\ is_Unauthorized no_permission = true
  /\ mentions no_permission "don't have permission" = true
  /\ (Queries.not_admin remoteUser = fun id =>
        match remoteUser with
        | None => true
        | Some user => negb (isAdmin user id)
        end).
Proof.
  split; [|split; [|repeat split]].
  - intros slug fromCollective Hfound Hrefused m.
    assert (Hrun : run m = ([Q_Collective_findOne slug], Thrown no_permission)).
    { unfold m, run, Queries.allInvoices, bind, await, throw.
      cbn [app]. now rewrite Hfound, Hrefused. }
    unfold outcome, queries_sent. rewrite Hrun. repeat split.
  - intros args input fromCollective host Hreach Hrefused m.
    assert (Hrun := Invoice_from_authorization eng db args remoteUser input
                      fromCollective host Hreach).
    rewrite Hrefused in Hrun.
    unfold outcome, queries_sent, m. rewrite Hrun. repeat split.
Qed.

Lemma not_admin_is_refused_witness :
  run (Queries.allInvoices Fixture.utc Fixture.db "xdamman" None)
  = ([Q_Collective_findOne "xdamman"], Thrown no_permission)
  /\ run (Queries.Invoice Fixture.utc Fixture.db
            (Fixture.range "2017" "10" "2017" "11" "brusselstogether-host")
            (Some Fixture.stranger))
     = ([Q_Collective_findOne "xdamman"; Q_Collective_findBySlug "brusselstogether-host"],
        Thrown no_permission).
Proof.
  destruct (not_admin_is_refused Fixture.utc Fixture.db None) as (Hall & _).
  destruct (not_admin_is_refused Fixture.utc Fixture.db (Some Fixture.stranger))
    as (_ & Hrange & _).
  split.
  - destruct (Hall "xdamman" Fixture.xdamman eq_refl eq_refl) as (Hout & Hlog & _).
    unfold outcome, queries_sent in Hout, Hlog.
    destruct (run (Queries.allInvoices Fixture.utc Fixture.db "xdamman" None)) as [log o].
    simpl in Hout, Hlog. now subst.
  - destruct (Hrange (Fixture.range "2017" "10" "2017" "11" "brusselstogether-host")
                     (Fixture.input_of
                        (Fixture.range "2017" "10" "2017" "11" "brusselstogether-host"))
                     Fixture.xdamman Fixture.host
                     (conj eq_refl (conj eq_refl (conj eq_refl (conj eq_refl eq_refl))))
                     eq_refl) as (Hout & Hlog & _).
    unfold outcome, queries_sent in Hout, Hlog.
    destruct (run (Queries.Invoice Fixture.utc Fixture.db _ _)) as [log o].
    simpl in Hout, Hlog. now subst.
Defined.

(** C7 as stated fails for the [Invoice] query: with the payer found
    and no caller, a host slug that names no collective gets NotFound,
    and a date that does not pass [validateDate] gets ValidationFailed,
    both thrown before the permission is looked at. *)
Lemma unauthenticated_caller_gets_other_errors :
  Collective_findOne_slug Fixture.db "xdamman" = Some Fixture.xdamman
  /\ Queries.not_admin None (Collective.id Fixture.xdamman) = true
  /\ outcome (Queries.Invoice Fixture.utc Fixture.db
                (Fixture.range "2017" "10" "2017" "11" "no-such-host") None)
     = Thrown (NotFound "Host not found")
  /\ outcome (Queries.Invoice Fixture.utc Fixture.db
                (Fixture.range "2014" "10" "2017" "11" "brusselstogether-host") None)
     = Thrown invalid_date
  /\ is_Unauthorized (NotFound "Host not found") = false
  /\ is_Unauthorized invalid_date = false.
Proof. repeat split. Qed.

(** ** TransactionInvoice *)

(** C8: when a transaction has the given uuid, [TransactionInvoice]
    returns an invoice whose [totalAmount] is its [amount] if it is a
    CREDIT and [-1 * netAmountInCollectiveCurrency] otherwise (800 for
    a DEBIT whose net amount is -800), whose slug is "transaction-"
    followed by the uuid, and whose transactions are that transaction
    alone (with its host loaded); when none has, it throws NotFound. *)
Theorem TransactionInvoice_total (eng : Js.Engine) (db : Database) (uuid : string) :
  let result := outcome (Queries.TransactionInvoice eng db uuid) in
  (forall tr,
      find (fun tr => String.eqb (Transaction.uuid tr) uuid) (Transactions db) = Some tr ->
      exists invoice,
        result = Returned invoice
        /\ Transaction.uuid tr = uuid
        /\ SingleInvoice.totalAmount invoice
           = match Transaction.type tr with
             | CREDIT => Transaction.amount tr
             | DEBIT => -1 * Transaction.netAmountInCollectiveCurrency tr
             end
        /\ (Transaction.type tr = DEBIT ->
            Transaction.netAmountInCollectiveCurrency tr = -800 ->
            SingleInvoice.totalAmount invoice = 800)
        /\ SingleInvoice.slug invoice = "transaction-" ++ uuid
        /\ SingleInvoice.transactions invoice
           = [Transaction.with_host tr (getHostCollective db tr)])
  /\ ((forall tr, In tr (Transactions db) -> Transaction.uuid tr <> uuid) ->
      result = Thrown (NotFound ("Transaction " ++ uuid ++ " doesn't exists"))).
Proof.
  intros result. unfold result, outcome, run, Queries.TransactionInvoice, bind, await, throw, ret.
  split.
  - intros tr Hfound. rewrite Hfound. cbn [snd].
    eexists. split; [reflexivity|]. split.
    { apply find_some in Hfound as [_ H]. now apply String.eqb_eq. }
    cbn [SingleInvoice.totalAmount SingleInvoice.slug SingleInvoice.transactions
         Transaction.with_host Transaction.type Transaction.amount
         Transaction.netAmountInCollectiveCurrency].
    split; [destruct (Transaction.type tr); lia|].
    split; [intros -> ->; reflexivity|]. split; reflexivity.
  - intros Hnone.
    destruct (find _ (Transactions db)) as [tr|] eqn:Hfound; [|reflexivity].
    apply find_some in Hfound as [Hin H]. apply String.eqb_eq in H.
    now destruct (Hnone tr Hin).
Qed.

Lemma TransactionInvoice_total_witness :
  exists invoice,
    outcome (Queries.TransactionInvoice Fixture.utc Fixture.with_expense "d-1201")
    = Returned invoice
    /\ SingleInvoice.totalAmount invoice = 800
    /\ SingleInvoice.slug invoice = "transaction-d-1201".
Proof.
  destruct (proj1 (TransactionInvoice_total Fixture.utc Fixture.with_expense "d-1201")
                  (Fixture.debit 31 2017 12 1 800 "d-1201") eq_refl)
    as (invoice & Hres & _ & _ & Hdebit & Hslug & _).
  exists invoice. split; [exact Hres|]. split; [|exact Hslug].
  apply Hdebit; reflexivity.
Defined.

(** ** Objects used as dictionaries *)

Section DictFacts.
Context {V : Type}.
Implicit Types (o : list (string * V)) (k : string) (v : V).

Lemma get_None o k : Js.get o k = None <-> ~ In k (Js.keys o).
Proof.
  induction o as [|[k0 v0] o IH]; simpl; [tauto|].
  destruct (String.eqb_spec k0 k) as [-> | Hne].
  - split; [discriminate | tauto].
  - rewrite IH. tauto.
Qed.

Lemma get_Some_In o k v : Js.get o k = Some v -> In (k, v) o.
Proof.
  induction o as [|[k0 v0] o IH]; simpl; [discriminate|].
  destruct (String.eqb_spec k0 k) as [-> | Hne].
  - intros [= ->]. now left.
  - intros H. right. now apply IH.
Qed.

Lemma In_get_Some o k v : NoDup (Js.keys o) -> In (k, v) o -> Js.get o k = Some v.
Proof.
  induction o as [|[k0 v0] o IH]; simpl; [tauto|].
  intros Hnd [[= -> ->] | Hin].
  - now rewrite String.eqb_refl.
  - inversion Hnd as [|? ? Hk0 Hnd']; subst.
    destruct (String.eqb_spec k0 k) as [-> | Hne]; [|now apply IH].
    exfalso. apply Hk0. apply (in_map fst) in Hin. exact Hin.
Qed.

Lemma keys_set o k v k' :
  In k' (Js.keys (Js.set o k v)) <-> k' = k \/ In k' (Js.keys o).
Proof.
  induction o as [|[k0 v0] o IH]; simpl; [intuition auto|].
  destruct (String.eqb_spec k0 k) as [-> | Hne]; simpl.
  - intuition auto.
  - rewrite IH. intuition auto.
Qed.

Lemma NoDup_set o k v : NoDup (Js.keys o) -> NoDup (Js.keys (Js.set o k v)).
Proof.
  induction o as [|[k0 v0] o IH]; simpl; intros Hnd.
  - constructor; [tauto | constructor].
  - inversion Hnd as [|? ? Hk0 Hnd']; subst.
    destruct (String.eqb_spec k0 k) as [-> | Hne]; simpl.
    + now constructor.
    + constructor; [|now apply IH].
      change (~ In k0 (Js.keys (Js.set o k v))). rewrite keys_set.
      intros [-> | H]; auto.
Qed.

Lemma In_set o k v k' v' :
  NoDup (Js.keys o) ->
  In (k', v') (Js.set o k v) <-> (k' = k /\ v' = v) \/ (k' <> k /\ In (k', v') o).
Proof.
  induction o as [|[k0 v0] o IH]; simpl; intros Hnd.
  - split.
    + intros [[= -> ->] | []]. now left.
    + intros [[-> ->] | [_ []]]. now left.
  - inversion Hnd as [|? ? Hk0 Hnd']; subst.
    destruct (String.eqb_spec k0 k) as [-> | Hne]; simpl.
    + split.
      * intros [[= -> ->] | Hin]; [now left|]. right. split; [|now right].
        intros ->. apply Hk0. apply (in_map fst) in Hin. exact Hin.
      * intros [[-> ->] | [Hne [[= -> ->] | Hin]]];
          [now left | congruence | now right].
    + rewrite (IH Hnd'). split.
      * intros [[= -> ->] | [[-> ->] | [Hne' Hin]]].
        -- right. split; [congruence | now left].
        -- now left.
        -- right. split; [assumption | now right].
      * intros [[-> ->] | [Hne' [[= -> ->] | Hin]]].
        -- right. now left.
        -- now left.
        -- right. right. now split.
Qed.

End DictFacts.

(** ** Sorting *)

Section SortFacts.
Context {A : Type} (cmp : A -> A -> Z).

Lemma sort_insert_perm (x : A) (l : list A) :
  Permutation (Js.sort_insert cmp x l) (x :: l).
Proof.
  induction l as [|y l IH]; simpl; [reflexivity|].
  destruct (0 <? cmp x y); [|reflexivity].
  rewrite IH. apply perm_swap.
Qed.

Lemma sort_perm (l : list A) : Permutation (Js.sort cmp l) l.
Proof.
  induction l as [|x l IH]; simpl; [reflexivity|].
  rewrite sort_insert_perm. now constructor.
Qed.

(** With [before a b] whenever the comparator does not ask for [a] to
    go after [b], and [before b a] whenever it does, the result is
    sorted by [before]. *)
Variable before : A -> A -> Prop.
Hypothesis keep : forall a b, (0 <? cmp a b) = false -> before a b.
Hypothesis move : forall a b, (0 <? cmp a b) = true -> before b a.

Lemma sort_insert_sorted (x : A) (l : list A) :
  Sorted before l -> Sorted before (Js.sort_insert cmp x l).
Proof.
  induction l as [|y l IH]; simpl; intros Hs.
  - repeat constructor.
  - destruct (0 <? cmp x y) eqn:E.
    + apply Sorted_inv in Hs as [Hs Hhd]. constructor; [now apply IH|].
      destruct l as [|z l]; simpl.
      * constructor. now apply move.
      * destruct (0 <? cmp x z); constructor;
          [now inversion Hhd | now apply move].
    + constructor; [assumption|]. constructor. now apply keep.
Qed.

Lemma sort_sorted (l : list A) : Sorted before (Js.sort cmp l).
Proof.
  induction l as [|x l IH]; simpl; [constructor | now apply sort_insert_sorted].
Qed.

End SortFacts.

(** ** allInvoices: the accumulation *)

Section AccumulateFacts.
Variable eng : Js.Engine.
Variable db : Database.
Variable fromCollective : Collective.t.

Let key := key_of eng db fromCollective.

Lemma sum_app (l l' : list Transaction.t) :
  sum_amountInHostCurrency (l ++ l')
  = sum_amountInHostCurrency l + sum_amountInHostCurrency l'.
Proof.
  induction l as [|tr l IH]; simpl; [reflexivity|]. rewrite IH. lia.
Qed.

Lemma filter_none {A} (p : A -> bool) (l : list A) :
  (forall x, In x l -> p x = false) -> filter p l = [].
Proof.
  induction l as [|x l IH]; simpl; intros H; [reflexivity|].
  rewrite (H x) by now left. apply IH. intros y Hy. apply H. now right.
Qed.

Lemma accumulated_empty : accumulated eng db fromCollective [] [].
Proof.
  repeat split; try constructor; simpl; intros; contradiction.
Qed.

Lemma accumulate_step (seen : list Transaction.t)
      (o o' : list (string * MonthInvoice.t)) (tr : Transaction.t) :
  accumulated eng db fromCollective seen o ->
  Queries.accumulate eng db fromCollective o tr = Returned o' ->
  accumulated eng db fromCollective (seen ++ [tr]) o'.
Proof.
  intros (Hnd & Hinv & Hkeys & Hhosts). unfold Queries.accumulate.
  destruct (Collective_findByPk db (Transaction.HostCollectiveId tr)) as [host|] eqn:Hhost;
    [|discriminate].
  intros [= <-].
  assert (Hkey : key tr = Queries.month_slug eng fromCollective host tr).
  { unfold key, key_of. now rewrite Hhost. }
  rewrite <- Hkey. fold key in Hinv, Hkeys.
  split; [now apply NoDup_set|]. split; [|split].
  - intros k invoice Hin. apply In_set in Hin; [|assumption].
    destruct Hin as [[-> ->] | [Hne Hin]].
    + cbn [MonthInvoice.slug MonthInvoice.FromCollectiveId MonthInvoice.totalAmount].
      split; [reflexivity|]. split; [reflexivity|]. split.
      * rewrite filter_app. cbn [filter]. fold key.
        rewrite String.eqb_refl, filed_app.
        destruct (Js.get o (key tr)) as [invoice|] eqn:Hget.
        -- apply get_Some_In in Hget.
           destruct (Hinv _ _ Hget) as (_ & _ & Htotal & _).
           now rewrite <- Htotal.
        -- apply get_None in Hget. rewrite filter_none; [reflexivity|].
           intros tr' Hin'. apply String.eqb_neq. intros E.
           apply Hget. rewrite <- E. now apply Hkeys.
      * exists tr. split; [apply in_or_app; right; now left|].
        split; reflexivity.
    + destruct (Hinv _ _ Hin) as (Hslug & Hfrom & Htotal & tr' & Hin' & Hk & Hg).
      split; [assumption|]. split; [assumption|]. split.
      * rewrite filter_app. cbn [filter]. fold key.
        replace (String.eqb (key tr) k) with false
          by (symmetry; apply String.eqb_neq; congruence).
        now rewrite app_nil_r.
      * exists tr'. split; [apply in_or_app; now left|]. now split.
  - intros tr' Hin'. apply keys_set. apply in_app_or in Hin' as [Hin' | [<- | []]].
    + right. now apply Hkeys.
    + now left.
  - intros tr' Hin'. apply in_app_or in Hin' as [Hin' | [<- | []]].
    + now apply Hhosts.
    + now rewrite Hhost.
Qed.

Lemma accumulate_all_spec (l seen : list Transaction.t)
      (o o' : list (string * MonthInvoice.t)) :
  accumulated eng db fromCollective seen o ->
  Queries.accumulate_all eng db fromCollective o l = Returned o' ->
  accumulated eng db fromCollective (seen ++ l) o'.
Proof.
  revert seen o. induction l as [|tr l IH]; intros seen o Hacc; simpl.
  - intros [= <-]. now rewrite app_nil_r.
  - destruct (Queries.accumulate eng db fromCollective o tr) as [o1|e] eqn:Hstep;
      [|discriminate].
    intros Hrest. replace (seen ++ tr :: l)%list with ((seen ++ [tr]) ++ l)%list
      by now rewrite <- app_assoc.
    apply (IH _ o1); [|assumption]. now apply (accumulate_step seen o).
Qed.

Lemma accumulate_all_returns (l : list Transaction.t)
      (o : list (string * MonthInvoice.t)) :
  hosts_resolve db l ->
  exists o', Queries.accumulate_all eng db fromCollective o l = Returned o'.
Proof.
  revert o. induction l as [|tr l IH]; intros o Hhosts; simpl.
  - now exists o.
  - unfold Queries.accumulate at 1.
    destruct (Collective_findByPk db (Transaction.HostCollectiveId tr)) eqn:Hhost.
    + apply IH. intros tr' Hin. apply Hhosts. now right.
    + exfalso. apply (Hhosts tr); [now left | assumption].
Qed.

Lemma lookup_hosts_run (l : list Transaction.t) (log : list Query) :
  Queries.lookup_hosts l log
  = ((log ++ map (fun tr => Q_Collective_findByPk (Transaction.HostCollectiveId tr)) l)%list,
     Returned tt).
Proof.
  revert log. induction l as [|tr l IH]; intros log; simpl.
  - unfold ret. now rewrite app_nil_r.
  - unfold bind, await. rewrite IH. now rewrite <- app_assoc.
Qed.

(** The resolver, for an admin of a payer that is found. *)
Lemma allInvoices_run (fromCollectiveSlug : string) (remoteUser : option User) :
  Collective_findOne_slug db fromCollectiveSlug = Some fromCollective ->
  Queries.not_admin remoteUser (Collective.id fromCollective) = false ->
  outcome (Queries.allInvoices eng db fromCollectiveSlug remoteUser)
  = match Queries.accumulate_all eng db fromCollective []
            (arrival db (payer_transactions db fromCollective)) with
    | Returned o => Returned (Js.sort Queries.by_slug_descending (map snd o))
    | Thrown e => Thrown e
    end.
Proof.
  intros Hfound Hadmin.
  unfold outcome, run, Queries.allInvoices, Queries.findAll, bind, await, throw, lift, ret.
  cbn [app]. rewrite Hfound, Hadmin. rewrite lookup_hosts_run.
  fold (payer_transactions db fromCollective).
  destruct (Queries.accumulate_all _ _ _ _ _); reflexivity.
Qed.

End AccumulateFacts.

(** ** Slugs identify year, month and host *)

Section KeyFacts.

Lemma uint_no_dot (d : Decimal.uint) :
  Js.occurs "." (NilEmpty.string_of_uint d) = false.
Proof. induction d; simpl; auto. Qed.

Lemma integer_toString_no_dot (z : Z) :
  Js.occurs "." (Js.integer_toString z) = false.
Proof.
  unfold Js.integer_toString. destruct (Z.to_int z); simpl; apply uint_no_dot.
Qed.

Lemma integer_toString_inj (z z' : Z) :
  Js.integer_toString z = Js.integer_toString z' -> z = z'.
Proof.
  unfold Js.integer_toString. intros H. apply DecimalZ.to_int_inj.
  apply (f_equal NilEmpty.int_of_string) in H. rewrite !NilEmpty.isi in H.
  now injection H.
Qed.

Lemma month2digit_no_dot (m : Z) : Js.occurs "." (Queries.month2digit m) = false.
Proof.
  unfold Queries.month2digit. destruct (m <? 10); simpl;
    apply integer_toString_no_dot.
Qed.

Lemma make_slug_inj (y y' m m' : Z) (host host' from : string) :
  1 <= m <= 12 -> 1 <= m' <= 12 ->
  make_slug (Js.integer_toString y) (Queries.month2digit m) host from
  = make_slug (Js.integer_toString y') (Queries.month2digit m') host' from ->
  y = y' /\ m = m' /\ host = host'.
Proof.
  intros Hm Hm' H. unfold make_slug in H.
  rewrite <- !(app_assoc_string (Js.integer_toString _) (Queries.month2digit _)) in H.
  apply (app_inv_separator ".") in H;
    [|rewrite occurs_app, integer_toString_no_dot, month2digit_no_dot; reflexivity ..].
  destruct H as [Hdate Hrest].
  apply app_inv_tail_length in Hdate; [|now rewrite !month_length].
  destruct Hdate as [Hy Hmm].
  apply (app_inv_tail_length host _ host') in Hrest; [|reflexivity].
  split; [now apply integer_toString_inj|].
  split; [now apply month2digit_inj | tauto].
Qed.

Lemma group_eqb_eq (g g' : Z * Z * Z) : group_eqb g g' = true <-> g = g'.
Proof.
  destruct g as [[y m] h], g' as [[y' m'] h']. unfold group_eqb.
  rewrite !andb_true_iff, !Z.eqb_eq. split.
  - intros [[-> ->] ->]. reflexivity.
  - intros [= -> -> ->]. auto.
Qed.

Variable eng : Js.Engine.
Variable db : Database.
Variable fromCollective : Collective.t.
Variable transactions : list Transaction.t.
Hypothesis consistent : slugs_identify_hosts db transactions.
Hypothesis resolved : hosts_resolve db transactions.
Hypothesis calendar : months_in_calendar eng transactions.

(** Two transactions are filed under one key exactly when they share
    year, month and host. *)
Lemma key_of_eq_iff (tr tr' : Transaction.t) :
  In tr transactions -> In tr' transactions ->
  key_of eng db fromCollective tr = key_of eng db fromCollective tr'
  <-> group_of eng tr = group_of eng tr'.
Proof.
  intros Hin Hin'. unfold key_of, group_of.
  pose proof (resolved tr Hin) as Hh. pose proof (resolved tr' Hin') as Hh'.
  pose proof (calendar tr Hin) as Hm. pose proof (calendar tr' Hin') as Hm'.
  destruct (Collective_findByPk db (Transaction.HostCollectiveId tr))
    as [host|] eqn:E; [|congruence].
  destruct (Collective_findByPk db (Transaction.HostCollectiveId tr'))
    as [host'|] eqn:E'; [|congruence].
  unfold Queries.month_slug. cbv zeta. split.
  - intros H. apply make_slug_inj in H; [|lia|lia].
    destruct H as (Hy & Hmo & Hslug).
    rewrite Hy. replace (Js.Date_getMonth eng (Transaction.createdAt tr))
      with (Js.Date_getMonth eng (Transaction.createdAt tr')) by lia.
    now rewrite (consistent tr tr' host host' Hin Hin' E E' Hslug).
  - intros [= Hy Hmo Hhost]. rewrite Hhost in E. rewrite E in E'.
    injection E' as ->. now rewrite Hy, Hmo.
Qed.

End KeyFacts.

(** ** allInvoices: one invoice per month and host *)

Section MonthlyFacts.

Lemma NoDup_map_transfer {A B C} (f : A -> B) (g : A -> C) (l : list A) :
  NoDup (map g l) ->
  (forall x y, In x l -> In y l -> f x = f y -> g x = g y) ->
  NoDup (map f l).
Proof.
  induction l as [|x l IH]; simpl; intros Hnd Hfg; [constructor|].
  inversion Hnd as [|? ? Hx Hnd']; subst. constructor.
  - intros Hin. apply in_map_iff in Hin as (y & Hy & Hin).
    apply Hx. rewrite (Hfg x y); auto. now apply in_map.
  - apply IH; [assumption|]. intros; apply Hfg; auto.
Qed.

Lemma sum_filter_perm (p : Transaction.t -> bool) (l l' : list Transaction.t) :
  Permutation l l' ->
  sum_amountInHostCurrency (filter p l) = sum_amountInHostCurrency (filter p l').
Proof.
  induction 1 as [|x l l' _ IH|x y l|l l' l'' _ IH1 _ IH2]; simpl.
  - reflexivity.
  - destruct (p x); simpl; now rewrite IH.
  - destruct (p x), (p y); simpl; lia.
  - now rewrite IH1.
Qed.

Lemma payer_transactions_spec (db : Database) (fromCollective : Collective.t)
      (tr : Transaction.t) :
  In tr (payer_transactions db fromCollective)
  <-> In tr (Transactions db)
      /\ Transaction.type tr = CREDIT
      /\ ((Transaction.FromCollectiveId tr = Collective.id fromCollective
           /\ Transaction.UsingVirtualCardFromCollectiveId tr = None)
          \/ Transaction.UsingVirtualCardFromCollectiveId tr
             = Some (Collective.id fromCollective)).
Proof.
  unfold payer_transactions. rewrite filter_In.
  unfold where_matches, billed_to. cbn [where_type where_or_collective
    where_HostCollectiveId where_createdAt].
  rewrite !andb_true_r, andb_true_iff, orb_true_iff, andb_true_iff, Z.eqb_eq.
  destruct (Transaction.type tr), (Transaction.UsingVirtualCardFromCollectiveId tr) as [c|];
    simpl; rewrite ?Z.eqb_eq; intuition (try discriminate; try congruence).
Qed.

End MonthlyFacts.

(** C1 (amended): for a payer that is found and a caller who is an
    admin of it, on a store where the host of every fetched transaction
    resolves and hosts are told apart by their slugs, [allInvoices]
    fetches exactly the CREDIT transactions with
    [FromCollectiveId = payer] and no virtual card, or with
    [UsingVirtualCardFromCollectiveId = payer], and returns a list with
    exactly one invoice for each (year, month, HostCollectiveId) that
    has such a transaction and none for any other; the [totalAmount] of
    an invoice is the sum of [amountInHostCurrency] over the fetched
    transactions of its year, month and host, as long as the absolute
    values of these amounts add up to a safe integer (the additions
    round to binary64).  This holds in whatever order the lookups of
    [Promise.map] answer. *)
Theorem allInvoices_one_invoice_per_group
        (eng : Js.Engine) (db : Database) (fromCollectiveSlug : string)
        (remoteUser : option User) (fromCollective : Collective.t) :
  Collective_findOne_slug db fromCollectiveSlug = Some fromCollective ->
  Queries.not_admin remoteUser (Collective.id fromCollective) = false ->
  let transactions := payer_transactions db fromCollective in
  hosts_resolve db transactions ->
  slugs_identify_hosts db transactions ->
  months_in_calendar eng transactions ->
  (forall tr,
      In tr transactions
      <-> In tr (Transactions db)
          /\ Transaction.type tr = CREDIT
          /\ ((Transaction.FromCollectiveId tr = Collective.id fromCollective
               /\ Transaction.UsingVirtualCardFromCollectiveId tr = None)
              \/ Transaction.UsingVirtualCardFromCollectiveId tr
                 = Some (Collective.id fromCollective)))
  /\ exists invoices,
      outcome (Queries.allInvoices eng db fromCollectiveSlug remoteUser) = Returned invoices
      /\ NoDup (map invoice_group invoices)
      /\ (forall g, In g (map invoice_group invoices) <-> in_group eng g transactions <> [])
      /\ (forall invoice,
             In invoice invoices ->
             safe_amounts (in_group eng (invoice_group invoice) transactions) ->
             MonthInvoice.totalAmount invoice
             = Js.of_Z (sum_amountInHostCurrency
                          (in_group eng (invoice_group invoice) transactions))).
Proof.
  intros Hfound Hadmin transactions Hhosts Hslugs Hcal.
  pose proof (arrival_permutes db transactions) as Hperm.
  split; [apply payer_transactions_spec|].
  set (l := arrival db transactions) in *.
  assert (Hhosts_l : hosts_resolve db l).
  { intros tr Hin. apply Hhosts. now apply (Permutation_in _ Hperm). }
  destruct (accumulate_all_returns eng db fromCollective l [] Hhosts_l) as [o Ho].
  pose proof (accumulate_all_spec eng db fromCollective l [] [] o
                (accumulated_empty eng db fromCollective) Ho) as Hacc.
  cbn [app] in Hacc. destruct Hacc as (Hnd & Hinv & Hkeys & _).
  assert (Hkey : forall tr tr', In tr l -> In tr' l ->
                   key_of eng db fromCollective tr = key_of eng db fromCollective tr'
                   <-> group_of eng tr = group_of eng tr').
  { intros tr tr' Hin Hin'.
    apply (key_of_eq_iff eng db fromCollective transactions Hslugs Hhosts Hcal);
      now apply (Permutation_in _ Hperm). }
  exists (Js.sort Queries.by_slug_descending (map snd o)).
  split; [rewrite (allInvoices_run eng db fromCollective) by assumption;
          fold transactions; fold l; now rewrite Ho|].
  pose proof (sort_perm Queries.by_slug_descending (map snd o)) as Hsort.
  assert (Hmem : forall invoice,
             In invoice (Js.sort Queries.by_slug_descending (map snd o))
             <-> exists k, In (k, invoice) o).
  { intros invoice. split.
    - intros Hin. apply (Permutation_in _ Hsort) in Hin.
      apply in_map_iff in Hin as ([k inv] & <- & Hin). now exists k.
    - intros [k Hin]. apply (Permutation_in _ (Permutation_sym Hsort)).
      apply in_map_iff. now exists (k, invoice). }
  split; [|split].
  - apply (Permutation_NoDup (Permutation_map invoice_group (Permutation_sym Hsort))).
    rewrite map_map. apply (NoDup_map_transfer _ fst); [exact Hnd|].
    intros [k inv] [k' inv'] Hin Hin' Hg. simpl in *.
    destruct (Hinv _ _ Hin) as (_ & _ & _ & tr & Htr & <- & Hgr).
    destruct (Hinv _ _ Hin') as (_ & _ & _ & tr' & Htr' & <- & Hgr').
    apply Hkey; congruence.
  - intros g. rewrite in_map_iff. split.
    + intros (invoice & <- & Hin). apply Hmem in Hin as [k Hin].
      destruct (Hinv _ _ Hin) as (_ & _ & _ & tr & Htr & _ & Hgr).
      intros Hempty.
      assert (Hin' : In tr (in_group eng (invoice_group invoice) transactions)).
      { apply filter_In. split; [now apply (Permutation_in _ Hperm)|].
        apply group_eqb_eq. congruence. }
      rewrite Hempty in Hin'. contradiction.
    + intros Hne. destruct (in_group eng g transactions) as [|tr rest] eqn:E;
        [congruence|].
      assert (Hin : In tr (in_group eng g transactions)) by (rewrite E; now left).
      apply filter_In in Hin as [Hin Hg]. apply group_eqb_eq in Hg.
      apply (Permutation_in _ (Permutation_sym Hperm)) in Hin.
      pose proof (Hkeys tr Hin) as Hk. apply in_map_iff in Hk as ([k invoice] & Hfst & Hk).
      simpl in Hfst. subst k. exists invoice. split; [|apply Hmem; eauto].
      destruct (Hinv _ _ Hk) as (_ & _ & _ & tr' & Htr' & Hkk & Hgr).
      rewrite Hgr, <- Hg. now apply Hkey.
  - intros invoice Hin Hsafe. apply Hmem in Hin as [k Hin].
    destruct (Hinv _ _ Hin) as (_ & _ & Htotal & tr & Htr & <- & Hgr).
    unfold safe_amounts, in_group in *.
    rewrite <- (magnitude_filter_perm _ l transactions Hperm) in Hsafe.
    rewrite <- (sum_filter_perm _ l transactions Hperm).
    replace (filter (fun tr' => String.eqb (key_of eng db fromCollective tr')
                                           (key_of eng db fromCollective tr)) l)
      with (filter (fun tr' => group_eqb (group_of eng tr') (invoice_group invoice)) l)
      in Htotal.
    + destruct (filter _ l) as [|tr0 rest]; [discriminate Htotal|].
      rewrite (filed_exact tr0 rest Hsafe) in Htotal. now injection Htotal.
    + apply filter_ext_in. intros tr' Htr'.
      destruct (String.eqb_spec (key_of eng db fromCollective tr')
                                (key_of eng db fromCollective tr)) as [E | E].
      * apply group_eqb_eq. rewrite Hgr. now apply Hkey.
      * apply not_true_is_false. intros Hg. apply group_eqb_eq in Hg.
        apply E. apply Hkey; congruence.
Qed.

Lemma allInvoices_one_invoice_per_group_witness :
  exists invoices,
    outcome (Queries.allInvoices Fixture.utc Fixture.db "xdamman"
               (Some Fixture.admin_of_xdamman)) = Returned invoices
    /\ NoDup (map invoice_group invoices)
    /\ (forall g, In g (map invoice_group invoices)
                  <-> in_group Fixture.utc g (payer_transactions Fixture.db Fixture.xdamman) <> [])
    /\ (forall invoice,
           In invoice invoices ->
           MonthInvoice.totalAmount invoice
           = Js.of_Z (sum_amountInHostCurrency
                        (in_group Fixture.utc (invoice_group invoice)
                                  (payer_transactions Fixture.db Fixture.xdamman)))).
Proof.
  assert (Hhosts : hosts_resolve Fixture.db (payer_transactions Fixture.db Fixture.xdamman)).
  { intros tr Hin. vm_compute in Hin.
    repeat (destruct Hin as [<- | Hin]); try discriminate. contradiction. }
  assert (Hslugs : slugs_identify_hosts
                     Fixture.db (payer_transactions Fixture.db Fixture.xdamman)).
  { intros tr tr' host host' Hin Hin' _ _ _. vm_compute in Hin, Hin'.
    repeat (destruct Hin as [<- | Hin]); try contradiction;
      repeat (destruct Hin' as [<- | Hin']); try contradiction; reflexivity. }
  assert (Hcal : months_in_calendar
                   Fixture.utc (payer_transactions Fixture.db Fixture.xdamman)).
  { intros tr Hin. vm_compute in Hin.
    repeat (destruct Hin as [<- | Hin]); try contradiction; vm_compute;
      split; discriminate. }
  destruct (proj2 (allInvoices_one_invoice_per_group
                     Fixture.utc Fixture.db "xdamman" (Some Fixture.admin_of_xdamman)
                     Fixture.xdamman eq_refl eq_refl Hhosts Hslugs Hcal))
    as (invoices & Hout & Hnd & Hgroups & Htotal).
  exists invoices. split; [exact Hout|]. split; [exact Hnd|]. split; [exact Hgroups|].
  intros invoice Hin. apply Htotal; [exact Hin|].
    apply safe_amounts_in_group. vm_compute. discriminate.
Defined.

(** C1 as stated fails on three kinds of stores.  When the host of a
    fetched transaction is not found, the resolver throws a TypeError
    and returns no invoice at all, though September 2017 has a
    transaction.  When the amounts of a month do not add up to a safe
    integer, the total is the rounded one: 2^53 for 2^53 and 1.  When
    two hosts go under one slug, their transactions of one month are
    filed under one key and come back as one invoice for two
    (year, month, HostCollectiveId). *)
Lemma one_invoice_per_group_fails :
  (in_group Fixture.utc (2017, 9, 2)
            (payer_transactions Fixture.orphaned Fixture.xdamman) <> []
   /\ outcome (Queries.allInvoices Fixture.utc Fixture.orphaned "xdamman"
                 (Some Fixture.admin_of_xdamman)) = Thrown TypeError)
  /\ (exists invoice,
         outcome (Queries.allInvoices Fixture.utc Fixture.large "xdamman"
                    (Some Fixture.admin_of_xdamman)) = Returned [invoice]
         /\ sum_amountInHostCurrency
              (in_group Fixture.utc (invoice_group invoice)
                        (payer_transactions Fixture.large Fixture.xdamman))
            = 2 ^ 53 + 1
         /\ MonthInvoice.totalAmount invoice = Js.of_Z (2 ^ 53))
  /\ (exists invoice,
         outcome (Queries.allInvoices Fixture.utc Fixture.namesakes "xdamman"
                    (Some Fixture.admin_of_xdamman)) = Returned [invoice]
         /\ in_group Fixture.utc (2017, 9, 2)
                     (payer_transactions Fixture.namesakes Fixture.xdamman) <> []
         /\ in_group Fixture.utc (2017, 9, 4)
                     (payer_transactions Fixture.namesakes Fixture.xdamman) <> []).
Proof.
  split; [|split].
  - split; [vm_compute; discriminate | vm_compute; reflexivity].
  - eexists. split; [vm_compute; reflexivity|].
    split; vm_compute; reflexivity.
  - eexists. split; [vm_compute; reflexivity|].
    split; vm_compute; discriminate.
Qed.

(** ** Order of slugs *)

Section OrderFacts.

Lemma ltb_lt (s t : string) : String.ltb s t = true <-> String_as_OT.lt s t.
Proof.
  unfold String.ltb. rewrite <- String_as_OT.cmp_lt.
  change String_as_OT.cmp with String.compare.
  destruct (String.compare s t); split; congruence.
Qed.

Lemma ltb_trans (s t u : string) :
  String.ltb s t = true -> String.ltb t u = true -> String.ltb s u = true.
Proof. rewrite !ltb_lt. apply String_as_OT.lt_trans. Qed.

Lemma ltb_asym (s t : string) : String.ltb s t = true -> String.ltb t s = false.
Proof.
  unfold String.ltb. rewrite (String.compare_antisym s t).
  destruct (String.compare t s); simpl; congruence.
Qed.

Lemma ltb_irrefl (s : string) : String.ltb s s = false.
Proof.
  destruct (String.ltb s s) eqn:E; [|reflexivity].
  pose proof (ltb_asym s s E). congruence.
Qed.

Lemma ltb_total (s t : string) :
  String.ltb s t = false -> s <> t -> String.ltb t s = true.
Proof.
  unfold String.ltb. rewrite (String.compare_antisym s t). intros H Hne.
  destruct (String.compare t s) eqn:E; simpl in *; try congruence.
  exfalso. apply Hne. symmetry. now apply String.compare_eq_iff.
Qed.

Lemma not_ltb_trans (s t u : string) :
  String.ltb s t = false -> String.ltb t u = false -> String.ltb s u = false.
Proof.
  intros Hst Htu. destruct (String.ltb s u) eqn:Hsu; [|reflexivity].
  destruct (String.eqb_spec s t) as [-> | Hne]; [congruence|].
  pose proof (ltb_total s t Hst Hne) as Hts.
  pose proof (ltb_trans t s u Hts Hsu). congruence.
Qed.

(** The order of two texts of one length decides the order of
    whatever they are continued with. *)
Lemma ltb_app (k k' r r' : string) :
  String.length k = String.length k' ->
  String.ltb k k' = true -> String.ltb (k ++ r) (k' ++ r') = true.
Proof.
  unfold String.ltb. revert k'.
  induction k as [|c k IH]; intros [|c' k'] Hl; simpl in *; try discriminate.
  injection Hl as Hl. destruct (Ascii.compare c c'); auto.
Qed.

End OrderFacts.

Section MonthOrder.

Lemma year_text_steps (y : Z) :
  1000 <= y <= 9999 -> year_text_step y = true.
Proof.
  intros H. apply (all_from_spec year_text_step (Z.to_nat 9000) 1000); [|lia].
  vm_compute. reflexivity.
Qed.

Lemma year_text_length (y : Z) :
  1000 <= y <= 9999 -> String.length (Js.integer_toString y) = 4%nat.
Proof.
  intros H. apply year_text_steps in H. unfold year_text_step in H.
  apply andb_true_iff in H as [H _]. now apply Nat.eqb_eq.
Qed.

Lemma year_text_next (y : Z) :
  1000 <= y < 9999 ->
  String.ltb (Js.integer_toString y) (Js.integer_toString (y + 1)) = true.
Proof.
  intros H. assert (H' : 1000 <= y <= 9999) by lia.
  apply year_text_steps in H'. unfold year_text_step in H'.
  apply andb_true_iff in H' as [_ H']. apply orb_true_iff in H' as [H' | H'];
    [apply Z.eqb_eq in H'; lia | exact H'].
Qed.

Lemma year_text_increasing (n : nat) (y : Z) :
  1000 <= y -> y + 1 + Z.of_nat n <= 9999 ->
  String.ltb (Js.integer_toString y) (Js.integer_toString (y + 1 + Z.of_nat n)) = true.
Proof.
  induction n as [|n IH]; intros Hlo Hhi.
  - replace (y + 1 + Z.of_nat 0) with (y + 1) by lia. apply year_text_next. lia.
  - apply (ltb_trans _ (Js.integer_toString (y + 1 + Z.of_nat n))); [apply IH; lia|].
    replace (y + 1 + Z.of_nat (S n)) with (y + 1 + Z.of_nat n + 1) by lia.
    apply year_text_next. lia.
Qed.

Lemma month_text_increasing (m m' : Z) :
  1 <= m <= 12 -> 1 <= m' <= 12 -> m < m' ->
  String.ltb (Queries.month2digit m) (Queries.month2digit m') = true.
Proof.
  intros H H' Hlt. apply month_cases in H. apply month_cases in H'.
  repeat (destruct H as [-> | H]); try subst m;
    repeat (destruct H' as [-> | H']); try subst m'; reflexivity || lia.
Qed.

Lemma compare_app_same (p a b : string) :
  String.compare (p ++ a) (p ++ b) = String.compare a b.
Proof.
  induction p as [|c p IH]; simpl; [reflexivity|].
  assert (E : Ascii.compare c c = Eq).
  { unfold Ascii.compare. apply N.compare_refl. }
  now rewrite E.
Qed.

(** Between years of four digits, an earlier month makes a smaller
    slug, whatever the hosts. *)
Lemma make_slug_increasing (y m y' m' : Z) (host host' from from' : string) :
  1000 <= y <= 9999 -> 1000 <= y' <= 9999 -> 1 <= m <= 12 -> 1 <= m' <= 12 ->
  month_index y m < month_index y' m' ->
  String.ltb (make_slug (Js.integer_toString y) (Queries.month2digit m) host from)
             (make_slug (Js.integer_toString y') (Queries.month2digit m') host' from')
  = true.
Proof.
  intros Hy Hy' Hm Hm' Hlt. unfold make_slug, month_index in *.
  destruct (Z.eq_dec y y') as [<- | Hne].
  - unfold String.ltb. rewrite compare_app_same.
    apply (ltb_app (Queries.month2digit m) (Queries.month2digit m'));
      [now rewrite !month_length | apply month_text_increasing; lia].
  - apply ltb_app; [now rewrite !year_text_length|].
    replace y' with (y + 1 + Z.of_nat (Z.to_nat (y' - y - 1))) by lia.
    apply year_text_increasing; lia.
Qed.

End MonthOrder.

(** ** allInvoices: the order of the list *)

Section SortedFacts.
Variable eng : Js.Engine.
Variable db : Database.

Lemma allInvoices_returned (fromCollectiveSlug : string) (remoteUser : option User)
      (invoices : list MonthInvoice.t) :
  outcome (Queries.allInvoices eng db fromCollectiveSlug remoteUser) = Returned invoices ->
  exists fromCollective o,
    Queries.accumulate_all eng db fromCollective []
      (arrival db (payer_transactions db fromCollective)) = Returned o
    /\ invoices = Js.sort Queries.by_slug_descending (map snd o).
Proof.
  unfold outcome, run, Queries.allInvoices, Queries.findAll, bind, await, throw, lift, ret.
  cbn [app].
  destruct (Collective_findOne_slug db fromCollectiveSlug) as [fromCollective|];
    [|discriminate].
  destruct (Queries.not_admin remoteUser (Collective.id fromCollective));
    [discriminate|].
  rewrite lookup_hosts_run. fold (payer_transactions db fromCollective).
  destruct (Queries.accumulate_all _ _ _ _ _) as [o|e] eqn:Ho; [|discriminate].
  cbn [snd]. intros [= <-]. now exists fromCollective, o.
Qed.

Lemma slug_ge_trans : Relations_1.Transitive slug_ge.
Proof.
  intros a b c. unfold slug_ge, Js.ge. rewrite !negb_true_iff.
  apply not_ltb_trans.
Qed.

Lemma sort_by_slug_sorted (l : list MonthInvoice.t) :
  Sorted slug_ge (Js.sort Queries.by_slug_descending l).
Proof.
  apply sort_sorted; intros a b; unfold Queries.by_slug_descending, slug_ge, Js.gt, Js.ge, Js.lt.
  - destruct (String.ltb (MonthInvoice.slug b) (MonthInvoice.slug a)) eqn:E;
      [|discriminate].
    intros _. now rewrite (ltb_asym _ _ E).
  - destruct (String.ltb (MonthInvoice.slug b) (MonthInvoice.slug a)) eqn:E;
      [discriminate|reflexivity].
Qed.

Lemma StronglySorted_impl_in {A} (R R' : A -> A -> Prop) (l : list A) :
  NoDup l ->
  (forall a b, In a l -> In b l -> a <> b -> R a b -> R' a b) ->
  StronglySorted R l -> StronglySorted R' l.
Proof.
  induction l as [|x l IH]; intros Hnd Himpl Hs; [constructor|].
  apply StronglySorted_inv in Hs as [Hs Hall].
  inversion Hnd as [|? ? Hx Hnd']; subst. constructor.
  - apply IH; [assumption | | assumption].
    intros a b Ha Hb. apply Himpl; now right.
  - rewrite Forall_forall in *. intros b Hb.
    apply Himpl; [now left | now right | | now apply Hall].
    intros ->. contradiction.
Qed.

Variable fromCollective : Collective.t.

(** An accumulated invoice carries the slug made of its own year and
    month and of the slug of its host. *)
Lemma accumulated_slug (seen : list Transaction.t)
      (o : list (string * MonthInvoice.t)) (k : string) (invoice : MonthInvoice.t) :
  accumulated eng db fromCollective seen o -> In (k, invoice) o ->
  exists host,
    Collective_findByPk db (MonthInvoice.HostCollectiveId invoice) = Some host
    /\ MonthInvoice.slug invoice
       = make_slug (Js.integer_toString (MonthInvoice.year invoice))
                   (Queries.month2digit (MonthInvoice.month invoice))
                   (Collective.slug host) (Collective.slug fromCollective).
Proof.
  intros (_ & Hinv & _ & Hhosts) Hin.
  destruct (Hinv _ _ Hin) as (Hslug & _ & _ & tr & Htr & Hkey & Hgroup).
  pose proof (Hhosts tr Htr) as Hhost. unfold key_of in Hkey.
  unfold invoice_group, group_of in Hgroup. injection Hgroup as Hy Hm Hh.
  destruct (Collective_findByPk db (Transaction.HostCollectiveId tr)) as [host|] eqn:E;
    [|congruence].
  exists host. split; [now rewrite Hh|].
  rewrite Hslug, <- Hkey, Hy, Hm. reflexivity.
Qed.

Lemma accumulated_slugs_differ (seen : list Transaction.t)
      (o : list (string * MonthInvoice.t)) :
  accumulated eng db fromCollective seen o ->
  NoDup (map MonthInvoice.slug (map snd o)).
Proof.
  intros (Hnd & Hinv & _). rewrite map_map.
  apply (NoDup_map_transfer _ fst); [exact Hnd|].
  intros [k a] [k' b] Ha Hb. simpl.
  destruct (Hinv _ _ Ha) as (<- & _). destruct (Hinv _ _ Hb) as (<- & _). auto.
Qed.

End SortedFacts.

(** C9: the list [allInvoices] returns is sorted by slug, descending in
    the order of code units: [a.slug >= b.slug] for every invoice [a]
    next to and before an invoice [b], and even [a.slug > b.slug] for
    every [a] anywhere before [b], no two slugs being equal.  Between
    two invoices of one host, with years of four digits, the one placed
    first is of the later month. *)
Theorem allInvoices_sorted_by_slug
        (eng : Js.Engine) (db : Database) (fromCollectiveSlug : string)
        (remoteUser : option User) (invoices : list MonthInvoice.t) :
  outcome (Queries.allInvoices eng db fromCollectiveSlug remoteUser) = Returned invoices ->
  Sorted slug_ge invoices
  /\ StronglySorted slug_gt invoices
  /\ NoDup (map MonthInvoice.slug invoices)
  /\ StronglySorted later_month_of_host invoices.
Proof.
  intros Hret.
  destruct (allInvoices_returned eng db _ _ _ Hret) as (fromCollective & o & Ho & ->).
  pose proof (accumulate_all_spec eng db fromCollective _ [] [] o
                (accumulated_empty eng db fromCollective) Ho) as Hacc.
  pose proof (sort_perm Queries.by_slug_descending (map snd o)) as Hperm.
  pose proof (sort_by_slug_sorted (map snd o)) as Hsorted.
  assert (Hslugs : NoDup (map MonthInvoice.slug
                            (Js.sort Queries.by_slug_descending (map snd o)))).
  { apply (Permutation_NoDup (Permutation_map _ (Permutation_sym Hperm))).
    exact (accumulated_slugs_differ eng db fromCollective _ o Hacc). }
  assert (Hnd : NoDup (Js.sort Queries.by_slug_descending (map snd o))).
  { now apply NoDup_map_inv in Hslugs. }
  assert (Hneq : forall a b,
             In a (Js.sort Queries.by_slug_descending (map snd o)) ->
             In b (Js.sort Queries.by_slug_descending (map snd o)) ->
             a <> b -> MonthInvoice.slug a <> MonthInvoice.slug b).
  { intros a b Ha Hb Hab E. apply Hab.
    clear - Hslugs Ha Hb E.
    induction (Js.sort Queries.by_slug_descending (map snd o)) as [|x l IH];
      [contradiction|].
    simpl in Hslugs. inversion Hslugs as [|? ? Hx Hl]; subst.
    destruct Ha as [-> | Ha], Hb as [-> | Hb]; auto.
    - exfalso. apply Hx. rewrite E. now apply in_map.
    - exfalso. apply Hx. rewrite <- E. now apply in_map. }
  assert (Hstrict : StronglySorted slug_gt
                      (Js.sort Queries.by_slug_descending (map snd o))).
  { apply (StronglySorted_impl_in slug_ge); [assumption| |].
    - intros a b Ha Hb Hab Hge. unfold slug_ge, Js.ge in Hge. unfold slug_gt, Js.gt, Js.lt.
      apply negb_true_iff in Hge. apply ltb_total; [assumption|].
      now apply Hneq.
    - apply Sorted_StronglySorted; [apply slug_ge_trans | assumption]. }
  split; [assumption|]. split; [assumption|]. split; [assumption|].
  apply (StronglySorted_impl_in slug_gt); [assumption| |assumption].
  intros a b Ha Hb Hab Hgt Hhost Hya Hma Hyb Hmb.
  apply (Permutation_in _ Hperm) in Ha. apply (Permutation_in _ Hperm) in Hb.
  apply in_map_iff in Ha as ([ka a'] & Hfa & Ha). simpl in Hfa. subst a'.
  apply in_map_iff in Hb as ([kb b'] & Hfb & Hb). simpl in Hfb. subst b'.
  destruct (accumulated_slug eng db fromCollective _ o ka a Hacc Ha) as (ha & Hha & Hsa).
  destruct (accumulated_slug eng db fromCollective _ o kb b Hacc Hb) as (hb & Hhb & Hsb).
  rewrite Hhost, Hhb in Hha. injection Hha as <-.
  unfold slug_gt, Js.gt, Js.lt in Hgt. rewrite Hsa, Hsb in Hgt.
  destruct (Z.lt_trichotomy (month_index (MonthInvoice.year b) (MonthInvoice.month b))
                            (month_index (MonthInvoice.year a) (MonthInvoice.month a)))
    as [Hlt | [Heq | Hlt]]; [assumption | exfalso ..].
  - unfold month_index in Heq.
    assert (MonthInvoice.year a = MonthInvoice.year b) as Ey by lia.
    assert (MonthInvoice.month a = MonthInvoice.month b) as Em by lia.
    rewrite Ey, Em, ltb_irrefl in Hgt. discriminate.
  - pose proof (make_slug_increasing _ _ _ _ (Collective.slug hb) (Collective.slug hb)
                  (Collective.slug fromCollective) (Collective.slug fromCollective)
                  Hya Hyb Hma Hmb Hlt) as Hinc.
    apply ltb_asym in Hinc. congruence.
Qed.

Lemma allInvoices_sorted_by_slug_witness :
  exists invoices,
    outcome (Queries.allInvoices Fixture.utc Fixture.db "xdamman"
               (Some Fixture.admin_of_xdamman)) = Returned invoices
    /\ map MonthInvoice.slug invoices
       = ["201711.brusselstogether-host.xdamman";
          "201710.brusselstogether-host.xdamman";
          "201709.brusselstogether-host.xdamman"]
    /\ map MonthInvoice.totalAmount invoices = map Js.of_Z [1000; 1500; 1000]
    /\ Sorted slug_ge invoices.
Proof.
  eexists. split; [reflexivity|]. split; [reflexivity|]. split; [reflexivity|].
  apply (allInvoices_sorted_by_slug Fixture.utc Fixture.db "xdamman"
           (Some Fixture.admin_of_xdamman)).
  reflexivity.
Defined.


(** * Further properties of the invoice code *)

(** ** parseInvoiceSlug on slugs that are not well formed *)

Section ParseEdges.
Variable eng : Js.Engine.

Lemma take_min_length (n : nat) (s : string) :
  Js.take (Nat.min n (String.length s)) s = Js.take n s.
Proof.
  revert n; induction s as [|c s IH]; intros [|n]; simpl; try reflexivity.
  now rewrite IH.
Qed.

Lemma take_length_le (n : nat) (s : string) :
  (String.length (Js.take n s) <= n)%nat.
Proof.
  revert n; induction s as [|c s IH]; intros [|n]; simpl; try lia.
  specialize (IH n). lia.
Qed.

Lemma substr_length_le (s : string) (start : Z) (len : nat) :
  (String.length (Js.substr s start (Some (Z.of_nat len))) <= len)%nat.
Proof.
  unfold Js.substr. etransitivity; [apply take_length_le|]. lia.
Qed.

Lemma lastIndexOf_absent (s : string) (c : ascii) :
  Js.occurs c s = false -> Js.lastIndexOf s c = -1.
Proof. intros H. unfold Js.lastIndexOf. now apply lastIndexOf_from_absent. Qed.

Lemma drop_0 (s : string) : Js.drop 0 s = s.
Proof. now destruct s. Qed.

Lemma substring_without_dot (s : string) :
  Js.occurs "." s = false ->
  Js.substring s 7 (Js.lastIndexOf s ".") = Js.take 7 s.
Proof.
  intros H. rewrite lastIndexOf_absent by assumption.
  unfold Js.substring, Js.clamp.
  replace (Z.to_nat (Z.min (Z.max (-1) 0) (Z.of_nat (String.length s)))) with 0%nat by lia.
  replace (Z.to_nat (Z.min (Z.max 7 0) (Z.of_nat (String.length s))))
    with (Nat.min 7 (String.length s)) by lia.
  rewrite Nat.min_0_r, Nat.max_0_r, Nat.sub_0_r, drop_0. apply take_min_length.
Qed.

Lemma substr_from_start (s : string) : Js.substr s 0 None = s.
Proof.
  unfold Js.substr. cbn [Z.ltb Z.compare].
  replace (Z.to_nat (Z.min 0 (Z.of_nat (String.length s)))) with 0%nat by lia.
  apply drop_0.
Qed.

End ParseEdges.

Lemma Returned_inj {A} (a b : A) : Returned a = Returned b -> a = b.
Proof. now intros [= ->]. Qed.

(** X1: whatever the slug, when [parseInvoiceSlug] returns, the
    [dateFrom] it returns passes [validateDate], the host it returns is
    not empty, and [dateTo] carries the year of [dateFrom]. *)
Theorem parsed_dateFrom_passes_validateDate
        (eng : Js.Engine) (slug : string) (parsed : InvoiceInput.t) :
  Queries.parseInvoiceSlug eng slug = Returned parsed ->
  Queries.validateDate (InvoiceInput.dateFrom parsed) = Returned tt
  /\ InvoiceInput.collectiveSlug parsed <> ""
  /\ DateObj.year (InvoiceInput.dateTo parsed) = DateObj.year (InvoiceInput.dateFrom parsed).
Proof.
  unfold Queries.parseInvoiceSlug. cbv zeta.
  destruct (Js.falsy _ || _ || _) eqn:E; [discriminate|].
  intros H. apply Returned_inj in H. subst parsed.
  apply orb_false_iff in E as [E Hmonth].
  apply orb_false_iff in E as [Hhost Hyear].
  split; [|split].
  - unfold Queries.validateDate. cbn [InvoiceInput.dateFrom DateObj.year DateObj.month].
    now rewrite Hyear, Hmonth.
  - cbn [InvoiceInput.collectiveSlug]. now apply String.eqb_neq.
  - reflexivity.
Qed.

Lemma parsed_dateFrom_passes_validateDate_witness :
  Queries.validateDate
    {| DateObj.year := Js.Str "2017"; DateObj.month := Js.Str "10" |} = Returned tt.
Proof.
  refine (proj1 (parsed_dateFrom_passes_validateDate
                   Fixture.utc "201710.brusselstogether-host.xdamman" _ eq_refl)).
Defined.

(** X2: a slug [YYYYMM..from] with nothing between its two dots, and no
    dot in [from], is rejected with the ValidationFailed error of
    [parseInvoiceSlug], whatever the year and the month. *)
Theorem empty_host_is_rejected (eng : Js.Engine) (yyyy mm from : string) :
  String.length yyyy = 4%nat -> String.length mm = 2%nat ->
  Js.occurs "." from = false ->
  Queries.parseInvoiceSlug eng (make_slug yyyy mm "" from) = Thrown invalid_slug.
Proof.
  intros Hy Hm Hfrom. unfold Queries.parseInvoiceSlug. cbv zeta.
  now rewrite (slug_host yyyy mm "" from Hy Hm Hfrom).
Qed.

Lemma empty_host_is_rejected_witness :
  Queries.parseInvoiceSlug Fixture.utc "201710..xdamman" = Thrown invalid_slug.
Proof.
  apply (empty_host_is_rejected Fixture.utc "2017" "10" "xdamman"); reflexivity.
Defined.

(** X3: a slug without any dot is not rejected for that: when its year
    and month pass, [parseInvoiceSlug] returns its first seven
    characters as the host and the whole slug as the payer. *)
Theorem slug_without_dot_is_parsed
        (eng : Js.Engine) (slug : string) :
  Js.occurs "." slug = false ->
  (forall parsed,
      Queries.parseInvoiceSlug eng slug = Returned parsed ->
      InvoiceInput.collectiveSlug parsed = Js.take 7 slug
      /\ InvoiceInput.fromCollectiveSlug parsed = slug)
  /\ (Queries.parseInvoiceSlug eng slug = Thrown invalid_slug
      <-> (slug = ""
           \/ Js.lt (Js.Str (Js.substr slug 0 (Some 4))) (Js.Num (Js.of_Z 2015)) = true
           \/ month_out_of_bounds (Js.Str (Js.substr slug 4 (Some 2))) = true)).
Proof.
  intros Hdot. unfold Queries.parseInvoiceSlug. cbv zeta.
  rewrite (substring_without_dot slug Hdot), (lastIndexOf_absent slug "." Hdot).
  change (-1 + 1) with 0. rewrite substr_from_start.
  fold (month_out_of_bounds (Js.Str (Js.substr slug 4 (Some 2)))).
  assert (Hempty : Js.falsy (Js.take 7 slug) = true <-> slug = "").
  { unfold Js.falsy. rewrite String.eqb_eq. destruct slug; simpl; split; congruence. }
  split.
  - intros parsed. destruct (_ || _ || _); [discriminate|].
    intros H. apply Returned_inj in H. subst parsed. now split.
  - destruct (Js.falsy (Js.take 7 slug)) eqn:E1;
      destruct (Js.lt (Js.Str (Js.substr slug 0 (Some 4))) (Js.Num (Js.of_Z 2015))) eqn:E2;
      destruct (month_out_of_bounds (Js.Str (Js.substr slug 4 (Some 2)))) eqn:E3;
      cbn [orb]; split; intros H; auto;
      try discriminate H; try (left; now apply Hempty).
    destruct H as [H | [H | H]]; try discriminate.
    apply Hempty in H. discriminate.
Qed.

Lemma slug_without_dot_is_parsed_witness :
  exists parsed,
    Queries.parseInvoiceSlug Fixture.utc "201710xdamman" = Returned parsed
    /\ InvoiceInput.collectiveSlug parsed = "201710x"
    /\ InvoiceInput.fromCollectiveSlug parsed = "201710xdamman".
Proof.
  eexists. split; [reflexivity|].
  exact (proj1 (slug_without_dot_is_parsed Fixture.utc "201710xdamman" eq_refl) _ eq_refl).
Defined.

(** ** The month after the month of a slug *)

Section MonthAfter.

Lemma all_ascii_complete (c : ascii) : In c all_ascii.
Proof.
  unfold all_ascii. rewrite <- (ascii_nat_embedding c). apply in_map.
  apply in_seq. pose proof (nat_ascii_bounded c). lia.
Qed.

Lemma short_texts_complete (s : string) :
  (String.length s <= 2)%nat -> In s short_texts.
Proof.
  unfold short_texts. destruct s as [|c [|d [|e s]]]; simpl String.length; intros H.
  - now left.
  - right. apply in_or_app. left.
    apply (in_map (fun c => String c "")). apply all_ascii_complete.
  - right. apply in_or_app. right. apply in_flat_map. exists c.
    split; [apply all_ascii_complete|].
    apply (in_map (fun d => String c (String d ""))). apply all_ascii_complete.
  - lia.
Qed.

Lemma month_after_verdicts : forallb month_after_verdict short_texts = true.
Proof. vm_compute. reflexivity. Qed.

Lemma Number_toString_integer_spec (eng : Js.Engine) (n : Js.Number) (s : string) :
  Number_toString_integer n = Some s -> Js.Number_toString eng n = s.
Proof.
  destruct n as [| | |q]; simpl; try (now intros [= <-]).
  destruct (_ && _)%bool; [now intros [= <-] | discriminate].
Qed.

End MonthAfter.

(** X4: when [parseInvoiceSlug] returns, the [dateTo] it returns fails
    [validateDate] exactly when the two characters of the month are
    ["12"]; for every other slug it lets through, [dateTo] passes. *)
Theorem parsed_dateTo_fails_only_in_december
        (eng : Js.Engine) (slug : string) (parsed : InvoiceInput.t) :
  Queries.parseInvoiceSlug eng slug = Returned parsed ->
  (Queries.validateDate (InvoiceInput.dateTo parsed) = Thrown invalid_date
   <-> Js.substr slug 4 (Some 2) = "12")
  /\ (Js.substr slug 4 (Some 2) <> "12" ->
      Queries.validateDate (InvoiceInput.dateTo parsed) = Returned tt).
Proof.
  unfold Queries.parseInvoiceSlug. cbv zeta.
  destruct (Js.falsy _ || _ || _) eqn:E; [discriminate|].
  intros H. apply Returned_inj in H. subst parsed.
  apply orb_false_iff in E as [E Hmonth]. apply orb_false_iff in E as [_ Hyear].
  set (mm := Js.substr slug 4 (Some 2)) in *.
  assert (Hshort : In mm short_texts).
  { apply short_texts_complete. apply (substr_length_le slug 4 2). }
  pose proof month_after_verdicts as Hall. rewrite forallb_forall in Hall.
  specialize (Hall mm Hshort). unfold month_after_verdict in Hall.
  fold (month_out_of_bounds (Js.Str mm)) in Hmonth. rewrite Hmonth in Hall.
  destruct (Number_toString_integer (Js.num_add (Js.StringToNumber mm) (Js.of_Z 1)))
    as [next|] eqn:Hnext; [|discriminate].
  apply (Number_toString_integer_spec eng) in Hnext.
  apply Bool.eqb_prop in Hall.
  assert (Hto : Queries.validateDate
                  {| DateObj.year := Js.Str (Js.substr slug 0 (Some 4));
                     DateObj.month := Js.Str (Js.Number_toString eng
                        (Js.num_add (Js.StringToNumber mm) (Js.of_Z 1))) |}
                = if String.eqb mm "12" then Thrown invalid_date else Returned tt).
  { unfold Queries.validateDate. cbn [DateObj.year DateObj.month].
    rewrite Hyear, Hnext. cbn [orb].
    fold (month_out_of_bounds (Js.Str next)). now rewrite Hall. }
  cbn [InvoiceInput.dateTo]. rewrite Hto.
  destruct (String.eqb_spec mm "12") as [-> | Hne]; split;
    try (split; [reflexivity || discriminate | reflexivity || congruence]);
    try congruence; try reflexivity.
Qed.

Lemma parsed_dateTo_fails_only_in_december_witness :
  Queries.validateDate
    {| DateObj.year := Js.Str "2017"; DateObj.month := Js.Str "12" |} = Returned tt.
Proof.
  refine (proj2 (parsed_dateTo_fails_only_in_december
                   Fixture.utc "201711.brusselstogether-host.xdamman" _ eq_refl) _).
  vm_compute. discriminate.
Defined.

(** ** allInvoices: what it sends, and when it fails *)

Section AllInvoicesEdges.
Variable eng : Js.Engine.
Variable db : Database.

Lemma allInvoices_run_log (fromCollectiveSlug : string) (remoteUser : option User)
      (fromCollective : Collective.t) :
  Collective_findOne_slug db fromCollectiveSlug = Some fromCollective ->
  Queries.not_admin remoteUser (Collective.id fromCollective) = false ->
  queries_sent (Queries.allInvoices eng db fromCollectiveSlug remoteUser)
  = (Q_Collective_findOne fromCollectiveSlug
       :: Q_Transaction_findAll (payer_where fromCollective)
       :: map (fun tr => Q_Collective_findByPk (Transaction.HostCollectiveId tr))
              (payer_transactions db fromCollective))%list.
Proof.
  intros Hfound Hadmin.
  unfold queries_sent, run, Queries.allInvoices, Queries.findAll, bind, await, throw, lift, ret.
  cbn [app]. rewrite Hfound, Hadmin. rewrite lookup_hosts_run.
  fold (payer_where fromCollective). fold (payer_transactions db fromCollective).
  destruct (Queries.accumulate_all _ _ _ _ _); reflexivity.
Qed.

Lemma allInvoices_refused_run (fromCollectiveSlug : string) (remoteUser : option User)
      (fromCollective : Collective.t) :
  Collective_findOne_slug db fromCollectiveSlug = Some fromCollective ->
  Queries.not_admin remoteUser (Collective.id fromCollective) = true ->
  run (Queries.allInvoices eng db fromCollectiveSlug remoteUser)
  = ([Q_Collective_findOne fromCollectiveSlug], Thrown no_permission).
Proof.
  intros Hfound Hrefused.
  unfold run, Queries.allInvoices, bind, await, throw. cbn [app].
  now rewrite Hfound, Hrefused.
Qed.

Lemma accumulate_throws_TypeError (fromCollective : Collective.t)
      (o : list (string * MonthInvoice.t)) (tr : Transaction.t) (e : Error) :
  Queries.accumulate eng db fromCollective o tr = Thrown e -> e = TypeError.
Proof.
  unfold Queries.accumulate.
  destruct (Collective_findByPk db (Transaction.HostCollectiveId tr));
    [discriminate | now intros [= <-]].
Qed.

Lemma accumulate_all_unresolved (fromCollective : Collective.t)
      (l : list Transaction.t) (tr : Transaction.t) :
  In tr l ->
  Collective_findByPk db (Transaction.HostCollectiveId tr) = None ->
  forall o, Queries.accumulate_all eng db fromCollective o l = Thrown TypeError.
Proof.
  intros Hin Hnone. induction l as [|hd l IH]; [contradiction|]. intros o.
  cbn [Queries.accumulate_all].
  destruct (Queries.accumulate eng db fromCollective o hd) as [o'|e] eqn:Hstep.
  - destruct Hin as [-> | Hin]; [|now apply IH].
    unfold Queries.accumulate in Hstep. rewrite Hnone in Hstep. discriminate.
  - now rewrite (accumulate_throws_TypeError _ _ _ _ Hstep).
Qed.

(** The invoices of [invoicesByKey] are each made of one of the
    transactions seen: its year, month, host and currency, under the
    slug of its host. *)
Lemma In_set_cases {V} (o : list (string * V)) (k k' : string) (v v' : V) :
  In (k', v') (Js.set o k v) -> (k' = k /\ v' = v) \/ In (k', v') o.
Proof.
  induction o as [|[k0 v0] o IH]; simpl.
  - intros [[= -> ->] | []]. now left.
  - destruct (String.eqb k0 k); simpl.
    + intros [[= -> ->] | H]; [now left | right; now right].
    + intros [H | H]; [right; now left|].
      destruct (IH H) as [? | ?]; [now left | right; now right].
Qed.

Lemma accumulate_all_provenance (fromCollective : Collective.t)
      (l seen : list Transaction.t) (o o' : list (string * MonthInvoice.t)) :
  (forall k invoice, In (k, invoice) o -> made_of eng db fromCollective seen invoice) ->
  Queries.accumulate_all eng db fromCollective o l = Returned o' ->
  forall k invoice, In (k, invoice) o' ->
                    made_of eng db fromCollective (seen ++ l) invoice.
Proof.
  revert seen o. induction l as [|tr l IH]; intros seen o Hmade; cbn [Queries.accumulate_all].
  - intros H. apply Returned_inj in H. subst o'. now rewrite app_nil_r.
  - destruct (Queries.accumulate eng db fromCollective o tr) as [o1|e] eqn:Hstep;
      [|discriminate].
    intros Hrest. replace (seen ++ tr :: l)%list with ((seen ++ [tr]) ++ l)%list
      by now rewrite <- app_assoc.
    apply (IH _ o1); [|assumption].
    intros k invoice Hin. unfold Queries.accumulate in Hstep.
    destruct (Collective_findByPk db (Transaction.HostCollectiveId tr)) as [host|] eqn:Hhost;
      [|discriminate].
    apply Returned_inj in Hstep. subst o1.
    apply In_set_cases in Hin as [[_ ->] | Hin].
    + exists tr, host. split; [apply in_or_app; right; now left|].
      repeat split; assumption || reflexivity.
    + destruct (Hmade _ _ Hin) as (tr' & host' & Hin' & H).
      exists tr', host'. split; [apply in_or_app; now left | exact H].
Qed.

End AllInvoicesEdges.

(** X5: for a payer that is found and a caller who is an admin of it,
    when no CREDIT transaction is billed to the payer [allInvoices]
    returns the empty list (it does not fail), having sent the lookup
    of the payer and the fetch and nothing else. *)
Theorem allInvoices_without_transactions
        (eng : Js.Engine) (db : Database) (fromCollectiveSlug : string)
        (remoteUser : option User) (fromCollective : Collective.t) :
  Collective_findOne_slug db fromCollectiveSlug = Some fromCollective ->
  Queries.not_admin remoteUser (Collective.id fromCollective) = false ->
  payer_transactions db fromCollective = [] ->
  run (Queries.allInvoices eng db fromCollectiveSlug remoteUser)
  = ([Q_Collective_findOne fromCollectiveSlug;
      Q_Transaction_findAll (payer_where fromCollective)],
     Returned []).
Proof.
  intros Hfound Hadmin Hnone.
  pose proof (allInvoices_run_log eng db _ _ _ Hfound Hadmin) as Hlog.
  pose proof (allInvoices_run eng db _ fromCollectiveSlug remoteUser Hfound Hadmin) as Hout.
  rewrite Hnone in *.
  pose proof (arrival_permutes db []) as Hperm.
  apply Permutation_sym, Permutation_nil in Hperm. rewrite Hperm in Hout.
  unfold queries_sent in Hlog. unfold outcome in Hout.
  destruct (run (Queries.allInvoices eng db fromCollectiveSlug remoteUser)) as [log o].
  simpl in *. now subst.
Qed.

Lemma allInvoices_without_transactions_witness :
  outcome (Queries.allInvoices Fixture.utc Fixture.db "brusselstogether"
             (Some {| isAdmin := fun id => id =? 3 |}))
  = Returned [].
Proof.
  pose proof (allInvoices_without_transactions
                Fixture.utc Fixture.db "brusselstogether"
                (Some {| isAdmin := fun id => id =? 3 |})
                Fixture.brusselstogether eq_refl eq_refl eq_refl) as H.
  unfold outcome. now rewrite H.
Defined.

(** X6: for a payer that is found and a caller who is an admin of it,
    when the host of one of the fetched transactions is not found
    [allInvoices] throws a TypeError, whatever the other transactions
    are and in whatever order the lookups answer. *)
Theorem allInvoices_with_unresolved_host
        (eng : Js.Engine) (db : Database) (fromCollectiveSlug : string)
        (remoteUser : option User) (fromCollective : Collective.t)
        (tr : Transaction.t) :
  Collective_findOne_slug db fromCollectiveSlug = Some fromCollective ->
  Queries.not_admin remoteUser (Collective.id fromCollective) = false ->
  In tr (payer_transactions db fromCollective) ->
  Collective_findByPk db (Transaction.HostCollectiveId tr) = None ->
  outcome (Queries.allInvoices eng db fromCollectiveSlug remoteUser) = Thrown TypeError.
Proof.
  intros Hfound Hadmin Hin Hnone.
  rewrite (allInvoices_run eng db _ fromCollectiveSlug remoteUser Hfound Hadmin).
  rewrite (accumulate_all_unresolved eng db fromCollective _ tr); [reflexivity| |assumption].
  apply (Permutation_in _ (Permutation_sym (arrival_permutes db _))). exact Hin.
Qed.

Lemma allInvoices_with_unresolved_host_witness :
  outcome (Queries.allInvoices Fixture.utc Fixture.orphaned "xdamman"
             (Some Fixture.admin_of_xdamman))
  = Thrown TypeError.
Proof.
  apply (allInvoices_with_unresolved_host
           Fixture.utc Fixture.orphaned "xdamman" (Some Fixture.admin_of_xdamman)
           Fixture.xdamman Fixture.orphan eq_refl eq_refl).
  - vm_compute. right. now left.
  - reflexivity.
Defined.

(** X7: [allInvoices] fetches transactions exactly when the payer is
    found and the caller is an admin of it: in every other case no
    fetch is among the queries it has sent. *)
Theorem allInvoices_fetches_iff_admin
        (eng : Js.Engine) (db : Database) (fromCollectiveSlug : string)
        (remoteUser : option User) :
  fetches_no_transaction
    (queries_sent (Queries.allInvoices eng db fromCollectiveSlug remoteUser)) = false
  <-> exists fromCollective,
      Collective_findOne_slug db fromCollectiveSlug = Some fromCollective
      /\ Queries.not_admin remoteUser (Collective.id fromCollective) = false.
Proof.
  split.
  - destruct (Collective_findOne_slug db fromCollectiveSlug) as [fromCollective|] eqn:Hfound.
    + destruct (Queries.not_admin remoteUser (Collective.id fromCollective)) eqn:Hadmin.
      * unfold queries_sent.
        rewrite (allInvoices_refused_run eng db _ _ _ Hfound Hadmin). discriminate.
      * intros _. now exists fromCollective.
    + unfold queries_sent, run, Queries.allInvoices, bind, await, throw.
      cbn [app]. rewrite Hfound. discriminate.
  - intros (fromCollective & Hfound & Hadmin).
    now rewrite (allInvoices_run_log eng db _ _ _ Hfound Hadmin).
Qed.

(** X8: every invoice [allInvoices] returns is made of one of the
    fetched transactions: it bills the payer, its year, month and host
    are those of that transaction, its currency is the [hostCurrency]
    of that transaction, and its slug is made of them and of the slugs
    of host and payer.  So when the fetched transactions of that year,
    month and host all have one [hostCurrency], it is the currency of
    the invoice. *)
Theorem allInvoices_invoice_made_of_a_transaction
        (eng : Js.Engine) (db : Database) (fromCollectiveSlug : string)
        (remoteUser : option User) (fromCollective : Collective.t)
        (invoices : list MonthInvoice.t) (invoice : MonthInvoice.t) :
  Collective_findOne_slug db fromCollectiveSlug = Some fromCollective ->
  outcome (Queries.allInvoices eng db fromCollectiveSlug remoteUser) = Returned invoices ->
  In invoice invoices ->
  made_of eng db fromCollective (payer_transactions db fromCollective) invoice
  /\ forall c,
      (forall tr, In tr (in_group eng (invoice_group invoice)
                                  (payer_transactions db fromCollective)) ->
                  Transaction.hostCurrency tr = c) ->
      MonthInvoice.currency invoice = c.
Proof.
  intros Hfound Hret Hin.
  assert (Hadmin : Queries.not_admin remoteUser (Collective.id fromCollective) = false).
  { destruct (Queries.not_admin remoteUser (Collective.id fromCollective)) eqn:E;
      [|reflexivity].
    unfold outcome in Hret.
    rewrite (allInvoices_refused_run eng db _ _ _ Hfound E) in Hret. discriminate. }
  rewrite (allInvoices_run eng db _ fromCollectiveSlug remoteUser Hfound Hadmin) in Hret.
  destruct (Queries.accumulate_all _ _ _ _ _) as [o|e] eqn:Ho; [|discriminate].
  apply Returned_inj in Hret. subst invoices.
  apply (Permutation_in _ (sort_perm _ _)) in Hin.
  apply in_map_iff in Hin as ([k invoice'] & Heq & Hin). simpl in Heq. subst invoice'.
  pose proof (accumulate_all_provenance eng db fromCollective _ [] [] o
                (fun k i (H : In (k, i) []) => match H with end) Ho k invoice Hin)
    as (tr & host & Htr & Hmade).
  cbn [app] in Htr.
  apply (Permutation_in _ (arrival_permutes db _)) in Htr.
  assert (Hresult : made_of eng db fromCollective (payer_transactions db fromCollective) invoice).
  { now exists tr, host. }
  split; [exact Hresult|].
  intros c Hall. destruct Hmade as (_ & _ & Hgroup & Hcur & _).
  rewrite Hcur. apply Hall. apply filter_In. split; [assumption|].
  apply group_eqb_eq. now rewrite Hgroup.
Qed.

Lemma allInvoices_invoice_made_of_a_transaction_witness :
  exists invoices,
    outcome (Queries.allInvoices Fixture.utc Fixture.db "xdamman"
               (Some Fixture.admin_of_xdamman)) = Returned invoices
    /\ invoices <> []
    /\ forall invoice,
        In invoice invoices ->
        made_of Fixture.utc Fixture.db Fixture.xdamman
                (payer_transactions Fixture.db Fixture.xdamman) invoice.
Proof.
  eexists. split; [vm_compute; reflexivity|]. split; [discriminate|].
  intros invoice Hin.
  exact (proj1 (allInvoices_invoice_made_of_a_transaction
                  Fixture.utc Fixture.db "xdamman" (Some Fixture.admin_of_xdamman)
                  Fixture.xdamman _ invoice eq_refl eq_refl Hin)).
Defined.

(** ** Invoice: when it fetches, and what *)

(** X9: the [Invoice] query fetches transactions exactly when its input
    is there, both dates pass [validateDate], payer and host are found,
    the caller is an admin of the payer and [endsAt] is not before
    [startsAt]; in every other case it has sent no fetch. *)
Theorem Invoice_fetches_iff_all_checks_pass
        (eng : Js.Engine) (db : Database) (args : InvoiceArgs) (remoteUser : option User) :
  fetches_no_transaction (queries_sent (Queries.Invoice eng db args remoteUser)) = false
  <-> exists input fromCollective host,
      reaches_authorization eng db args input fromCollective host
      /\ Queries.not_admin remoteUser (Collective.id fromCollective) = false
      /\ Queries.Date_lt (Queries.first_of_month eng (InvoiceInput.dateTo input))
                         (Queries.first_of_month eng (InvoiceInput.dateFrom input)) = false.
Proof.
  split.
  - destruct (Queries.invoice_input eng args) as [input|e] eqn:Hinput.
    2:{ unfold queries_sent, run, Queries.Invoice, bind, lift. rewrite Hinput. discriminate. }
    destruct (Queries.validateDate (InvoiceInput.dateFrom input)) as [[]|e] eqn:Hfrom.
    2:{ unfold queries_sent, run, Queries.Invoice, bind, lift.
        rewrite Hinput, Hfrom. discriminate. }
    destruct (Queries.validateDate (InvoiceInput.dateTo input)) as [[]|e] eqn:Hto.
    2:{ unfold queries_sent, run, Queries.Invoice, bind, lift.
        rewrite Hinput, Hfrom, Hto. discriminate. }
    destruct (Collective_findOne_slug db (InvoiceInput.fromCollectiveSlug input))
      as [fromCollective|] eqn:Hpayer.
    2:{ unfold queries_sent, run, Queries.Invoice, bind, lift, await, throw.
        rewrite Hinput, Hfrom, Hto. cbn [app]. rewrite Hpayer. discriminate. }
    destruct (Collective_findBySlug db (InvoiceInput.collectiveSlug input))
      as [host|] eqn:Hhost.
    2:{ unfold queries_sent, run, Queries.Invoice, bind, lift, await, throw.
        rewrite Hinput, Hfrom, Hto. cbn [app]. rewrite Hpayer, Hhost. discriminate. }
    assert (Hreach : reaches_authorization eng db args input fromCollective host).
    { repeat split; assumption. }
    unfold queries_sent.
    rewrite (Invoice_from_authorization eng db args remoteUser input fromCollective host Hreach).
    destruct (Queries.not_admin remoteUser (Collective.id fromCollective)) eqn:Hadmin;
      [discriminate|].
    destruct (Queries.Date_lt _ _) eqn:Hdates; [discriminate|].
    intros _. now exists input, fromCollective, host.
  - intros (input & fromCollective & host & Hreach & Hadmin & Hdates).
    unfold queries_sent.
    rewrite (Invoice_from_authorization eng db args remoteUser input fromCollective host Hreach).
    now rewrite Hadmin, Hdates.
Qed.

(** X10: the transactions of the invoice the [Invoice] query returns are
    exactly the rows of the store that are CREDITs, are billed to the
    payer (from it without a virtual card, or with a virtual card of
    it), are of the host, and were created at or after [startsAt] and
    before [endsAt]. *)
Theorem Invoice_transactions_are_the_matching_rows
        (eng : Js.Engine) (db : Database) (args : InvoiceArgs) (remoteUser : option User)
        (input : InvoiceInput.t) (fromCollective host : Collective.t)
        (invoice : RangeInvoice.t) (startsAt endsAt : Z) :
  reaches_authorization eng db args input fromCollective host ->
  outcome (Queries.Invoice eng db args remoteUser) = Returned invoice ->
  Queries.first_of_month eng (InvoiceInput.dateFrom input) = Some startsAt ->
  Queries.first_of_month eng (InvoiceInput.dateTo input) = Some endsAt ->
  forall tr,
    In tr (RangeInvoice.transactions invoice)
    <-> In tr (Transactions db)
        /\ Transaction.type tr = CREDIT
        /\ ((Transaction.FromCollectiveId tr = Collective.id fromCollective
             /\ Transaction.UsingVirtualCardFromCollectiveId tr = None)
            \/ Transaction.UsingVirtualCardFromCollectiveId tr
               = Some (Collective.id fromCollective))
        /\ Transaction.HostCollectiveId tr = Collective.id host
        /\ startsAt <= Transaction.createdAt tr < endsAt.
Proof.
  intros Hreach Hret Hstart Hend tr.
  unfold outcome in Hret.
  rewrite (Invoice_from_authorization eng db args remoteUser input fromCollective host Hreach)
    in Hret.
  destruct (Queries.not_admin remoteUser (Collective.id fromCollective)); [discriminate|].
  destruct (Queries.Date_lt _ _); [discriminate|].
  cbn [snd] in Hret.
  destruct (invoice_transactions eng db input fromCollective host) as [|tr0 rest] eqn:Htx;
    [discriminate|].
  apply Returned_inj in Hret. subst invoice. cbn [RangeInvoice.transactions].
  rewrite <- Htx. unfold invoice_transactions. rewrite filter_In, Hstart, Hend.
  unfold where_matches, Queries.invoice_where, billed_to.
  cbn [where_type where_or_collective where_HostCollectiveId where_createdAt].
  rewrite !andb_true_iff, orb_true_iff, andb_true_iff, !Z.eqb_eq, Z.leb_le, Z.ltb_lt.
  destruct (Transaction.type tr), (Transaction.UsingVirtualCardFromCollectiveId tr) as [c|];
    simpl; rewrite ?Z.eqb_eq; intuition (try discriminate; try congruence).
Qed.

Lemma Invoice_transactions_are_the_matching_rows_witness :
  exists invoice,
    outcome (Queries.Invoice Fixture.utc Fixture.db
               (Fixture.by_invoice_slug "201710.brusselstogether-host.xdamman")
               (Some Fixture.admin_of_xdamman)) = Returned invoice
    /\ RangeInvoice.transactions invoice <> []
    /\ forall tr, In tr (RangeInvoice.transactions invoice) ->
                  Transaction.type tr = CREDIT
                  /\ Transaction.HostCollectiveId tr = 2.
Proof.
  eexists. split; [vm_compute; reflexivity|]. split; [discriminate|].
  intros tr Hin.
  pose proof (proj1 (Invoice_transactions_are_the_matching_rows
                       Fixture.utc Fixture.db
                       (Fixture.by_invoice_slug "201710.brusselstogether-host.xdamman")
                       (Some Fixture.admin_of_xdamman)
                       (Fixture.input_of
                          (Fixture.by_invoice_slug "201710.brusselstogether-host.xdamman"))
                       Fixture.xdamman Fixture.host _
                       (Fixture.days_from_civil 2017 10 1 * Fixture.ms_per_day)
                       (Fixture.days_from_civil 2017 11 1 * Fixture.ms_per_day)
                       (conj eq_refl (conj eq_refl (conj eq_refl (conj eq_refl eq_refl))))
                       eq_refl eq_refl eq_refl tr) Hin) as (_ & Htype & _ & Hhost & _).
  now split.
Defined.

(** * Properties of the search resolver *)

Section SearchFacts.

Lemma trim_end_blank (s : string) :
  Js.trim_end s = "" <-> all_white_space s = true.
Proof.
  induction s as [|c s IH]; simpl; [tauto|].
  destruct (Js.trim_end s) as [|d r].
  - destruct (Js.is_white_space c); simpl.
    + rewrite <- IH. tauto.
    + split; discriminate.
  - split; [discriminate|]. intros H. apply andb_true_iff in H as [_ H].
    apply IH in H. discriminate.
Qed.

Lemma trim_start_blank (s : string) :
  all_white_space (Js.trim_start s) = all_white_space s.
Proof.
  induction s as [|c s IH]; simpl; [reflexivity|].
  destruct (Js.is_white_space c) eqn:E; simpl; [exact IH | now rewrite E].
Qed.

Lemma trim_blank (s : string) :
  JsOps.trim s = "" <-> all_white_space s = true.
Proof. unfold JsOps.trim. now rewrite trim_end_blank, trim_start_blank. Qed.

Lemma find_id_Some (cs : list Collective.t) (id : Z) (c : Collective.t) :
  Search.find_id cs id = Some c -> In c cs /\ Collective.id c = id.
Proof.
  unfold Search.find_id. intros H. apply find_some in H as [Hin H].
  split; [assumption | now apply Z.eqb_eq].
Qed.

Lemma find_id_existsb (cs : list Collective.t) (id : Z) :
  existsb (fun c => Collective.id c =? id) cs
  = match Search.find_id cs id with Some _ => true | None => false end.
Proof.
  unfold Search.find_id. induction cs as [|c cs IH]; simpl; [reflexivity|].
  destruct (Collective.id c =? id); [reflexivity | exact IH].
Qed.

Lemma in_order_of_ids (ids : list Z) (cs : list Collective.t) :
  map Collective.id (Search.in_order_of ids cs)
  = filter (fun id => existsb (fun c => Collective.id c =? id) cs) ids.
Proof.
  unfold Search.in_order_of. induction ids as [|id ids IH]; simpl; [reflexivity|].
  rewrite map_app, IH, find_id_existsb.
  destruct (Search.find_id cs id) as [c|] eqn:E; [|reflexivity].
  apply find_id_Some in E as [_ E]. simpl. now rewrite E.
Qed.

Lemma in_order_of_In (ids : list Z) (cs : list Collective.t) (c : Collective.t) :
  In c (Search.in_order_of ids cs) -> In c cs /\ In (Collective.id c) ids.
Proof.
  unfold Search.in_order_of. rewrite in_flat_map. intros (id & Hid & Hc).
  destruct (Search.find_id cs id) as [c'|] eqn:E; [|contradiction].
  destruct Hc as [<- | []]. apply find_id_Some in E as [Hin <-]. now split.
Qed.

Lemma in_order_of_length (ids : list Z) (cs : list Collective.t) :
  (List.length (Search.in_order_of ids cs) <= List.length ids)%nat.
Proof.
  unfold Search.in_order_of. induction ids as [|id ids IH]; simpl; [lia|].
  rewrite List.length_app. destruct (Search.find_id cs id); simpl; lia.
Qed.

Lemma known_among (w : Search.World) (ids : list Z) (id : Z) :
  In id ids ->
  existsb (fun c => Collective.id c =? id) (Search.findAll_in w ids) = known w id.
Proof.
  intros Hin. unfold known, Search.findAll_in.
  induction (Search.Collectives w) as [|c cs IH]; simpl; [reflexivity|].
  destruct (Collective.id c =? id) eqn:E.
  - apply Z.eqb_eq in E.
    assert (H : existsb (Z.eqb (Collective.id c)) ids = true).
    { apply existsb_exists. exists id. split; [assumption | now apply Z.eqb_eq]. }
    rewrite H. simpl. apply Z.eqb_eq in E. now rewrite E.
  - destruct (existsb (Z.eqb (Collective.id c)) ids); simpl; [now rewrite E | exact IH].
Qed.

End SearchFacts.

(** X11: a term made of white space only (or empty) gets an empty
    result with [total] 0, and so does any term when no search index is
    configured; neither the index nor the store is asked.  Without a
    term the resolver throws a TypeError. *)
Theorem search_without_a_term (w : Search.World) (args : Search.Args) :
  (forall term,
      Search.term args = Some term ->
      all_white_space term = true \/ Search.getIndex w = None ->
      Search.search w args = ([], Returned (Search.nothing args)))
  /\ (Search.term args = None -> Search.search w args = ([], Thrown TypeError))
  /\ Search.collectives (Search.nothing args) = []
  /\ Search.total (Search.nothing args) = 0.
Proof.
  unfold Search.search. repeat split.
  - intros term -> H. destruct (String.eqb_spec (JsOps.trim term) "") as [E | E];
      [reflexivity|].
    destruct H as [H | ->]; [|reflexivity].
    apply trim_blank in H. contradiction.
  - now intros ->.
Qed.

(** X12: for a term that is not blank, with an index configured, the
    collectives returned are those of the hits that the store has, in
    the order of the hits: their ids are the ids of the hits with the
    unknown ones left out.  [total] is the number the index reports,
    not the number of collectives returned. *)
Theorem search_keeps_the_order_of_the_hits
        (w : Search.World) (args : Search.Args) (term : string) (index : Search.Index) :
  Search.term args = Some term ->
  all_white_space term = false ->
  Search.getIndex w = Some index ->
  let found := index term (Search.limit args) (Search.offset args) in
  exists results,
    Search.search w args
    = ([Search.Index_search term (Search.limit args) (Search.offset args);
        Search.Collective_findAll (Search.hits found)],
       Returned results)
    /\ map Collective.id (Search.collectives results)
       = filter (known w) (Search.hits found)
    /\ (forall c, In c (Search.collectives results) -> In c (Search.Collectives w))
    /\ (List.length (Search.collectives results) <= List.length (Search.hits found))%nat
    /\ Search.total results = Search.nbHits found.
Proof.
  intros Hterm Hblank Hindex found. unfold Search.search. rewrite Hterm, Hindex.
  destruct (String.eqb_spec (JsOps.trim term) "") as [E | _].
  { apply trim_blank in E. congruence. }
  fold found. eexists. split; [reflexivity|].
  cbn [Search.collectives Search.total]. split; [|split; [|split]].
  - rewrite in_order_of_ids. apply filter_ext_in. intros id Hin.
    now apply known_among.
  - intros c Hc. apply in_order_of_In in Hc as [Hc _].
    unfold Search.findAll_in in Hc. now apply filter_In in Hc.
  - apply in_order_of_length.
  - reflexivity.
Qed.

Lemma search_without_a_term_witness :
  Search.search Sample.world (Sample.searching "  ")
  = ([], Returned (Search.nothing (Sample.searching "  "))).
Proof.
  apply (proj1 (search_without_a_term Sample.world (Sample.searching "  ")) "  " eq_refl).
  left. reflexivity.
Defined.

Lemma search_keeps_the_order_of_the_hits_witness :
  exists results,
    snd (Search.search Sample.world (Sample.searching "brussels")) = Returned results
    /\ map Collective.id (Search.collectives results) = [3; 1].
Proof.
  destruct (search_keeps_the_order_of_the_hits
              Sample.world (Sample.searching "brussels") "brussels"
              (fun _ _ _ => {| Search.hits := [3; 7; 1]; Search.nbHits := 3 |})
              eq_refl eq_refl eq_refl) as (results & Hrun & Hids & _).
  exists results. split; [now rewrite Hrun | exact Hids].
Defined.

(** * Properties of allUpdates *)

Section UpdatesFacts.

Lemma In_firstn {A} (n : nat) (l : list A) (x : A) : In x (firstn n l) -> In x l.
Proof.
  revert l; induction n as [|n IH]; intros [|y l]; simpl; try tauto.
  intros [H | H]; [now left | right; now apply IH].
Qed.

Lemma In_skipn {A} (n : nat) (l : list A) (x : A) : In x (skipn n l) -> In x l.
Proof.
  revert l; induction n as [|n IH]; intros [|y l]; simpl; try tauto.
  intros H. right. now apply IH.
Qed.

Lemma page_of_In {A} (limit offset : option Z) (rows l : list A) (x : A) :
  Updates.page_of limit offset rows = Updates.Resolved l -> In x l -> In x rows.
Proof.
  unfold Updates.page_of.
  destruct offset as [o|], limit as [n|];
    repeat match goal with |- context [if ?b then _ else _] => destruct b end;
    intros H; inversion H; subst; clear H; intros Hin;
    repeat (apply In_firstn in Hin || apply In_skipn in Hin); assumption.
Qed.

Lemma page_of_length {A} (limit offset : option Z) (rows l : list A) (n : Z) :
  limit = Some n ->
  Updates.page_of limit offset rows = Updates.Resolved l ->
  Z.of_nat (List.length l) <= n.
Proof.
  intros ->. unfold Updates.page_of.
  destruct offset as [o|];
    repeat match goal with |- context [if ?b then _ else _] => destruct b eqn:? end;
    intros H; inversion H; subst; clear H;
    match goal with |- context [firstn ?k ?r] => pose proof (firstn_le_length k r) end;
    lia.
Qed.

Variable s : Updates.Store.
Variable args : Updates.Args.
Variable remoteUser : option User.

Lemma allUpdates_cases :
  Updates.allUpdates s args remoteUser
  = match Updates.load s (Updates.CollectiveId args) with
    | None => Updates.Rejected (Updates.JsError "Collective not found")
    | Some collective =>
        Updates.page_of (Updates.when_truthy (Updates.limit args))
                        (Updates.when_truthy (Updates.offset args))
                        (Updates.ordered s (visible_updates s args remoteUser collective))
    end.
Proof. reflexivity. Qed.

Lemma visible_updates_In (collective : Collective.t) (u : Update.t) :
  In u (visible_updates s args remoteUser collective)
  <-> In u (Updates.Updates s)
      /\ (Queries.not_admin remoteUser (Updates.CollectiveId args) = true ->
          Update.publishedAt u <> None)
      /\ In (Update.CollectiveId u) (update_scope s args collective).
Proof.
  unfold visible_updates. rewrite filter_In, andb_true_iff, existsb_exists.
  split.
  - intros (Hin & Hpub & id & Hid & Heq). apply Z.eqb_eq in Heq. subst id.
    repeat split; try assumption. intros Hna. rewrite Hna in Hpub.
    destruct (Update.publishedAt u); [discriminate | discriminate Hpub].
  - intros (Hin & Hpub & Hscope). repeat split; try assumption.
    + destruct (Queries.not_admin remoteUser (Updates.CollectiveId args));
        [|reflexivity].
      destruct (Update.publishedAt u); [reflexivity|]. now destruct (Hpub eq_refl).
    + exists (Update.CollectiveId u). split; [assumption | apply Z.eqb_refl].
Qed.

End UpdatesFacts.

(** X13: a caller who is not authenticated, or is not an admin of the
    collective asked for, is shown published updates only: every update
    [allUpdates] returns to it has a [publishedAt]. *)
Theorem allUpdates_hides_drafts
        (s : Updates.Store) (args : Updates.Args) (remoteUser : option User)
        (updates : list Update.t) :
  Queries.not_admin remoteUser (Updates.CollectiveId args) = true ->
  Updates.allUpdates s args remoteUser = Updates.Resolved updates ->
  forall u, In u updates -> Update.publishedAt u <> None.
Proof.
  intros Hna. rewrite allUpdates_cases.
  destruct (Updates.load s (Updates.CollectiveId args)) as [collective|]; [|discriminate].
  intros Hpage u Hin. apply (page_of_In _ _ _ _ _ Hpage) in Hin.
  apply (Permutation_in _ (Updates.ordered_permutes s _)) in Hin.
  apply visible_updates_In in Hin as (_ & Hpub & _). now apply Hpub.
Qed.

Lemma allUpdates_hides_drafts_witness :
  exists updates,
    Updates.allUpdates Sample.store (Sample.updates_of 3 false None) None
    = Updates.Resolved updates
    /\ updates <> []
    /\ forall u, In u updates -> Update.publishedAt u <> None.
Proof.
  eexists. split; [reflexivity|]. split; [discriminate|].
  exact (allUpdates_hides_drafts Sample.store (Sample.updates_of 3 false None) None
                                 _ eq_refl eq_refl).
Defined.

(** X14: the updates [allUpdates] returns are rows of the store, of the
    collective asked for or, with [includeHostedCollectives], of the
    collectives it is the HOST member of (its own updates are then not
    among them unless it hosts itself).  With no limit and no offset,
    zero counting as none, they are all the rows the caller may see;
    and when the collective is not found the resolver fails with
    "Collective not found". *)
Theorem allUpdates_scope
        (s : Updates.Store) (args : Updates.Args) (remoteUser : option User) :
  (Updates.load s (Updates.CollectiveId args) = None ->
   Updates.allUpdates s args remoteUser
   = Updates.Rejected (Updates.JsError "Collective not found"))
  /\ forall collective updates,
      Updates.load s (Updates.CollectiveId args) = Some collective ->
      Updates.allUpdates s args remoteUser = Updates.Resolved updates ->
      (forall u, In u updates ->
                 In u (Updates.Updates s)
                 /\ if Updates.truthy (Updates.includeHostedCollectives args)
                    then exists m, In m (Updates.Members s)
                                   /\ Member.role m = "HOST"
                                   /\ Member.MemberCollectiveId m = Collective.id collective
                                   /\ Member.CollectiveId m = Update.CollectiveId u
                    else Update.CollectiveId u = Updates.CollectiveId args)
      /\ (Updates.when_truthy (Updates.limit args) = None ->
          Updates.when_truthy (Updates.offset args) = None ->
          Permutation updates (visible_updates s args remoteUser collective)).
Proof.
  split.
  - intros Hnone. rewrite allUpdates_cases. now rewrite Hnone.
  - intros collective updates Hload. rewrite allUpdates_cases, Hload. intros Hpage.
    split.
    + intros u Hin. apply (page_of_In _ _ _ _ _ Hpage) in Hin.
      apply (Permutation_in _ (Updates.ordered_permutes s _)) in Hin.
      apply visible_updates_In in Hin as (Hrow & _ & Hscope).
      split; [assumption|]. unfold update_scope in Hscope.
      destruct (Updates.truthy (Updates.includeHostedCollectives args)).
      * unfold Updates.hosted_by in Hscope.
        apply in_map_iff in Hscope as (m & Hm & Hin).
        apply filter_In in Hin as [Hin Hcond].
        apply andb_true_iff in Hcond as [Hid Hrole].
        apply Z.eqb_eq in Hid. apply String.eqb_eq in Hrole.
        exists m. auto.
      * destruct Hscope as [<- | []]. reflexivity.
    + intros Hlimit Hoffset. rewrite Hlimit, Hoffset in Hpage.
      cbn [Updates.page_of] in Hpage. inversion Hpage; subst.
      apply Updates.ordered_permutes.
Qed.

Lemma allUpdates_scope_witness :
  exists updates,
    Updates.allUpdates Sample.store (Sample.updates_of 2 true (Some 0))
                       (Some {| isAdmin := fun _ => true |})
    = Updates.Resolved updates
    /\ Permutation updates [Sample.update 1 3 (Some 10); Sample.update 2 3 None;
                            Sample.update 3 3 (Some 30)].
Proof.
  eexists. split; [reflexivity|].
  exact (proj2 (proj2 (allUpdates_scope
                         Sample.store (Sample.updates_of 2 true (Some 0))
                         (Some {| isAdmin := fun _ => true |}))
                      Fixture.host _ eq_refl eq_refl) eq_refl eq_refl).
Defined.

(** X15: with a limit above zero, [allUpdates] returns at most that many
    updates; without an offset (zero counting as none) it returns
    exactly that many, or all the updates the caller may see when they
    are fewer. *)
Theorem allUpdates_limit
        (s : Updates.Store) (args : Updates.Args) (remoteUser : option User)
        (n : Z) (collective : Collective.t) (updates : list Update.t) :
  Updates.limit args = Some n -> 0 < n ->
  Updates.load s (Updates.CollectiveId args) = Some collective ->
  Updates.allUpdates s args remoteUser = Updates.Resolved updates ->
  Z.of_nat (List.length updates) <= n
  /\ (Updates.when_truthy (Updates.offset args) = None ->
      List.length updates
      = Nat.min (Z.to_nat n)
                (List.length (visible_updates s args remoteUser collective))).
Proof.
  intros Hlimit Hn Hload. rewrite allUpdates_cases, Hload.
  assert (Hwhen : Updates.when_truthy (Updates.limit args) = Some n).
  { rewrite Hlimit. simpl. destruct (Z.eqb_spec n 0); [lia | reflexivity]. }
  rewrite Hwhen. intros Hpage. split.
  - now apply (page_of_length _ _ _ _ _ eq_refl Hpage).
  - intros Hoffset. rewrite Hoffset in Hpage. unfold Updates.page_of in Hpage.
    destruct (Z.ltb_spec n 0); [lia|].
    inversion Hpage; subst updates. rewrite length_firstn.
    now rewrite (Permutation_length (Updates.ordered_permutes s _)).
Qed.

Lemma allUpdates_limit_witness :
  Updates.allUpdates Sample.store (Sample.updates_of 3 false (Some 1)) None
  = Updates.Resolved [Sample.update 3 3 (Some 30)]
  /\ Z.of_nat (List.length [Sample.update 3 3 (Some 30)]) <= 1.
Proof.
  split; [reflexivity|].
  exact (proj1 (allUpdates_limit
                  Sample.store (Sample.updates_of 3 false (Some 1)) None 1
                  Fixture.brusselstogether [Sample.update 3 3 (Some 30)]
                  eq_refl eq_refl eq_refl eq_refl)).
Defined.

(** * Properties of the pagination middleware *)

Section PaginateFacts.

Lemma times_one_integer (z : Z) :
  Paginate.times_one (Js.Num (Js.of_Z z)) = Js.Num (Js.of_Z z).
Proof.
  unfold Paginate.times_one, Js.of_Z, inject_Z.
  cbn [Js.ToNumber JsOps.num_mul]. unfold Qmult. cbn [Qnum Qden Pos.mul].
  now rewrite Z.mul_1_r, Qred_integer.
Qed.

Lemma ToBoolean_integer (z : Z) :
  JsOps.ToBoolean (Js.Num (Js.of_Z z)) = negb (z =? 0).
Proof. now destruct z. Qed.

Lemma or_integer (z fallback : Z) :
  JsOps.or (Js.Num (Js.of_Z z)) (Js.Num (Js.of_Z fallback))
  = Js.Num (Js.of_Z (or_else z fallback)).
Proof.
  unfold JsOps.or, or_else. rewrite ToBoolean_integer. now destruct (z =? 0).
Qed.

Lemma lt_integers (x y : Z) :
  Js.lt (Js.Num (Js.of_Z x)) (Js.Num (Js.of_Z y)) = (x <? y).
Proof. apply num_lt_of_Z. Qed.

Lemma num_lt_irrefl (n : Js.Number) : Js.num_lt n n = false.
Proof.
  destruct n as [| | |q]; simpl; try reflexivity.
  now rewrite (proj1 (Qeq_alt q q) (Qeq_refl q)).
Qed.

(** A truthy Number is not NaN. *)
Lemma truthy_number (n : Js.Number) :
  JsOps.ToBoolean (Js.Num n) = true -> n <> Js.NaN.
Proof. intros H ->. discriminate. Qed.

Lemma or_number (a b : Js.Value) (n : Js.Number) :
  JsOps.or a b = Js.Num n -> JsOps.ToBoolean b = true -> n <> Js.NaN.
Proof.
  unfold JsOps.or. destruct (JsOps.ToBoolean a) eqn:E; intros H Hb.
  - subst a. now apply truthy_number.
  - subst b. now apply truthy_number.
Qed.

End PaginateFacts.

(** The page: a Number that is not NaN and not below 1. *)
Lemma page_of_at_least_one (body query : Paginate.Params) :
  (exists n,
      Paginate.page_of body query = Js.Num n
      /\ n <> Js.NaN
      /\ Js.num_lt n (Js.of_Z 1) = false
      /\ Js.ge (Js.Num n) (Js.Num (Js.of_Z 1)) = true)
  /\ (JsOps.ToBoolean
        (Paginate.times_one (JsOps.or (Paginate.page body) (Paginate.page query))) = false ->
      Paginate.page_of body query = Js.Num (Js.of_Z 1)).
Proof.
  unfold Paginate.page_of, Paginate.times_one.
  set (x := JsOps.num_mul _ _).
  assert (Hor : JsOps.or (Js.Num x) (Js.Num (Js.of_Z 1))
                = if JsOps.ToBoolean (Js.Num x) then Js.Num x else Js.Num (Js.of_Z 1))
    by reflexivity.
  rewrite Hor. clear Hor.
  destruct (JsOps.ToBoolean (Js.Num x)) eqn:Htruthy; cbv zeta.
  - split; [|discriminate].
    cbn [Js.lt Js.ToNumber]. destruct (Js.num_lt x (Js.of_Z 1)) eqn:Hlt.
    + exists (Js.of_Z 1). repeat split. discriminate.
    + exists x. split; [reflexivity|]. split; [now apply truthy_number|].
      split; [assumption|]. unfold Js.ge. cbn [Js.ToNumber].
      destruct x; try discriminate; cbn in *; now rewrite ?Hlt.
  - split; [|reflexivity]. exists (Js.of_Z 1). repeat split. discriminate.
Qed.

(** The perPage: between [min] and [max] when the options are Numbers. *)
Lemma perPage_of_within_bounds
        (options : option Paginate.Options) (body query : Paginate.Params)
        (default lo hi : Js.Number) :
  Paginate.default (Paginate.normalize options) = Js.Num default ->
  Paginate.min (Paginate.normalize options) = Js.Num lo ->
  Paginate.max (Paginate.normalize options) = Js.Num hi ->
  Js.num_lt hi lo = false ->
  exists n,
    Paginate.perPage_of (Paginate.normalize options) body query = Js.Num n
    /\ n <> Js.NaN
    /\ Js.num_lt n lo = false
    /\ Js.num_lt hi n = false.
Proof.
  intros Hdefault Hmin Hmax Hbounds.
  assert (Hd : default <> Js.NaN).
  { unfold Paginate.normalize in Hdefault. cbn [Paginate.default] in Hdefault.
    now apply (or_number _ _ _ Hdefault). }
  assert (Hlo : lo <> Js.NaN).
  { unfold Paginate.normalize in Hmin. cbn [Paginate.min] in Hmin.
    now apply (or_number _ _ _ Hmin). }
  assert (Hhi : hi <> Js.NaN).
  { unfold Paginate.normalize in Hmax. cbn [Paginate.max] in Hmax.
    now apply (or_number _ _ _ Hmax). }
  unfold Paginate.perPage_of. rewrite Hdefault, Hmin, Hmax.
  assert (Hfirst : exists p,
             JsOps.or (Paginate.times_one
                         (JsOps.or (Paginate.per_page body) (Paginate.per_page query)))
                      (Js.Num default) = Js.Num p /\ p <> Js.NaN).
  { unfold Paginate.times_one, JsOps.or at 1.
    destruct (JsOps.ToBoolean (Js.Num _)) eqn:E.
    - eexists. split; [reflexivity | now apply truthy_number].
    - now exists default. }
  destruct Hfirst as (p & -> & Hp). cbv zeta.
  cbn [Js.lt Js.ToNumber].
  destruct (Js.num_lt p lo) eqn:Hlow.
  - unfold Js.gt. cbn [Js.lt Js.ToNumber]. rewrite Hbounds.
    exists lo. repeat split; try assumption. apply num_lt_irrefl.
  - unfold Js.gt. cbn [Js.lt Js.ToNumber].
    destruct (Js.num_lt hi p) eqn:Hhigh.
    + exists hi. repeat split; try assumption. apply num_lt_irrefl.
    + exists p. repeat split; assumption.
Qed.

(** The perPage of integer options and an integer request. *)
Lemma perPage_of_integers
        (default min max asked : Z) (body query : Paginate.Params) :
  JsOps.or (Paginate.per_page body) (Paginate.per_page query) = Js.Num (Js.of_Z asked) ->
  Paginate.perPage_of (Paginate.normalize (integer_options default min max)) body query
  = Js.Num (Js.of_Z (Z.min (or_else max 100)
                           (Z.max (or_else min 1)
                                  (or_else asked (or_else default 100))))).
Proof.
  intros Hasked. unfold Paginate.perPage_of, Paginate.normalize, integer_options.
  cbn [Paginate.default Paginate.min Paginate.max].
  rewrite Hasked, times_one_integer, !or_integer. cbv zeta.
  rewrite lt_integers.
  set (x := or_else asked (or_else default 100)).
  set (lo := or_else min 1). set (hi := or_else max 100).
  destruct (Z.ltb_spec x lo) as [Hlow | Hlow]; unfold Js.gt; rewrite lt_integers.
  - destruct (Z.ltb_spec hi lo); do 2 f_equal; lia.
  - destruct (Z.ltb_spec hi x); do 2 f_equal; lia.
Qed.

Lemma paginate_by_offset {A : Type} (paginateOffset : Js.Value -> Js.Value -> A)
      (options : option Paginate.Options) (body query : Paginate.Params) :
  JsOps.ToBoolean (JsOps.or (Paginate.since_id body) (Paginate.since_id query)) = false ->
  Paginate.paginate paginateOffset options body query
  = Paginate.Offset (paginateOffset (Paginate.page_of body query)
                                    (Paginate.perPage_of (Paginate.normalize options)
                                                         body query)).
Proof. unfold Paginate.paginate. now intros ->. Qed.

(** X16: when the request names no [since_id], [paginate] calls
    [paginateOffset] with a page that is a Number, not NaN and not below
    1, whatever the request carries as [page]; the page is 1 when the
    request names none, or one that is zero or does not read as a
    Number. *)
Theorem paginate_page_is_at_least_one
        {A : Type} (paginateOffset : Js.Value -> Js.Value -> A)
        (options : option Paginate.Options) (body query : Paginate.Params) :
  JsOps.ToBoolean (JsOps.or (Paginate.since_id body) (Paginate.since_id query)) = false ->
  exists page perPage,
    Paginate.paginate paginateOffset options body query
    = Paginate.Offset (paginateOffset (Js.Num page) perPage)
    /\ page <> Js.NaN
    /\ Js.num_lt page (Js.of_Z 1) = false
    /\ (JsOps.ToBoolean
          (Paginate.times_one (JsOps.or (Paginate.page body) (Paginate.page query))) = false ->
        page = Js.of_Z 1).
Proof.
  intros Hsince. rewrite (paginate_by_offset _ _ _ _ Hsince).
  destruct (page_of_at_least_one body query) as [(n & Hpage & Hnan & Hlt & _) Hone].
  exists n, (Paginate.perPage_of (Paginate.normalize options) body query).
  rewrite Hpage. repeat split; try assumption.
  intros Hfalsy. specialize (Hone Hfalsy). congruence.
Qed.

Lemma paginate_page_is_at_least_one_witness :
  exists page perPage,
    Paginate.paginate pair None (Sample.asking Js.Undefined (Js.Str "-3")) Sample.nothing_asked
    = Paginate.Offset (Js.Num page, perPage)
    /\ Js.num_lt page (Js.of_Z 1) = false.
Proof.
  destruct (paginate_page_is_at_least_one
              pair None (Sample.asking Js.Undefined (Js.Str "-3")) Sample.nothing_asked
              eq_refl)
    as (page & perPage & Hrun & _ & Hlt & _).
  now exists page, perPage.
Defined.

(** X17: when the request names no [since_id] and the options, once
    the defaults are in, are Numbers with [min] not above [max],
    [paginate] calls [paginateOffset] with a perPage that is a Number,
    not NaN, not below [min] and not above [max], whatever the request
    carries as [per_page]. *)
Theorem paginate_perPage_is_within_bounds
        {A : Type} (paginateOffset : Js.Value -> Js.Value -> A)
        (options : option Paginate.Options) (body query : Paginate.Params)
        (default lo hi : Js.Number) :
  JsOps.ToBoolean (JsOps.or (Paginate.since_id body) (Paginate.since_id query)) = false ->
  Paginate.default (Paginate.normalize options) = Js.Num default ->
  Paginate.min (Paginate.normalize options) = Js.Num lo ->
  Paginate.max (Paginate.normalize options) = Js.Num hi ->
  Js.num_lt hi lo = false ->
  exists page perPage,
    Paginate.paginate paginateOffset options body query
    = Paginate.Offset (paginateOffset page (Js.Num perPage))
    /\ perPage <> Js.NaN
    /\ Js.num_lt perPage lo = false
    /\ Js.num_lt hi perPage = false.
Proof.
  intros Hsince Hdefault Hmin Hmax Hbounds.
  rewrite (paginate_by_offset _ _ _ _ Hsince).
  destruct (perPage_of_within_bounds options body query default lo hi
                                     Hdefault Hmin Hmax Hbounds)
    as (n & Hn & Hnan & Hlo & Hhi).
  exists (Paginate.page_of body query), n. rewrite Hn. now repeat split.
Qed.

Lemma paginate_perPage_is_within_bounds_witness :
  exists page perPage,
    Paginate.paginate pair None
                      (Sample.asking (Js.Str "1e9") Js.Undefined) Sample.nothing_asked
    = Paginate.Offset (page, Js.Num perPage)
    /\ Js.num_lt perPage (Js.of_Z 1) = false
    /\ Js.num_lt (Js.of_Z 100) perPage = false.
Proof.
  destruct (paginate_perPage_is_within_bounds
              pair None (Sample.asking (Js.Str "1e9") Js.Undefined) Sample.nothing_asked
              (Js.of_Z 100) (Js.of_Z 1) (Js.of_Z 100)
              eq_refl eq_refl eq_refl eq_refl eq_refl)
    as (page & perPage & Hrun & _ & Hlo & Hhi).
  now exists page, perPage.
Defined.

(** X18: with integer options and an integer [per_page] in a request
    that names no [since_id] (zero counting as none, for the options as
    for the request), [paginate] calls [paginateOffset] with the
    [per_page] asked for, or the default when none is, raised to [min]
    and then cut to [max]: with 100, 1 and 100 where an option is not
    given. *)
Theorem paginate_perPage_of_integers
        {A : Type} (paginateOffset : Js.Value -> Js.Value -> A)
        (default min max asked : Z) (body query : Paginate.Params) :
  JsOps.ToBoolean (JsOps.or (Paginate.since_id body) (Paginate.since_id query)) = false ->
  JsOps.or (Paginate.per_page body) (Paginate.per_page query) = Js.Num (Js.of_Z asked) ->
  Paginate.paginate paginateOffset (integer_options default min max) body query
  = Paginate.Offset
      (paginateOffset
         (Paginate.page_of body query)
         (Js.Num (Js.of_Z (Z.min (or_else max 100)
                                 (Z.max (or_else min 1)
                                        (or_else asked (or_else default 100))))))).
Proof.
  intros Hsince Hasked. rewrite (paginate_by_offset _ _ _ _ Hsince).
  now rewrite (perPage_of_integers default min max asked body query Hasked).
Qed.

Lemma paginate_perPage_of_integers_witness :
  Paginate.paginate pair (integer_options 20 0 50)
                    (Sample.asking (Js.Num (Js.of_Z 500)) Js.Undefined)
                    Sample.nothing_asked
  = Paginate.Offset (Js.Num (Js.of_Z 1), Js.Num (Js.of_Z 50)).
Proof.
  apply (paginate_perPage_of_integers pair 20 0 50 500); reflexivity.
Defined.
